(** * PySimpleDB: a shallow embedding of the storage, log, recovery,
      locking and B-tree core

    The Python sources under [simpledb/] are embedded as executable
    definitions.  Mutable objects that the program reaches through the
    [SimpleDB] class attributes (file manager, log manager, buffer
    manager, the transaction counter) live in one record, [World];
    methods are computations in a state-and-exception monad over it.
    Python [int] is [Z]; [bytearray] is [list Z] with entries in
    [0, 256); [str] is the list of its code points. *)

From stdpp Require Import gmap strings list.
From Stdlib Require Import ZArith Lia.
#[local] Open Scope Z_scope.

(** ** Python exceptions and results *)

Inductive exn :=
| AssertionError
| StructError            (* struct.error *)
| UnicodeEncodeError
| UnicodeDecodeError
| TypeError
| KeyError
| ValueError
| AttributeError
| RecursionError
| LockAbortException
| BufferAbortException
| OutOfFuel              (* the loop bound of the embedding was reached *)
| Blocked.               (* a wait that nothing ends: the call does not return *)

Inductive res (A : Type) :=
| Ok (a : A)
| Raise (e : exn).
Arguments Ok {A} a.
Arguments Raise {A} e.

Definition res_bind {A B} (r : res A) (k : A -> res B) : res B :=
  match r with
  | Ok a => k a
  | Raise e => Raise e
  end.

Definition is_ok {A} (r : res A) : bool :=
  match r with Ok _ => true | Raise _ => false end.

(** A Python [str]: the sequence of its code points. *)
Definition str := list Z.

Definition py (s : string) : str :=
  map (fun a => Z.of_N (Ascii.N_of_ascii a)) (String.list_ascii_of_string s).

Fixpoint startswith (s prefix : str) : bool :=
  match prefix, s with
  | [], _ => true
  | p :: prefix', c :: s' => (c =? p) && startswith s' prefix'
  | _ :: _, [] => false
  end.

(** ** shared_service/macro.py *)

Definition BLOCK_SIZE : Z := 400.
Definition INTEGER : Z := 4.
Definition VARCHAR : Z := 12.

(** ** The [struct] module, native (little-endian) byte order *)

Fixpoint le_bytes (n : nat) (v : Z) : list Z :=
  match n with
  | O => []
  | S n' => v mod 256 :: le_bytes n' (v / 256)
  end.

Fixpoint le_value (bs : list Z) : Z :=
  match bs with
  | [] => 0
  | b :: bs' => b + 256 * le_value bs'
  end.

Inductive fmt := Fmt_i | Fmt_I | Fmt_h | Fmt_H | Fmt_q.

Definition fmt_size (f : fmt) : nat :=
  match f with
  | Fmt_i | Fmt_I => 4%nat
  | Fmt_h | Fmt_H => 2%nat
  | Fmt_q => 8%nat
  end.

Definition fmt_signed (f : fmt) : bool :=
  match f with
  | Fmt_i | Fmt_h | Fmt_q => true
  | Fmt_I | Fmt_H => false
  end.

Definition fmt_modulus (f : fmt) : Z := 2 ^ (8 * Z.of_nat (fmt_size f)).

Definition fmt_min (f : fmt) : Z :=
  if fmt_signed f then - (fmt_modulus f / 2) else 0.

Definition fmt_max (f : fmt) : Z :=
  if fmt_signed f then fmt_modulus f / 2 - 1 else fmt_modulus f - 1.

Definition struct_pack (f : fmt) (v : Z) : res (list Z) :=
  if (fmt_min f <=? v) && (v <=? fmt_max f)
  then Ok (le_bytes (fmt_size f) v)
  else Raise StructError.

Definition struct_unpack (f : fmt) (bs : list Z) : Z :=
  let u := le_value bs in
  if fmt_signed f && (fmt_modulus f / 2 <=? u) then u - fmt_modulus f else u.

(** Where [pack_into] and [unpack_from] find [size] bytes in a buffer of
    [len] bytes: a negative offset counts from the end. *)
Definition struct_offset (len size offset : Z) : res Z :=
  if offset <? 0 then
    if (0 <? offset + size) || (offset + len <? 0)
    then Raise StructError
    else Ok (offset + len)
  else if len - offset <? size then Raise StructError
  else Ok offset.

Definition pack_into (f : fmt) (buf : list Z) (offset v : Z) : res (list Z) :=
  let size := Z.of_nat (fmt_size f) in
  res_bind (struct_pack f v) (fun bs =>
  res_bind (struct_offset (Z.of_nat (length buf)) size offset) (fun off =>
  Ok (take (Z.to_nat off) buf ++ bs ++ drop (Z.to_nat (off + size)) buf))).

Definition unpack_from (f : fmt) (buf : list Z) (offset : Z) : res Z :=
  let size := Z.of_nat (fmt_size f) in
  res_bind (struct_offset (Z.of_nat (length buf)) size offset) (fun off =>
  Ok (struct_unpack f (take (fmt_size f) (drop (Z.to_nat off) buf)))).

(** ** Slices of a [bytearray] *)

Definition slice_index (len i : Z) : Z :=
  if i <? 0 then Z.max 0 (i + len) else Z.min i len.

Definition getslice (l : list Z) (start stop : Z) : list Z :=
  let len := Z.of_nat (length l) in
  let s := slice_index len start in
  let e := slice_index len stop in
  take (Z.to_nat (e - s)) (drop (Z.to_nat s) l).

(** [l[start:stop] = v]: the bytearray grows or shrinks when [v] has not
    the length of the slice it replaces. *)
Definition setslice (l : list Z) (start stop : Z) (v : list Z) : list Z :=
  let len := Z.of_nat (length l) in
  let s := slice_index len start in
  let e := Z.max s (slice_index len stop) in
  take (Z.to_nat s) l ++ v ++ drop (Z.to_nat e) l.

(** ** The utf-32-be codec *)

Definition is_code_point (c : Z) : bool := (0 <=? c) && (c <? 1114112).
Definition is_surrogate (c : Z) : bool := (55296 <=? c) && (c <? 57344).
Definition is_scalar (c : Z) : bool := is_code_point c && negb (is_surrogate c).

Definition be_bytes4 (c : Z) : list Z := rev (le_bytes 4 c).

Fixpoint utf_32_be_encode (s : str) : res (list Z) :=
  match s with
  | [] => Ok []
  | c :: s' =>
      if is_scalar c
      then res_bind (utf_32_be_encode s') (fun bs => Ok (be_bytes4 c ++ bs))
      else Raise UnicodeEncodeError
  end.

Fixpoint utf_32_be_decode (bs : list Z) : res str :=
  match bs with
  | [] => Ok []
  | b0 :: b1 :: b2 :: b3 :: rest =>
      let c := le_value [b3; b2; b1; b0] in
      if is_scalar c
      then res_bind (utf_32_be_decode rest) (fun s => Ok (c :: s))
      else Raise UnicodeDecodeError
  | _ => Raise UnicodeDecodeError
  end.

(** ** Objects *)

(** plain_storage/file.py, class [Block]. *)
Record Block := { file_name : str; number : Z }.

#[global] Instance Block_eq_dec : EqDecision Block.
Proof. solve_decision. Defined.

#[global] Instance Block_countable : Countable Block.
Proof.
  refine (inj_countable' (fun b => (file_name b, number b))
            (fun p => {| file_name := p.1; number := p.2 |}) _).
  intros []; reflexivity.
Defined.

(** A value of a log record: Python [int] or [str]. *)
Inductive value :=
| VInt (n : Z)
| VStr (s : str).

(** plain_storage/file.py, class [FileMgr]: the files of the database
    directory, each a flat sequence of bytes. *)
Record FileMgr := { fm_files : gmap str (list Z); fm_isNew : bool }.

(** plain_storage/bufferslot.py, class [BufferSlot]. *)
Record BufferSlot := {
  bs_contents : list Z;            (* _contents, a MaxPage *)
  bs_blk : option Block;           (* _blk *)
  bs_pins : Z;                     (* _pins *)
  bs_modified_by : Z;              (* _modified_by *)
  bs_log_sequence_number : Z       (* _log_sequence_number *)
}.

(** class [BasicBufferMgr] (wrapped one to one by [BufferMgr]). *)
Record BasicBufferMgr := { bufferpool : list BufferSlot; num_available : Z }.

(** formatted_storage/log.py, class [LogMgr]. *)
Record LogMgr := {
  lm_mypage : list Z;
  lm_logfile : str;
  lm_currentblk : Block;
  lm_currentpos : Z
}.

(** plain_storage/lock.py. *)
Record PageLockTable := { lt_locks : gmap Block Z }.

Inductive lock_type := S_lock | X_lock.

(** [PageLockMgr._locks] is iterated by [release]: a dict in insertion
    order, kept as an association list. *)
Record PageLockMgr := {
  plm_locktbl : PageLockTable;
  plm_locks : list (Block * lock_type)
}.

(** formatted_storage/tx.py.  A buffer is referred to by its position in
    the pool. *)
Record BufferList := { bl_buffers : gmap Block nat; bl_pins : list Block }.

Record Transaction := {
  tx_txnum : Z;
  tx_concur_mgr : PageLockMgr;
  tx_my_buffers : BufferList
}.

(** What the program does to the outside, in the order it does it. *)
Inductive event :=
| EvWrite (blk : Block) (bb : list Z)      (* FileMgr.write *)
| EvAppend (rec : list value) (lsn : Z)    (* LogMgr.append returned lsn *)
| EvUnlock (blk : Block)                   (* PageLockTable.unlock *)
| EvUnpin (slot : nat).                    (* BasicBufferMgr.unpin *)

(** The attributes of class [SimpleDB], the class attribute
    [Transaction.__next_tx_num] and the live [Transaction] objects, by
    transaction number. *)
Record World := {
  fm : FileMgr;
  logm : LogMgr;
  bm : BasicBufferMgr;
  next_tx_num : Z;
  txs : gmap Z Transaction;
  trace : list event
}.

Definition set_fm (f : FileMgr) (w : World) : World :=
  {| fm := f; logm := logm w; bm := bm w; next_tx_num := next_tx_num w;
     txs := txs w; trace := trace w |}.
Definition set_logm (l : LogMgr) (w : World) : World :=
  {| fm := fm w; logm := l; bm := bm w; next_tx_num := next_tx_num w;
     txs := txs w; trace := trace w |}.
Definition set_bm (b : BasicBufferMgr) (w : World) : World :=
  {| fm := fm w; logm := logm w; bm := b; next_tx_num := next_tx_num w;
     txs := txs w; trace := trace w |}.
Definition set_next_tx_num (n : Z) (w : World) : World :=
  {| fm := fm w; logm := logm w; bm := bm w; next_tx_num := n;
     txs := txs w; trace := trace w |}.
Definition set_txs (t : gmap Z Transaction) (w : World) : World :=
  {| fm := fm w; logm := logm w; bm := bm w; next_tx_num := next_tx_num w;
     txs := t; trace := trace w |}.
Definition emit (e : event) (w : World) : World :=
  {| fm := fm w; logm := logm w; bm := bm w; next_tx_num := next_tx_num w;
     txs := txs w; trace := trace w ++ [e] |}.

(** ** The state and exception monad

    A raised exception leaves the state as it was when it was raised:
    Python does not undo the mutations made before. *)

Definition ST (S A : Type) : Type := S -> S * res A.

Definition ret {S A} (a : A) : ST S A := fun s => (s, Ok a).
Definition raise {S A} (e : exn) : ST S A := fun s => (s, Raise e).
Definition bind {S A B} (m : ST S A) (k : A -> ST S B) : ST S B :=
  fun s => match m s with
           | (s', Ok a) => k a s'
           | (s', Raise e) => (s', Raise e)
           end.
Definition get {S} : ST S S := fun s => (s, Ok s).
Definition put {S} (s : S) : ST S unit := fun _ => (s, Ok tt).
Definition modify {S} (f : S -> S) : ST S unit := fun s => (f s, Ok tt).
Definition lift {S A} (r : res A) : ST S A := fun s => (s, r).
Definition assert {S} (b : bool) : ST S unit :=
  if b then ret tt else raise AssertionError.

(** [try: m except Exception: raise e]. *)
Definition except_raise {S A} (m : ST S A) (e : exn) : ST S A :=
  fun s => match m s with
           | (s', Ok a) => (s', Ok a)
           | (s', Raise _) => (s', Raise e)
           end.

Declare Scope st_scope.
Delimit Scope st_scope with st.
Notation "x <- c1 ;; c2" := (bind c1 (fun x => c2))
  (at level 100, c1 at next level, c2 at level 200, right associativity) : st_scope.
Notation "c1 ;; c2" := (bind c1 (fun _ => c2))
  (at level 100, c2 at level 200, right associativity) : st_scope.
#[local] Open Scope st_scope.

Definition M (A : Type) : Type := ST World A.

Definition run {A} (m : M A) (w : World) : World := fst (m w).
Definition result {A} (m : M A) (w : World) : res A := snd (m w).

(** ** plain_storage/file.py *)

Module FileMgr.

Definition file_data (f : FileMgr) (filename : str) : list Z :=
  default [] (fm_files f !! filename).

(** [get_file]: a file that does not exist is created empty. *)
Definition get_file (filename : str) : M (list Z) :=
  w <- get ;;
  match fm_files (fm w) !! filename with
  | Some d => ret d
  | None =>
      put (set_fm {| fm_files := <[filename := []]> (fm_files (fm w));
                     fm_isNew := fm_isNew (fm w) |} w) ;;
      ret []
  end.

Definition put_file (filename : str) (d : list Z) : M unit :=
  modify (fun w => set_fm {| fm_files := <[filename := d]> (fm_files (fm w));
                             fm_isNew := fm_isNew (fm w) |} w).

(** [fc.seek(pos); fc.write(bb)] on an unbuffered file: a gap past the
    end of the file reads as zeros. *)
Definition file_write (d : list Z) (pos : nat) (bb : list Z) : list Z :=
  take pos (d ++ replicate (pos - length d) 0) ++ bb ++ drop (pos + length bb) d.

(** [fc.seek(pos); fc.readinto(bb)]. *)
Definition file_readinto (d : list Z) (pos : nat) (bb : list Z) : list Z :=
  let got := take (length bb) (drop pos d) in
  got ++ drop (length got) bb.

(** A negative block number makes [seek] fail; the handler then fails
    on [str + Block]. *)
Definition read (blk : Block) (bb : list Z) : M (list Z) :=
  d <- get_file (file_name blk) ;;
  if number blk <? 0 then raise TypeError
  else ret (file_readinto d (Z.to_nat (BLOCK_SIZE * number blk)) bb).

Definition write (blk : Block) (bb : list Z) : M unit :=
  d <- get_file (file_name blk) ;;
  if number blk <? 0 then raise TypeError
  else
    put_file (file_name blk) (file_write d (Z.to_nat (BLOCK_SIZE * number blk)) bb) ;;
    modify (emit (EvWrite blk bb)).

Definition size (filename : str) : M Z :=
  d <- get_file filename ;;
  ret ((Z.of_nat (length d) + BLOCK_SIZE - 1) / BLOCK_SIZE).

Definition append (filename : str) (bb : list Z) : M Block :=
  newblknum <- size filename ;;
  let blk := {| file_name := filename; number := newblknum |} in
  write blk bb ;;
  ret blk.

Definition is_new : M bool := w <- get ;; ret (fm_isNew (fm w)).

End FileMgr.

Module Page.

Definition INT_SIZE : Z := 4.
Definition MAX_BYTES_PER_CHAR : Z := 4.

Definition new : list Z := replicate (Z.to_nat BLOCK_SIZE) 0.

Definition set (f : fmt) (offset val : Z) : ST (list Z) unit :=
  fun contents =>
    match pack_into f contents offset val with
    | Ok c' => (c', Ok tt)
    | Raise e => (contents, Raise e)
    end.

Definition get_ (f : fmt) (offset : Z) : ST (list Z) Z :=
  fun contents => (contents, unpack_from f contents offset).

Definition set_int := set Fmt_i.
Definition get_int := get_ Fmt_i.
Definition set_uint := set Fmt_I.
Definition get_uint := get_ Fmt_I.
Definition set_short := set Fmt_h.
Definition get_short := get_ Fmt_h.
Definition set_ushort := set Fmt_H.
Definition get_ushort := get_ Fmt_H.
Definition set_int64 := set Fmt_q.
Definition get_int64 := get_ Fmt_q.

(** [set_tinyint]: [struct.pack_into("c", ...)] packs a [bytes] object
    of length 1 and raises [struct.error] on the [int] it is given here;
    [UnicodeTranslateError] built with one argument raises [TypeError]. *)
Definition set_tinyint (offset val : Z) : ST (list Z) unit :=
  if (0 <=? val) && (val <=? 255) then raise StructError
  else raise TypeError.

(** [get_tinyint]: [int] of the [bytes] object of length 1 that
    [struct.unpack_from("c", ...)] returns reads it as a decimal
    literal. *)
Definition get_tinyint (offset : Z) : ST (list Z) Z :=
  fun contents =>
    (contents,
     res_bind (struct_offset (Z.of_nat (length contents)) 1 offset) (fun off =>
     match contents !! Z.to_nat off with
     | Some b => if (48 <=? b) && (b <=? 57) then Ok (b - 48) else Raise ValueError
     | None => Raise StructError
     end)).

Definition clear : ST (list Z) unit := put new.

End Page.

Module MaxPage.

Definition INT_SIZE : Z := Page.INT_SIZE.
Definition MAX_BYTES_PER_CHAR : Z := Page.MAX_BYTES_PER_CHAR.

(** Modelled from the spec: [MaxPage.BLOCK_SIZE] is read by the log
    manager, the record manager and the B-tree but is not declared in
    file.py; it is the block size of macro.py. *)
Definition BLOCK_SIZE : Z := BLOCK_SIZE.

Definition str_size (n : Z) : Z := INT_SIZE + n * MAX_BYTES_PER_CHAR.

Definition set_int := Page.set_int.
Definition get_int := Page.get_int.

(** Modelled from the spec: [clear_contents] is called by the log
    manager and by the tests but is not declared in file.py; the page
    becomes a freshly zeroed page, as [Page.clear] makes it. *)
Definition clear_contents : ST (list Z) unit := Page.clear.

Definition read (blk : option Block) (contents : list Z) : M (list Z) :=
  match blk with
  | None => raise AssertionError
  | Some b => FileMgr.read b contents
  end.

Definition write (blk : option Block) (contents : list Z) : M unit :=
  match blk with
  | None => raise AssertionError
  | Some b => FileMgr.write b contents
  end.

Definition append (filename : str) (contents : list Z) : M Block :=
  FileMgr.append filename contents.

Definition get_string (offset : Z) : ST (list Z) str :=
  size <- get_int offset ;;
  if (size <=? 0) || (400 <? size) then ret []
  else
    contents <- get ;;
    let string_byte_array :=
      getslice contents (offset + INT_SIZE) (offset + INT_SIZE + size) in
    lift (utf_32_be_decode string_byte_array).

Definition set_string (offset : Z) (val : str) : ST (list Z) unit :=
  string_byte_array <- lift (utf_32_be_encode val) ;;
  let size := Z.of_nat (length string_byte_array) in
  int_byte_array <- lift (struct_pack Fmt_I size) ;;
  modify (fun contents =>
    setslice contents offset (offset + INT_SIZE + size)
             (int_byte_array ++ string_byte_array)).

End MaxPage.

(** ** Helpers for objects held inside other objects *)

Definition zoom {S T A} (proj : S -> T) (upd : T -> S -> S) (m : ST T A) : ST S A :=
  fun s => match m (proj s) with (t, r) => (upd t s, r) end.

Fixpoint for_each {S A} (l : list A) (body : A -> ST S unit) : ST S unit :=
  match l with
  | [] => ret tt
  | x :: l' => body x ;; for_each l' body
  end.

(** ** formatted_storage/log.py *)

Definition LAST_POS : Z := 0.   (* LogMgr.LAST_POS *)

Record BasicLogRecord := { blr_pg : list Z; blr_pos : Z }.

Module BasicLogRecord.

Definition on_pg {A} (m : ST (list Z) A) : ST BasicLogRecord A :=
  zoom blr_pg (fun pg r => {| blr_pg := pg; blr_pos := blr_pos r |}) m.

Definition advance (n : Z) : ST BasicLogRecord unit :=
  modify (fun r => {| blr_pg := blr_pg r; blr_pos := blr_pos r + n |}).

Definition next_int : ST BasicLogRecord Z :=
  self <- get ;;
  result <- on_pg (MaxPage.get_int (blr_pos self)) ;;
  advance MaxPage.INT_SIZE ;;
  ret result.

Definition next_string : ST BasicLogRecord str :=
  self <- get ;;
  result <- on_pg (MaxPage.get_string (blr_pos self)) ;;
  advance (MaxPage.str_size (Z.of_nat (length result))) ;;
  ret result.

End BasicLogRecord.

Record LogIterator := { li_blk : Block; li_pg : list Z; li_currentrec : Z }.

Module LogIterator.

(** [LogIterator(blk)]. *)
Definition init (blk : Block) : M LogIterator :=
  pg <- MaxPage.read (Some blk) Page.new ;;
  currentrec <- lift (snd (MaxPage.get_int LAST_POS pg)) ;;
  ret {| li_blk := blk; li_pg := pg; li_currentrec := currentrec |}.

Definition has_next (self : LogIterator) : bool :=
  (li_currentrec self >? 0) || (number (li_blk self) >? 0).

Definition __move_to_next_block (self : LogIterator) : M LogIterator :=
  let blk := {| file_name := file_name (li_blk self);
                number := number (li_blk self) - 1 |} in
  pg <- MaxPage.read (Some blk) (li_pg self) ;;
  currentrec <- lift (snd (MaxPage.get_int LAST_POS pg)) ;;
  ret {| li_blk := blk; li_pg := pg; li_currentrec := currentrec |}.

(** The record returned reads the iterator's own page; its values are
    read by the caller before the iterator moves on. *)
Definition next (self : LogIterator) : M (LogIterator * BasicLogRecord) :=
  self <- (if li_currentrec self =? 0 then __move_to_next_block self else ret self) ;;
  currentrec <- lift (snd (MaxPage.get_int (li_currentrec self) (li_pg self))) ;;
  ret ({| li_blk := li_blk self; li_pg := li_pg self; li_currentrec := currentrec |},
       {| blr_pg := li_pg self; blr_pos := currentrec + MaxPage.INT_SIZE |}).

End LogIterator.

Module LogMgr.

Definition on_mypage {A} (m : ST (list Z) A) : M A :=
  zoom (fun w => lm_mypage (logm w))
       (fun pg w => set_logm {| lm_mypage := pg; lm_logfile := lm_logfile (logm w);
                                lm_currentblk := lm_currentblk (logm w);
                                lm_currentpos := lm_currentpos (logm w) |} w) m.

Definition set_currentblk (blk : Block) : M unit :=
  modify (fun w => set_logm {| lm_mypage := lm_mypage (logm w);
                               lm_logfile := lm_logfile (logm w);
                               lm_currentblk := blk;
                               lm_currentpos := lm_currentpos (logm w) |} w).

Definition set_currentpos (pos : Z) : M unit :=
  modify (fun w => set_logm {| lm_mypage := lm_mypage (logm w);
                               lm_logfile := lm_logfile (logm w);
                               lm_currentblk := lm_currentblk (logm w);
                               lm_currentpos := pos |} w).

Definition __current_lsn : M Z :=
  w <- get ;; ret (number (lm_currentblk (logm w))).

Definition __flush : M unit :=
  w <- get ;; MaxPage.write (Some (lm_currentblk (logm w))) (lm_mypage (logm w)).

Definition __get_last_record_position : M Z :=
  on_mypage (MaxPage.get_int LAST_POS).

Definition __set_last_record_position (pos : Z) : M unit :=
  on_mypage (MaxPage.set_int LAST_POS pos).

Definition __append_new_block : M unit :=
  on_mypage MaxPage.clear_contents ;;
  __set_last_record_position 0 ;;
  w <- get ;;
  blk <- MaxPage.append (lm_logfile (logm w)) (lm_mypage (logm w)) ;;
  set_currentblk blk ;;
  set_currentpos MaxPage.INT_SIZE.

Definition __size (val : value) : Z :=
  match val with
  | VStr s => MaxPage.str_size (Z.of_nat (length s))
  | VInt _ => MaxPage.INT_SIZE
  end.

Definition __append_val (val : value) : M unit :=
  w <- get ;;
  match val with
  | VStr s => on_mypage (MaxPage.set_string (lm_currentpos (logm w)) s)
  | VInt n => on_mypage (MaxPage.set_int (lm_currentpos (logm w)) n)
  end ;;
  set_currentpos (lm_currentpos (logm w) + __size val).

Definition __finalize_record : M unit :=
  last <- __get_last_record_position ;;
  w <- get ;;
  on_mypage (MaxPage.set_int (lm_currentpos (logm w)) last) ;;
  __set_last_record_position (lm_currentpos (logm w)) ;;
  set_currentpos (lm_currentpos (logm w) + MaxPage.INT_SIZE).

Definition recsize (rec : list value) : Z :=
  fold_left (fun acc obj => acc + __size obj) rec MaxPage.INT_SIZE.

Definition append (rec : list value) : M Z :=
  assert (recsize rec <=? MaxPage.BLOCK_SIZE) ;;
  w <- get ;;
  (if lm_currentpos (logm w) + recsize rec >=? MaxPage.BLOCK_SIZE
   then __flush ;; __append_new_block
   else ret tt) ;;
  for_each rec __append_val ;;
  __finalize_record ;;
  lsn <- __current_lsn ;;
  modify (emit (EvAppend rec lsn)) ;;
  ret lsn.

Definition flush (lsn : Z) : M unit :=
  cur <- __current_lsn ;;
  if lsn >=? cur then __flush else ret tt.

Definition iterator : M LogIterator :=
  __flush ;;
  w <- get ;;
  LogIterator.init (lm_currentblk (logm w)).

(** [LogMgr(logfile)]. *)
Definition init (logfile : str) : M unit :=
  modify (set_logm {| lm_mypage := Page.new; lm_logfile := logfile;
                      lm_currentblk := {| file_name := logfile; number := 0 |};
                      lm_currentpos := 0 |}) ;;
  logsize <- FileMgr.size logfile ;;
  if logsize =? 0 then __append_new_block
  else
    let blk := {| file_name := logfile; number := logsize - 1 |} in
    set_currentblk blk ;;
    w <- get ;;
    pg <- MaxPage.read (Some blk) (lm_mypage (logm w)) ;;
    on_mypage (put pg) ;;
    last <- __get_last_record_position ;;
    set_currentpos (last + MaxPage.INT_SIZE).

End LogMgr.

(** ** plain_storage/bufferslot.py *)

(** [PageFormatter.format(page)]. *)
Definition PageFormatter : Type := ST (list Z) unit.

Module BufferSlot.

Definition new : BufferSlot :=
  {| bs_contents := Page.new; bs_blk := None; bs_pins := 0;
     bs_modified_by := -1; bs_log_sequence_number := -1 |}.

Definition set_contents (c : list Z) (b : BufferSlot) : BufferSlot :=
  {| bs_contents := c; bs_blk := bs_blk b; bs_pins := bs_pins b;
     bs_modified_by := bs_modified_by b;
     bs_log_sequence_number := bs_log_sequence_number b |}.
Definition set_blk (blk : option Block) (b : BufferSlot) : BufferSlot :=
  {| bs_contents := bs_contents b; bs_blk := blk; bs_pins := bs_pins b;
     bs_modified_by := bs_modified_by b;
     bs_log_sequence_number := bs_log_sequence_number b |}.
Definition set_pins (n : Z) (b : BufferSlot) : BufferSlot :=
  {| bs_contents := bs_contents b; bs_blk := bs_blk b; bs_pins := n;
     bs_modified_by := bs_modified_by b;
     bs_log_sequence_number := bs_log_sequence_number b |}.
Definition set_modified_by (txnum : Z) (b : BufferSlot) : BufferSlot :=
  {| bs_contents := bs_contents b; bs_blk := bs_blk b; bs_pins := bs_pins b;
     bs_modified_by := txnum;
     bs_log_sequence_number := bs_log_sequence_number b |}.
Definition set_log_sequence_number (lsn : Z) (b : BufferSlot) : BufferSlot :=
  {| bs_contents := bs_contents b; bs_blk := bs_blk b; bs_pins := bs_pins b;
     bs_modified_by := bs_modified_by b;
     bs_log_sequence_number := lsn |}.

(** The slot object at position [i] of the pool. *)
Definition self (i : nat) : M BufferSlot :=
  w <- get ;;
  match bufferpool (bm w) !! i with
  | Some b => ret b
  | None => raise KeyError
  end.

Definition update (i : nat) (f : BufferSlot -> BufferSlot) : M unit :=
  modify (fun w => set_bm {| bufferpool := alter f i (bufferpool (bm w));
                             num_available := num_available (bm w) |} w).

Definition on_contents {A} (i : nat) (m : ST (list Z) A) : M A :=
  b <- self i ;;
  match m (bs_contents b) with
  | (c, r) => update i (set_contents c) ;; lift r
  end.

Definition get_int (i : nat) (offset : Z) : M Z :=
  on_contents i (MaxPage.get_int offset).

Definition get_string (i : nat) (offset : Z) : M str :=
  on_contents i (MaxPage.get_string offset).

Definition set_int (i : nat) (offset val txnum lsn : Z) : M unit :=
  update i (set_modified_by txnum) ;;
  (if lsn >=? 0 then update i (set_log_sequence_number lsn) else ret tt) ;;
  on_contents i (MaxPage.set_int offset val).

Definition set_string (i : nat) (offset : Z) (val : str) (txnum lsn : Z) : M unit :=
  update i (set_modified_by txnum) ;;
  (if lsn >=? 0 then update i (set_log_sequence_number lsn) else ret tt) ;;
  on_contents i (MaxPage.set_string offset val).

Definition block (i : nat) : M (option Block) :=
  b <- self i ;; ret (bs_blk b).

Definition flush (i : nat) : M unit :=
  b <- self i ;;
  if bs_modified_by b >? 0 then
    LogMgr.flush (bs_log_sequence_number b) ;;
    MaxPage.write (bs_blk b) (bs_contents b) ;;
    update i (set_modified_by (-1))
  else ret tt.

Definition pin (i : nat) : M unit :=
  update i (fun b => set_pins (bs_pins b + 1) b).

Definition unpin (i : nat) : M unit :=
  update i (fun b => set_pins (bs_pins b - 1) b).

Definition is_pinned (i : nat) : M bool :=
  b <- self i ;; ret (bs_pins b >? 0).

Definition is_modified_by (i : nat) (txnum : Z) : M bool :=
  b <- self i ;; ret (bs_modified_by b =? txnum).

Definition assign_to_block (i : nat) (blk : Block) : M unit :=
  flush i ;;
  update i (set_blk (Some blk)) ;;
  b <- self i ;;
  c <- MaxPage.read (bs_blk b) (bs_contents b) ;;
  update i (set_contents c) ;;
  update i (set_pins 0).

Definition assign_to_new (i : nat) (filename : str) (fmtr : PageFormatter) : M unit :=
  flush i ;;
  on_contents i fmtr ;;
  b <- self i ;;
  blk <- MaxPage.append filename (bs_contents b) ;;
  update i (set_blk (Some blk)) ;;
  update i (set_pins 0).

End BufferSlot.

Module BasicBufferMgr.

(** [BasicBufferMgr(numbuffs)]. *)
Definition init (numbuffs : nat) : M unit :=
  modify (set_bm {| bufferpool := replicate numbuffs BufferSlot.new;
                    num_available := Z.of_nat numbuffs |}).

Definition add_available (d : Z) : M unit :=
  modify (fun w => set_bm {| bufferpool := bufferpool (bm w);
                             num_available := num_available (bm w) + d |} w).

Definition slots : M (list nat) :=
  w <- get ;; ret (seq 0 (length (bufferpool (bm w)))).

Definition flush_all (txnum : Z) : M unit :=
  l <- slots ;;
  for_each l (fun i =>
    m <- BufferSlot.is_modified_by i txnum ;;
    if m then BufferSlot.flush i else ret tt).

Fixpoint find_from (p : BufferSlot -> bool) (pool : list BufferSlot) (i : nat)
  : option nat :=
  match pool with
  | [] => None
  | b :: pool' => if p b then Some i else find_from p pool' (S i)
  end.

Definition __find_existing_buffer (blk : Block) : M (option nat) :=
  w <- get ;;
  ret (find_from (fun b => bool_decide (bs_blk b = Some blk)) (bufferpool (bm w)) 0).

Definition __choose_unpinned_buffer : M (option nat) :=
  w <- get ;;
  ret (find_from (fun b => negb (bs_pins b >? 0)) (bufferpool (bm w)) 0).

Definition pin (blk : Block) : M (option nat) :=
  found <- __find_existing_buffer blk ;;
  chosen <- match found with
            | Some i => ret (Some i)
            | None =>
                free <- __choose_unpinned_buffer ;;
                match free with
                | None => ret None
                | Some i => BufferSlot.assign_to_block i blk ;; ret (Some i)
                end
            end ;;
  match chosen with
  | None => ret None
  | Some i =>
      pinned <- BufferSlot.is_pinned i ;;
      (if pinned then ret tt else add_available (-1)) ;;
      BufferSlot.pin i ;;
      ret (Some i)
  end.

Definition pin_new (filename : str) (fmtr : PageFormatter) : M (option nat) :=
  free <- __choose_unpinned_buffer ;;
  match free with
  | None => ret None
  | Some i =>
      BufferSlot.assign_to_new i filename fmtr ;;
      add_available (-1) ;;
      BufferSlot.pin i ;;
      ret (Some i)
  end.

(** [unpin(buff)]; [None] is not a [BufferSlot]. *)
Definition unpin (buff : option nat) : M unit :=
  match buff with
  | None => raise AssertionError
  | Some i =>
      BufferSlot.unpin i ;;
      modify (emit (EvUnpin i)) ;;
      pinned <- BufferSlot.is_pinned i ;;
      if pinned then ret tt else add_available 1
  end.

Definition available : M Z := w <- get ;; ret (num_available (bm w)).

End BasicBufferMgr.

(** The public buffer manager.  The embedding follows one thread, so
    no buffer is unpinned while a request waits.  [pin_new] waits with
    a timeout: a request that finds no unpinned buffer finds none until
    its time is up, and is aborted.  [pin] waits with [self._cv.wait()],
    which has no timeout: a request that finds no unpinned buffer is
    never woken up, and the call does not return. *)
Module BufferMgr.

Definition init (numbuffers : nat) : M unit := BasicBufferMgr.init numbuffers.

Definition pin (blk : Block) : M nat :=
  buff <- except_raise (BasicBufferMgr.pin blk) BufferAbortException ;;
  match buff with
  | None => raise Blocked
  | Some i => ret i
  end.

Definition pin_new (filename : str) (fmtr : PageFormatter) : M nat :=
  except_raise
    (buff <- BasicBufferMgr.pin_new filename fmtr ;;
     match buff with
     | None => raise BufferAbortException
     | Some i => ret i
     end)
    BufferAbortException.

Definition unpin (buff : option nat) : M unit := BasicBufferMgr.unpin buff.

Definition flush_all (txnum : Z) : M unit := BasicBufferMgr.flush_all txnum.

Definition available : M Z := BasicBufferMgr.available.

End BufferMgr.

(** ** plain_storage/lock.py

    The waits on the condition variable have a timeout; the embedding
    follows one thread, so a request that conflicts when it is made
    conflicts until [MAX_TIME] has passed, and is aborted. *)

Module PageLockTable.

Definition new : PageLockTable := {| lt_locks := ∅ |}.

Definition __get_lock_val (blk : Block) : ST PageLockTable Z :=
  self <- get ;; ret (default 0 (lt_locks self !! blk)).

Definition __has_xlock (blk : Block) : ST PageLockTable bool :=
  val <- __get_lock_val blk ;; ret (val <? 0).

Definition __has_other_slocks (blk : Block) : ST PageLockTable bool :=
  val <- __get_lock_val blk ;; ret (val >? 1).

Definition setitem (blk : Block) (val : Z) : ST PageLockTable unit :=
  modify (fun self => {| lt_locks := <[blk := val]> (lt_locks self) |}).

Definition slock (blk : Block) : ST PageLockTable unit :=
  except_raise
    (x <- __has_xlock blk ;;
     if x then raise LockAbortException
     else val <- __get_lock_val blk ;; setitem blk (val + 1))
    LockAbortException.

Definition xlock (blk : Block) : ST PageLockTable unit :=
  except_raise
    (x <- __has_other_slocks blk ;;
     if x then raise LockAbortException
     else setitem blk (-1))
    LockAbortException.

Definition unlock (blk : Block) : ST PageLockTable unit :=
  val <- __get_lock_val blk ;;
  if val >? 1 then setitem blk (val - 1)
  else
    self <- get ;;
    match lt_locks self !! blk with
    | None => raise KeyError
    | Some _ => put {| lt_locks := delete blk (lt_locks self) |}
    end.

End PageLockTable.

(** A dict iterated in insertion order: an association list. *)
Fixpoint assoc_get {K V} `{EqDecision K} (l : list (K * V)) (k : K) : option V :=
  match l with
  | [] => None
  | (k', v) :: l' => if decide (k = k') then Some v else assoc_get l' k
  end.

Fixpoint assoc_set {K V} `{EqDecision K} (l : list (K * V)) (k : K) (v : V)
  : list (K * V) :=
  match l with
  | [] => [(k, v)]
  | (k', v') :: l' =>
      if decide (k = k') then (k, v) :: l' else (k', v') :: assoc_set l' k v
  end.

Module PageLockMgr.

(** [PageLockMgr()]: every lock manager is given a lock table of its
    own. *)
Definition new : PageLockMgr :=
  {| plm_locktbl := PageLockTable.new; plm_locks := [] |}.

Definition on_locktbl {A} (m : ST PageLockTable A) : ST PageLockMgr A :=
  zoom plm_locktbl
       (fun t self => {| plm_locktbl := t; plm_locks := plm_locks self |}) m.

Definition setitem (blk : Block) (ty : lock_type) : ST PageLockMgr unit :=
  modify (fun self => {| plm_locktbl := plm_locktbl self;
                         plm_locks := assoc_set (plm_locks self) blk ty |}).

Definition __has_xlock (blk : Block) : ST PageLockMgr bool :=
  self <- get ;;
  ret (match assoc_get (plm_locks self) blk with
       | Some X_lock => true
       | _ => false
       end).

Definition slock (blk : Block) : ST PageLockMgr unit :=
  self <- get ;;
  match assoc_get (plm_locks self) blk with
  | None => on_locktbl (PageLockTable.slock blk) ;; setitem blk S_lock
  | Some _ => ret tt
  end.

Definition xlock (blk : Block) : ST PageLockMgr unit :=
  x <- __has_xlock blk ;;
  if x then ret tt
  else
    slock blk ;;
    on_locktbl (PageLockTable.xlock blk) ;;
    setitem blk X_lock.

Definition clear : ST PageLockMgr unit :=
  modify (fun self => {| plm_locktbl := plm_locktbl self; plm_locks := [] |}).

End PageLockMgr.

(** ** formatted_storage/recovery.py *)

Inductive LogRecord :=
| CheckpointRecord
| StartRecord (txnum : Z)
| CommitRecord (txnum : Z)
| RollbackRecord (txnum : Z)
| SetIntRecord (txnum : Z) (blk : Block) (offset val : Z)
| SetStringRecord (txnum : Z) (blk : Block) (offset : Z) (val : str).

Module LogRecord.

Definition CHECKPOINT : Z := 0.
Definition START : Z := 1.
Definition COMMIT : Z := 2.
Definition ROLLBACK : Z := 3.
Definition SETINT : Z := 4.
Definition SETSTRING : Z := 5.

Definition op (self : LogRecord) : Z :=
  match self with
  | CheckpointRecord => CHECKPOINT
  | StartRecord _ => START
  | CommitRecord _ => COMMIT
  | RollbackRecord _ => ROLLBACK
  | SetIntRecord _ _ _ _ => SETINT
  | SetStringRecord _ _ _ _ => SETSTRING
  end.

Definition tx_number (self : LogRecord) : Z :=
  match self with
  | CheckpointRecord => -1
  | StartRecord txnum | CommitRecord txnum | RollbackRecord txnum => txnum
  | SetIntRecord txnum _ _ _ => txnum
  | SetStringRecord txnum _ _ _ => txnum
  end.

(** The list of values handed to [LogMgr.append]. *)
Definition rec (self : LogRecord) : list value :=
  match self with
  | CheckpointRecord => [VInt CHECKPOINT]
  | StartRecord txnum => [VInt START; VInt txnum]
  | CommitRecord txnum => [VInt COMMIT; VInt txnum]
  | RollbackRecord txnum => [VInt ROLLBACK; VInt txnum]
  | SetIntRecord txnum blk offset val =>
      [VInt SETINT; VInt txnum; VStr (file_name blk); VInt (number blk);
       VInt offset; VInt val]
  | SetStringRecord txnum blk offset val =>
      [VInt SETSTRING; VInt txnum; VStr (file_name blk); VInt (number blk);
       VInt offset; VStr val]
  end.

Definition write_to_log (self : LogRecord) : M Z := LogMgr.append (rec self).

(** [undo(txnum)]: [SetIntRecord.undo] stamps the buffer with the
    record's own transaction number, [SetStringRecord.undo] with the
    number it is given. *)
Definition undo (self : LogRecord) (txnum : Z) : M unit :=
  match self with
  | SetIntRecord self_txnum blk offset val =>
      buff <- BufferMgr.pin blk ;;
      BufferSlot.set_int buff offset val self_txnum (-1) ;;
      BufferMgr.unpin (Some buff)
  | SetStringRecord _ blk offset val =>
      buff <- BufferMgr.pin blk ;;
      BufferSlot.set_string buff offset val txnum (-1) ;;
      BufferMgr.unpin (Some buff)
  | _ => ret tt
  end.

End LogRecord.

Module LogRecordIterator.

Definition init : M LogIterator := LogMgr.iterator.

Definition has_next (self : LogIterator) : bool := LogIterator.has_next self.

(** The constructors [XRecord(rec=rec)], reading their values from the
    basic log record. *)
Definition read_tx (mk : Z -> LogRecord) : ST BasicLogRecord (option LogRecord) :=
  txnum <- BasicLogRecord.next_int ;; ret (Some (mk txnum)).

Definition read_set_int : ST BasicLogRecord (option LogRecord) :=
  txnum <- BasicLogRecord.next_int ;;
  filename <- BasicLogRecord.next_string ;;
  blknum <- BasicLogRecord.next_int ;;
  offset <- BasicLogRecord.next_int ;;
  val <- BasicLogRecord.next_int ;;
  ret (Some (SetIntRecord txnum {| file_name := filename; number := blknum |} offset val)).

Definition read_set_string : ST BasicLogRecord (option LogRecord) :=
  txnum <- BasicLogRecord.next_int ;;
  filename <- BasicLogRecord.next_string ;;
  blknum <- BasicLogRecord.next_int ;;
  offset <- BasicLogRecord.next_int ;;
  val <- BasicLogRecord.next_string ;;
  ret (Some (SetStringRecord txnum {| file_name := filename; number := blknum |} offset val)).

Definition parse : ST BasicLogRecord (option LogRecord) :=
  op <- BasicLogRecord.next_int ;;
  if op =? LogRecord.CHECKPOINT then ret (Some CheckpointRecord)
  else if op =? LogRecord.START then read_tx StartRecord
  else if op =? LogRecord.COMMIT then read_tx CommitRecord
  else if op =? LogRecord.ROLLBACK then read_tx RollbackRecord
  else if op =? LogRecord.SETINT then read_set_int
  else if op =? LogRecord.SETSTRING then read_set_string
  else ret None.

Definition next (self : LogIterator) : M (LogIterator * option LogRecord) :=
  p <- LogIterator.next self ;;
  r <- lift (snd (parse (snd p))) ;;
  ret (fst p, r).

End LogRecordIterator.

Module RecoveryMgr.

(** [RecoveryMgr(txnum)]. *)
Definition init (txnum : Z) : M unit :=
  LogRecord.write_to_log (StartRecord txnum) ;; ret tt.

Definition commit (txnum : Z) : M unit :=
  BufferMgr.flush_all txnum ;;
  lsn <- LogRecord.write_to_log (CommitRecord txnum) ;;
  LogMgr.flush lsn.

Definition __is_temp_block (blk : option Block) : M bool :=
  match blk with
  | None => raise AssertionError
  | Some b => ret (startswith (file_name b) (py "temp"))
  end.

Definition set_int (txnum : Z) (buff : nat) (offset newval : Z) : M Z :=
  oldval <- BufferSlot.get_int buff offset ;;
  blk <- BufferSlot.block buff ;;
  temp <- __is_temp_block blk ;;
  if temp then ret (-1)
  else
    match blk with
    | Some b => LogRecord.write_to_log (SetIntRecord txnum b offset oldval)
    | None => raise AssertionError
    end.

Definition set_string (txnum : Z) (buff : nat) (offset : Z) (newval : str) : M Z :=
  oldval <- BufferSlot.get_string buff offset ;;
  blk <- BufferSlot.block buff ;;
  temp <- __is_temp_block blk ;;
  if temp then ret (-1)
  else
    match blk with
    | Some b => LogRecord.write_to_log (SetStringRecord txnum b offset oldval)
    | None => raise AssertionError
    end.

(** The [while iterator.has_next()] loops, bounded by [fuel]. *)
Fixpoint rollback_loop (fuel : nat) (txnum : Z) (iterator : LogIterator) : M unit :=
  match fuel with
  | O => raise OutOfFuel
  | S fuel' =>
      if LogRecordIterator.has_next iterator then
        p <- LogRecordIterator.next iterator ;;
        match snd p with
        | None => raise AttributeError
        | Some rec =>
            if LogRecord.tx_number rec =? txnum then
              if LogRecord.op rec =? LogRecord.START then ret tt
              else LogRecord.undo rec txnum ;; rollback_loop fuel' txnum (fst p)
            else rollback_loop fuel' txnum (fst p)
        end
      else ret tt
  end.

Definition __do_rollback (fuel : nat) (txnum : Z) : M unit :=
  iterator <- LogRecordIterator.init ;;
  rollback_loop fuel txnum iterator.

Fixpoint recover_loop (fuel : nat) (txnum : Z) (finished_txs : list Z)
    (iterator : LogIterator) : M unit :=
  match fuel with
  | O => raise OutOfFuel
  | S fuel' =>
      if LogRecordIterator.has_next iterator then
        p <- LogRecordIterator.next iterator ;;
        match snd p with
        | None => raise AssertionError
        | Some rec =>
            if LogRecord.op rec =? LogRecord.CHECKPOINT then ret tt
            else if (LogRecord.op rec =? LogRecord.COMMIT)
                    || (LogRecord.op rec =? LogRecord.ROLLBACK)
            then recover_loop fuel' txnum (finished_txs ++ [LogRecord.tx_number rec]) (fst p)
            else if negb (bool_decide (LogRecord.tx_number rec ∈ finished_txs))
            then LogRecord.undo rec txnum ;; recover_loop fuel' txnum finished_txs (fst p)
            else recover_loop fuel' txnum finished_txs (fst p)
        end
      else ret tt
  end.

Definition __do_recover (fuel : nat) (txnum : Z) : M unit :=
  iterator <- LogRecordIterator.init ;;
  recover_loop fuel txnum [] iterator.

Definition rollback (fuel : nat) (txnum : Z) : M unit :=
  __do_rollback fuel txnum ;;
  BufferMgr.flush_all txnum ;;
  lsn <- LogRecord.write_to_log (CommitRecord txnum) ;;
  LogMgr.flush lsn.

Definition recover (fuel : nat) (txnum : Z) : M unit :=
  __do_recover fuel txnum ;;
  BufferMgr.flush_all txnum ;;
  lsn <- LogRecord.write_to_log CheckpointRecord ;;
  LogMgr.flush lsn.

End RecoveryMgr.

(** ** formatted_storage/tx.py *)

(** Access to the transaction object numbered [t] and to the objects
    it holds. *)
Module TxObj.

(** The transaction object numbered [t]. *)
Definition self (t : Z) : M Transaction :=
  w <- get ;;
  match txs w !! t with
  | Some tx => ret tx
  | None => raise KeyError
  end.

Definition on_concur_mgr {A} (t : Z) (m : ST PageLockMgr A) : M A :=
  tx <- self t ;;
  match m (tx_concur_mgr tx) with
  | (c, r) =>
      modify (fun w => set_txs (<[t := {| tx_txnum := tx_txnum tx; tx_concur_mgr := c;
                                         tx_my_buffers := tx_my_buffers tx |}]> (txs w)) w) ;;
      lift r
  end.

Definition set_my_buffers (t : Z) (bl : BufferList) : M unit :=
  tx <- self t ;;
  modify (fun w => set_txs (<[t := {| tx_txnum := tx_txnum tx;
                                     tx_concur_mgr := tx_concur_mgr tx;
                                     tx_my_buffers := bl |}]> (txs w)) w).

Definition my_buffers (t : Z) : M BufferList :=
  tx <- self t ;; ret (tx_my_buffers tx).

End TxObj.

Module BufferList.

Definition new : BufferList := {| bl_buffers := ∅; bl_pins := [] |}.

Definition get_buffer (t : Z) (blk : Block) : M (option nat) :=
  bl <- TxObj.my_buffers t ;; ret (bl_buffers bl !! blk).

Definition pin (t : Z) (blk : Block) : M unit :=
  buff <- BufferMgr.pin blk ;;
  bl <- TxObj.my_buffers t ;;
  TxObj.set_my_buffers t
    {| bl_buffers := <[blk := buff]> (bl_buffers bl); bl_pins := bl_pins bl ++ [blk] |}.

Definition pin_new (t : Z) (filename : str) (fmtr : PageFormatter) : M Block :=
  buff <- BufferMgr.pin_new filename fmtr ;;
  b <- BufferSlot.block buff ;;
  match b with
  | None => raise AssertionError
  | Some blk =>
      bl <- TxObj.my_buffers t ;;
      TxObj.set_my_buffers t
        {| bl_buffers := <[blk := buff]> (bl_buffers bl); bl_pins := bl_pins bl ++ [blk] |} ;;
      ret blk
  end.

(** [list.remove]: the first occurrence, [ValueError] when absent. *)
Fixpoint remove_first (blk : Block) (l : list Block) : option (list Block) :=
  match l with
  | [] => None
  | b :: l' =>
      if decide (b = blk) then Some l'
      else match remove_first blk l' with
           | Some r => Some (b :: r)
           | None => None
           end
  end.

Definition unpin (t : Z) (blk : Block) : M unit :=
  buff <- get_buffer t blk ;;
  BufferMgr.unpin buff ;;
  bl <- TxObj.my_buffers t ;;
  match remove_first blk (bl_pins bl) with
  | None => raise ValueError
  | Some pins =>
      TxObj.set_my_buffers t
        {| bl_buffers := if bool_decide (blk ∈ pins) then bl_buffers bl
                         else delete blk (bl_buffers bl);
           bl_pins := pins |}
  end.

Definition unpin_all (t : Z) : M unit :=
  bl <- TxObj.my_buffers t ;;
  for_each (bl_pins bl) (fun blk =>
    buff <- get_buffer t blk ;;
    BufferMgr.unpin buff) ;;
  TxObj.set_my_buffers t new.

End BufferList.

Module Transaction.

Definition END_OF_FILE : Z := -1.

(** [self._concur_mgr.release()]: [PageLockMgr.release] on the lock
    manager of transaction [t]. *)
Definition release (t : Z) : M unit :=
  tx <- TxObj.self t ;;
  for_each (map fst (plm_locks (tx_concur_mgr tx))) (fun blk =>
    TxObj.on_concur_mgr t (PageLockMgr.on_locktbl (PageLockTable.unlock blk)) ;;
    modify (emit (EvUnlock blk))) ;;
  TxObj.on_concur_mgr t PageLockMgr.clear.

Definition __next_tx_number : M Z :=
  modify (fun w => set_next_tx_num (next_tx_num w + 1) w) ;;
  w <- get ;; ret (next_tx_num w).

(** [Transaction()]: returns the number of the new transaction. *)
Definition init : M Z :=
  txnum <- __next_tx_number ;;
  RecoveryMgr.init txnum ;;
  modify (fun w => set_txs (<[txnum := {| tx_txnum := txnum;
                                        tx_concur_mgr := PageLockMgr.new;
                                        tx_my_buffers := BufferList.new |}]> (txs w)) w) ;;
  ret txnum.

Definition commit (t : Z) : M unit :=
  RecoveryMgr.commit t ;;
  release t ;;
  BufferList.unpin_all t.

Definition rollback (fuel : nat) (t : Z) : M unit :=
  RecoveryMgr.rollback fuel t ;;
  release t ;;
  BufferList.unpin_all t.

Definition recover (fuel : nat) (t : Z) : M unit :=
  BufferMgr.flush_all t ;;
  RecoveryMgr.recover fuel t.

Definition pin (t : Z) (blk : Block) : M unit := BufferList.pin t blk.

Definition unpin (t : Z) (blk : Block) : M unit := BufferList.unpin t blk.

(** [assert isinstance(buff, BufferSlot)]. *)
Definition the_buffer (t : Z) (blk : Block) : M nat :=
  buff <- BufferList.get_buffer t blk ;;
  match buff with
  | Some i => ret i
  | None => raise AssertionError
  end.

Definition get_int (t : Z) (blk : Block) (offset : Z) : M Z :=
  TxObj.on_concur_mgr t (PageLockMgr.slock blk) ;;
  buff <- the_buffer t blk ;;
  BufferSlot.get_int buff offset.

Definition get_string (t : Z) (blk : Block) (offset : Z) : M str :=
  TxObj.on_concur_mgr t (PageLockMgr.slock blk) ;;
  buff <- the_buffer t blk ;;
  BufferSlot.get_string buff offset.

Definition set_int (t : Z) (blk : Block) (offset val : Z) : M unit :=
  TxObj.on_concur_mgr t (PageLockMgr.xlock blk) ;;
  buff <- the_buffer t blk ;;
  lsn <- RecoveryMgr.set_int t buff offset val ;;
  BufferSlot.set_int buff offset val t lsn.

Definition set_string (t : Z) (blk : Block) (offset : Z) (val : str) : M unit :=
  TxObj.on_concur_mgr t (PageLockMgr.xlock blk) ;;
  buff <- the_buffer t blk ;;
  lsn <- RecoveryMgr.set_string t buff offset val ;;
  BufferSlot.set_string buff offset val t lsn.

Definition size (t : Z) (filename : str) : M Z :=
  let dummyblk := {| file_name := filename; number := END_OF_FILE |} in
  TxObj.on_concur_mgr t (PageLockMgr.slock dummyblk) ;;
  FileMgr.size filename.

Definition append (t : Z) (filename : str) (fmtr : PageFormatter) : M Block :=
  let dummyblk := {| file_name := filename; number := END_OF_FILE |} in
  TxObj.on_concur_mgr t (PageLockMgr.xlock dummyblk) ;;
  blk <- BufferList.pin_new t filename fmtr ;;
  unpin t blk ;;
  ret blk.

(** [size(False)], as [BTreeIndex.__init__] calls it: the shared lock
    on [Block(False, -1)] is granted (a block of no file, which the lock
    tables of the embedding do not hold); [FileMgr.get_file] then fails
    its assertion that the name is a [str], and its handler fails in
    turn on [str + bool]. *)
Definition size_of_False (t : Z) : M Z := raise TypeError.

End Transaction.

(** ** shared_service/server.py *)

Module SimpleDB.

Definition BUFFER_SIZE : nat := 8.
Definition LOG_FILE : str := py "simpledb.log".

(** The process before any manager is initialised.  [dir] is the
    database directory found at startup, if any; [FileMgr(dbname)]
    removes the files whose name begins with "temp". *)
Definition boot (dir : option (gmap str (list Z))) : World :=
  {| fm := {| fm_files :=
                match dir with
                | None => ∅
                | Some files =>
                    filter (fun kv => negb (startswith kv.1 (py "temp")) = true) files
                end;
              fm_isNew := match dir with None => true | Some _ => false end |};
     logm := {| lm_mypage := Page.new; lm_logfile := LOG_FILE;
                lm_currentblk := {| file_name := LOG_FILE; number := 0 |};
                lm_currentpos := 0 |};
     bm := {| bufferpool := []; num_available := 0 |};
     next_tx_num := 0;
     txs := ∅;
     trace := [] |}.

Definition init_file_and_log_mgr : M unit := LogMgr.init LOG_FILE.

Definition init_file_log_and_buffer_mgr : M unit :=
  init_file_and_log_mgr ;;
  BufferMgr.init BUFFER_SIZE.

(** The process dies and is started again: the files stay, everything
    in memory is lost. *)
Definition restart (w : World) : World := boot (Some (fm_files (fm w))).

End SimpleDB.

(** ** Loops

    [while cond: body] over the local variables [l], at most [fuel]
    iterations. *)
Fixpoint while {S L} (fuel : nat) (cond : L -> ST S bool) (body : L -> ST S L) (l : L)
  : ST S L :=
  match fuel with
  | O => raise OutOfFuel
  | S fuel' =>
      c <- cond l ;;
      if c then l' <- body l ;; while fuel' cond body l' else ret l
  end.

(** ** formatted_storage/record.py *)

Record FieldInfo := { fi_type : Z; fi_length : Z }.

(** [Schema._info], a dict in insertion order. *)
Definition Schema : Type := list (str * FieldInfo).

Module Schema.

Definition new : Schema := [].

Definition add_field (fldname : str) (type length : Z) (self : Schema) : Schema :=
  assoc_set self fldname {| fi_type := type; fi_length := length |}.

Definition add_int_field (fldname : str) (self : Schema) : Schema :=
  add_field fldname INTEGER 0 self.

Definition add_string_field (fldname : str) (length : Z) (self : Schema) : Schema :=
  add_field fldname VARCHAR length self.

(** [self._info.get(fldname).type]: [None] has no attribute [type]. *)
Definition type (self : Schema) (fldname : str) : res Z :=
  match assoc_get self fldname with
  | Some fi => Ok (fi_type fi)
  | None => Raise AttributeError
  end.

Definition length (self : Schema) (fldname : str) : res Z :=
  match assoc_get self fldname with
  | Some fi => Ok (fi_length fi)
  | None => Raise AttributeError
  end.

Definition fields (self : Schema) : list str := map fst self.

(** [add(fldname, sch)]: the field has the type and the length it has
    in [sch]. *)
Definition add (fldname : str) (sch self : Schema) : res Schema :=
  res_bind (type sch fldname) (fun ty =>
  res_bind (length sch fldname) (fun len =>
  Ok (add_field fldname ty len self))).

End Schema.

Record TableInfo := {
  ti_schema : Schema;
  ti_tblname : str;
  ti_offset : list (str * Z);
  ti_recordlen : Z
}.

Module TableInfo.

Definition __length_in_bytes (schema : Schema) (fldname : str) : res Z :=
  res_bind (Schema.type schema fldname) (fun fldtype =>
  if fldtype =? INTEGER then Ok MaxPage.INT_SIZE
  else res_bind (Schema.length schema fldname) (fun n => Ok (MaxPage.str_size n))).

Fixpoint offsets (schema : Schema) (flds : list str) (pos : Z)
  : res (list (str * Z) * Z) :=
  match flds with
  | [] => Ok ([], pos)
  | fldname :: flds' =>
      res_bind (__length_in_bytes schema fldname) (fun n =>
      res_bind (offsets schema flds' (pos + n)) (fun r =>
      Ok ((fldname, pos) :: fst r, snd r)))
  end.

(** [TableInfo(tblname, schema)]. *)
Definition init (tblname : str) (schema : Schema) : res TableInfo :=
  res_bind (offsets schema (Schema.fields schema) 0) (fun r =>
  Ok {| ti_schema := schema; ti_tblname := tblname;
        ti_offset := fst r; ti_recordlen := snd r |}).

Definition file_name (self : TableInfo) : str := ti_tblname self ++ py ".tbl".

Definition schema (self : TableInfo) : Schema := ti_schema self.

Definition offset (self : TableInfo) (fldname : str) : option Z :=
  assoc_get (ti_offset self) fldname.

Definition record_length (self : TableInfo) : Z := ti_recordlen self.

End TableInfo.

Record RID := { rid_blknum : Z; rid_id : Z }.

#[global] Instance RID_eq_dec : EqDecision RID.
Proof. solve_decision. Defined.

(** ** query_prosessor/query.py, the constants *)

Inductive Constant :=
| IntConstant (n : Z)
| StringConstant (s : str).

Module Constant.

(** [self == other]. *)
Definition eq (self other : Constant) : bool :=
  match self, other with
  | IntConstant a, IntConstant b => a =? b
  | StringConstant a, StringConstant b => bool_decide (a = b)
  | _, _ => false
  end.

Fixpoint str_lt (a b : str) : bool :=
  match a, b with
  | [], [] => false
  | [], _ :: _ => true
  | _ :: _, [] => false
  | x :: a', y :: b' => (x <? y) || ((x =? y) && str_lt a' b')
  end.

(** [self < other]. *)
Definition lt (self other : Constant) : res bool :=
  match self, other with
  | IntConstant a, IntConstant b => Ok (a <? b)
  | StringConstant a, StringConstant b => Ok (str_lt a b)
  | _, _ => Raise TypeError
  end.

(** [self > other]. *)
Definition gt (self other : Constant) : res bool := lt other self.

End Constant.

(** ** formatted_storage/index/btree.py *)

Module BTPageFormatter.

Definition __make_default_record (ti : TableInfo) (pos : Z) : ST (list Z) unit :=
  for_each (Schema.fields (TableInfo.schema ti)) (fun fldname =>
    ty <- lift (Schema.type (TableInfo.schema ti) fldname) ;;
    match TableInfo.offset ti fldname with
    | None => raise TypeError
    | Some offset =>
        if ty =? INTEGER then MaxPage.set_int (pos + offset) 0
        else MaxPage.set_string (pos + offset) []
    end).

(** [BTPageFormatter(ti, flag).format(page)].  With a record length
    of at least one byte the loop ends within [BLOCK_SIZE] rounds. *)
Definition format (ti : TableInfo) (flag : Z) : PageFormatter :=
  MaxPage.set_int 0 flag ;;
  MaxPage.set_int MaxPage.INT_SIZE 0 ;;
  let recsize := TableInfo.record_length ti in
  while (Z.to_nat BLOCK_SIZE)
    (fun pos => ret (pos + recsize <=? BLOCK_SIZE))
    (fun pos => __make_default_record ti pos ;; ret (pos + recsize))
    (MaxPage.INT_SIZE * 2) ;;
  ret tt.

End BTPageFormatter.

Record BTreePage := {
  bp_currentblk : option Block;
  bp_ti : TableInfo;
  bp_tx : Z;
  bp_slotsize : Z
}.

Record DirEntry := { de_dataval : Constant; de_blocknum : Z }.

Module BTreePage.
Section Bounded.

(** The bound on the rounds of every loop below. *)
Variable fuel : nat.

(** [BTreePage(currentblk, ti, tx)]. *)
Definition init (currentblk : Block) (ti : TableInfo) (tx : Z) : M BTreePage :=
  Transaction.pin tx currentblk ;;
  ret {| bp_currentblk := Some currentblk; bp_ti := ti; bp_tx := tx;
         bp_slotsize := TableInfo.record_length ti |}.

(** A closed page has [None] for its block, which the lock table
    refuses. *)
Definition currentblk (self : BTreePage) : M Block :=
  match bp_currentblk self with
  | Some blk => ret blk
  | None => raise AssertionError
  end.

Definition __slotpos (self : BTreePage) (slot : Z) : Z :=
  MaxPage.INT_SIZE + MaxPage.INT_SIZE + slot * bp_slotsize self.

Definition __fldpos (self : BTreePage) (slot : Z) (fldname : str) : M Z :=
  match TableInfo.offset (bp_ti self) fldname with
  | Some offset => ret (__slotpos self slot + offset)
  | None => raise TypeError
  end.

Definition __get_int (self : BTreePage) (slot : Z) (fldname : str) : M Z :=
  pos <- __fldpos self slot fldname ;;
  blk <- currentblk self ;;
  Transaction.get_int (bp_tx self) blk pos.

Definition __get_string (self : BTreePage) (slot : Z) (fldname : str) : M str :=
  pos <- __fldpos self slot fldname ;;
  blk <- currentblk self ;;
  Transaction.get_string (bp_tx self) blk pos.

Definition __get_val (self : BTreePage) (slot : Z) (fldname : str) : M Constant :=
  ty <- lift (Schema.type (TableInfo.schema (bp_ti self)) fldname) ;;
  if ty =? INTEGER then n <- __get_int self slot fldname ;; ret (IntConstant n)
  else s <- __get_string self slot fldname ;; ret (StringConstant s).

Definition __set_int (self : BTreePage) (slot : Z) (fldname : str) (val : Z) : M unit :=
  pos <- __fldpos self slot fldname ;;
  blk <- currentblk self ;;
  Transaction.set_int (bp_tx self) blk pos val.

(** [__set_string] calls [tx.set_int] with the string: the lock is
    taken, the old integer is logged and the buffer is stamped, then
    [struct.pack_into] refuses the string. *)
Definition __set_string (self : BTreePage) (slot : Z) (fldname : str) (val : str)
  : M unit :=
  pos <- __fldpos self slot fldname ;;
  blk <- currentblk self ;;
  TxObj.on_concur_mgr (bp_tx self) (PageLockMgr.xlock blk) ;;
  buff <- Transaction.the_buffer (bp_tx self) blk ;;
  lsn <- RecoveryMgr.set_int (bp_tx self) buff pos 0 ;;
  BufferSlot.update buff (BufferSlot.set_modified_by (bp_tx self)) ;;
  (if lsn >=? 0 then BufferSlot.update buff (BufferSlot.set_log_sequence_number lsn)
   else ret tt) ;;
  raise StructError.

Definition __set_val (self : BTreePage) (slot : Z) (fldname : str) (val : Constant)
  : M unit :=
  ty <- lift (Schema.type (TableInfo.schema (bp_ti self)) fldname) ;;
  if ty =? INTEGER then
    match val with
    | IntConstant n => __set_int self slot fldname n
    | StringConstant s => __set_string self slot fldname s
    end
  else
    match val with
    | StringConstant s => __set_string self slot fldname s
    | IntConstant n =>
        pos <- __fldpos self slot fldname ;;
        blk <- currentblk self ;;
        Transaction.set_int (bp_tx self) blk pos n
    end.

Definition set_num_recs (self : BTreePage) (n : Z) : M unit :=
  blk <- currentblk self ;;
  Transaction.set_int (bp_tx self) blk MaxPage.INT_SIZE n.

Definition get_num_recs (self : BTreePage) : M Z :=
  blk <- currentblk self ;;
  Transaction.get_int (bp_tx self) blk MaxPage.INT_SIZE.

Definition __copy_record (self : BTreePage) (From To : Z) : M unit :=
  for_each (Schema.fields (TableInfo.schema (bp_ti self))) (fun fldname =>
    v <- __get_val self From fldname ;;
    __set_val self To fldname v).

Definition __insert (self : BTreePage) (slot : Z) : M unit :=
  i <- get_num_recs self ;;
  while fuel
    (fun i => ret (i >? slot))
    (fun i => __copy_record self (i - 1) i ;; ret (i - 1))
    i ;;
  n <- get_num_recs self ;;
  set_num_recs self (n + 1).

Definition delete (self : BTreePage) (slot : Z) : M unit :=
  while fuel
    (fun i => n <- get_num_recs self ;; ret (i <? n))
    (fun i => __copy_record self i (i - 1) ;; ret (i + 1))
    (slot + 1) ;;
  n <- get_num_recs self ;;
  set_num_recs self (n - 1).

Definition __transfer_records (self : BTreePage) (slot : Z) (dest : BTreePage) : M unit :=
  while fuel
    (fun _ => n <- get_num_recs self ;; ret (slot <? n))
    (fun destslot =>
       __insert dest destslot ;;
       for_each (Schema.fields (TableInfo.schema (bp_ti self))) (fun fldname =>
         v <- __get_val self slot fldname ;;
         __set_val dest destslot fldname v) ;;
       delete self slot ;;
       ret (destslot + 1))
    0 ;;
  ret tt.

Definition get_data_val (self : BTreePage) (slot : Z) : M Constant :=
  __get_val self slot (py "dataval").

Definition get_flag (self : BTreePage) : M Z :=
  blk <- currentblk self ;;
  Transaction.get_int (bp_tx self) blk 0.

Definition set_flag (self : BTreePage) (val : Z) : M unit :=
  blk <- currentblk self ;;
  Transaction.set_int (bp_tx self) blk 0 val.

Definition append_new (self : BTreePage) (flag : Z) : M Block :=
  Transaction.append (bp_tx self) (TableInfo.file_name (bp_ti self))
    (BTPageFormatter.format (bp_ti self) flag).

Definition close (self : BTreePage) : M BTreePage :=
  match bp_currentblk self with
  | Some blk =>
      Transaction.unpin (bp_tx self) blk ;;
      ret {| bp_currentblk := None; bp_ti := bp_ti self; bp_tx := bp_tx self;
             bp_slotsize := bp_slotsize self |}
  | None => ret self
  end.

Definition is_full (self : BTreePage) : M bool :=
  n <- get_num_recs self ;;
  ret (__slotpos self (n + 1) <? MaxPage.BLOCK_SIZE).

Definition find_slot_befor (self : BTreePage) (searchkey : Constant) : M Z :=
  slot <- while fuel
    (fun slot =>
       n <- get_num_recs self ;;
       if slot <? n then
         v <- get_data_val self slot ;;
         lift (Constant.lt v searchkey)
       else ret false)
    (fun slot => ret (slot + 1))
    0 ;;
  ret (slot - 1).

Definition split (self : BTreePage) (splitpos flag : Z) : M Block :=
  newblk <- append_new self flag ;;
  newpage <- init newblk (bp_ti self) (bp_tx self) ;;
  __transfer_records self splitpos newpage ;;
  set_flag newpage flag ;;
  close newpage ;;
  ret newblk.

Definition get_child_num (self : BTreePage) (slot : Z) : M Z :=
  __get_int self slot (py "block").

Definition insert_dir (self : BTreePage) (slot : Z) (val : Constant) (blknum : Z)
  : M unit :=
  __insert self slot ;;
  __set_val self slot (py "dataval") val ;;
  __set_int self slot (py "block") blknum.

Definition get_data_rid (self : BTreePage) (slot : Z) : M RID :=
  b <- __get_int self slot (py "block") ;;
  i <- __get_int self slot (py "id") ;;
  ret {| rid_blknum := b; rid_id := i |}.

Definition insert_leaf (self : BTreePage) (slot : Z) (val : Constant) (rid : RID)
  : M unit :=
  __insert self slot ;;
  __set_val self slot (py "dataval") val ;;
  __set_int self slot (py "block") (rid_blknum rid) ;;
  __set_int self slot (py "id") (rid_id rid).

End Bounded.
End BTreePage.

Record BTreeLeaf := {
  lf_ti : TableInfo;
  lf_tx : Z;
  lf_searchkey : Constant;
  lf_contents : BTreePage;
  lf_currentslot : Z
}.

Module BTreeLeaf.
Section Bounded.

Variable fuel : nat.

Definition set_contents (c : BTreePage) (self : BTreeLeaf) : BTreeLeaf :=
  {| lf_ti := lf_ti self; lf_tx := lf_tx self; lf_searchkey := lf_searchkey self;
     lf_contents := c; lf_currentslot := lf_currentslot self |}.

Definition set_currentslot (n : Z) (self : BTreeLeaf) : BTreeLeaf :=
  {| lf_ti := lf_ti self; lf_tx := lf_tx self; lf_searchkey := lf_searchkey self;
     lf_contents := lf_contents self; lf_currentslot := n |}.

(** [BTreeLeaf(blk, ti, searchkey, tx)]. *)
Definition init (blk : Block) (ti : TableInfo) (searchkey : Constant) (tx : Z)
  : M BTreeLeaf :=
  contents <- BTreePage.init blk ti tx ;;
  currentslot <- BTreePage.find_slot_befor fuel contents searchkey ;;
  ret {| lf_ti := ti; lf_tx := tx; lf_searchkey := searchkey;
         lf_contents := contents; lf_currentslot := currentslot |}.

Definition close (self : BTreeLeaf) : M BTreeLeaf :=
  c <- BTreePage.close (lf_contents self) ;;
  ret (set_contents c self).

Definition __try_over_flow (self : BTreeLeaf) : M (BTreeLeaf * bool) :=
  firstkey <- BTreePage.get_data_val (lf_contents self) 0 ;;
  flag <- BTreePage.get_flag (lf_contents self) ;;
  if negb (Constant.eq (lf_searchkey self) firstkey) || (flag <? 0) then ret (self, false)
  else
    BTreePage.close (lf_contents self) ;;
    let nextblk := {| file_name := TableInfo.file_name (lf_ti self); number := flag |} in
    contents <- BTreePage.init nextblk (lf_ti self) (lf_tx self) ;;
    ret (set_currentslot 0 (set_contents contents self), true).

Definition next (self : BTreeLeaf) : M (BTreeLeaf * bool) :=
  let self := set_currentslot (lf_currentslot self + 1) self in
  n <- BTreePage.get_num_recs (lf_contents self) ;;
  if lf_currentslot self >=? n then __try_over_flow self
  else
    v <- BTreePage.get_data_val (lf_contents self) (lf_currentslot self) ;;
    if Constant.eq v (lf_searchkey self) then ret (self, true)
    else __try_over_flow self.

Definition get_data_rid (self : BTreeLeaf) : M RID :=
  BTreePage.get_data_rid (lf_contents self) (lf_currentslot self).

Definition delete (self : BTreeLeaf) (data_rid : RID) : M BTreeLeaf :=
  first <- next self ;;
  p <- while fuel
    (fun p : BTreeLeaf * bool => ret (snd p))
    (fun p =>
       rid <- get_data_rid (fst p) ;;
       (if bool_decide (rid = data_rid)
        then BTreePage.delete fuel (lf_contents (fst p)) (lf_currentslot (fst p))
        else ret tt) ;;
       next (fst p))
    first ;;
  ret (fst p).

Definition insert (self : BTreeLeaf) (data_rid : RID)
  : M (BTreeLeaf * option DirEntry) :=
  let contents := lf_contents self in
  flag <- BTreePage.get_flag contents ;;
  overflow_head <-
    (if flag >=? 0 then
       v <- BTreePage.get_data_val contents 0 ;; lift (Constant.gt v (lf_searchkey self))
     else ret false) ;;
  if overflow_head then
    firstval <- BTreePage.get_data_val contents 0 ;;
    flag <- BTreePage.get_flag contents ;;
    newblk <- BTreePage.split fuel contents 0 flag ;;
    let self := set_currentslot 0 self in
    BTreePage.set_flag contents (-1) ;;
    BTreePage.insert_leaf fuel contents (lf_currentslot self) (lf_searchkey self) data_rid ;;
    ret (self, Some {| de_dataval := firstval; de_blocknum := number newblk |})
  else
    let self := set_currentslot (lf_currentslot self + 1) self in
    BTreePage.insert_leaf fuel contents (lf_currentslot self) (lf_searchkey self) data_rid ;;
    full <- BTreePage.is_full contents ;;
    if negb full then ret (self, None)
    else
      firstkey <- BTreePage.get_data_val contents 0 ;;
      n <- BTreePage.get_num_recs contents ;;
      lastkey <- BTreePage.get_data_val contents (n - 1) ;;
      if Constant.eq lastkey firstkey then
        flag <- BTreePage.get_flag contents ;;
        newblk <- BTreePage.split fuel contents 1 flag ;;
        BTreePage.set_flag contents (number newblk) ;;
        ret (self, None)
      else
        n <- BTreePage.get_num_recs contents ;;
        let splitpos := n / 2 in
        splitkey <- BTreePage.get_data_val contents splitpos ;;
        p <- (if Constant.eq splitkey firstkey then
                splitpos <- while fuel
                  (fun splitpos =>
                     v <- BTreePage.get_data_val contents splitpos ;;
                     ret (Constant.eq v splitkey))
                  (fun splitpos => ret (splitpos + 1))
                  splitpos ;;
                splitkey <- BTreePage.get_data_val contents splitpos ;;
                ret (splitpos, splitkey)
              else
                splitpos <- while fuel
                  (fun splitpos =>
                     v <- BTreePage.get_data_val contents (splitpos - 1) ;;
                     ret (Constant.eq v splitkey))
                  (fun splitpos => ret (splitpos - 1))
                  splitpos ;;
                ret (splitpos, splitkey)) ;;
        newblk <- BTreePage.split fuel contents (fst p) (-1) ;;
        ret (self, Some {| de_dataval := snd p; de_blocknum := number newblk |}).

End Bounded.
End BTreeLeaf.

Record BTreeDir := {
  bd_ti : TableInfo;
  bd_tx : Z;
  bd_filename : str;
  bd_contents : BTreePage
}.

Module BTreeDir.
Section Bounded.

Variable fuel : nat.

Definition set_contents (c : BTreePage) (self : BTreeDir) : BTreeDir :=
  {| bd_ti := bd_ti self; bd_tx := bd_tx self; bd_filename := bd_filename self;
     bd_contents := c |}.

(** [BTreeDir(blk, ti, tx)]. *)
Definition init (blk : Block) (ti : TableInfo) (tx : Z) : M BTreeDir :=
  contents <- BTreePage.init blk ti tx ;;
  ret {| bd_ti := ti; bd_tx := tx; bd_filename := file_name blk; bd_contents := contents |}.

Definition __find_child_block (self : BTreeDir) (searchkey : Constant) : M Block :=
  slot <- BTreePage.find_slot_befor fuel (bd_contents self) searchkey ;;
  v <- BTreePage.get_data_val (bd_contents self) (slot + 1) ;;
  let slot := if Constant.eq v searchkey then slot + 1 else slot in
  blknum <- BTreePage.get_child_num (bd_contents self) slot ;;
  ret {| file_name := bd_filename self; number := blknum |}.

Definition close (self : BTreeDir) : M BTreeDir :=
  c <- BTreePage.close (bd_contents self) ;;
  ret (set_contents c self).

Definition search (self : BTreeDir) (searchkey : Constant) : M (BTreeDir * Z) :=
  childblk <- __find_child_block self searchkey ;;
  p <- while fuel
    (fun p : BTreeDir * Block =>
       flag <- BTreePage.get_flag (bd_contents (fst p)) ;; ret (flag >? 0))
    (fun p =>
       BTreePage.close (bd_contents (fst p)) ;;
       contents <- BTreePage.init (snd p) (bd_ti (fst p)) (bd_tx (fst p)) ;;
       let self := set_contents contents (fst p) in
       childblk <- __find_child_block self searchkey ;;
       ret (self, childblk))
    (self, childblk) ;;
  ret (fst p, number (snd p)).

End Bounded.
End BTreeDir.

Record BTreeIndex := {
  bi_tx : Z;
  bi_leaf : option BTreeLeaf;
  bi_leaf_ti : TableInfo;
  bi_dir_ti : TableInfo;
  bi_rootblk : Block
}.

Module BTreeIndex.
Section Bounded.

Variable fuel : nat.

Definition set_leaf (l : option BTreeLeaf) (self : BTreeIndex) : BTreeIndex :=
  {| bi_tx := bi_tx self; bi_leaf := l; bi_leaf_ti := bi_leaf_ti self;
     bi_dir_ti := bi_dir_ti self; bi_rootblk := bi_rootblk self |}.

Definition close (self : BTreeIndex) : M BTreeIndex :=
  match bi_leaf self with
  | Some leaf => l <- BTreeLeaf.close leaf ;; ret (set_leaf (Some l) self)
  | None => ret self
  end.

Definition before_first (self : BTreeIndex) (search_key : Constant) : M BTreeIndex :=
  self <- close self ;;
  root <- BTreeDir.init (bi_rootblk self) (bi_dir_ti self) (bi_tx self) ;;
  p <- BTreeDir.search fuel root search_key ;;
  BTreeDir.close (fst p) ;;
  let leafblk := {| file_name := TableInfo.file_name (bi_leaf_ti self);
                    number := snd p |} in
  leaf <- BTreeLeaf.init fuel leafblk (bi_leaf_ti self) search_key (bi_tx self) ;;
  ret (set_leaf (Some leaf) self).

(** [next]: [None] when no leaf is open. *)
Definition next (self : BTreeIndex) : M (BTreeIndex * option bool) :=
  match bi_leaf self with
  | Some leaf =>
      p <- BTreeLeaf.next leaf ;;
      ret (set_leaf (Some (fst p)) self, Some (snd p))
  | None => ret (self, None)
  end.

(** [-sys.maxsize]. *)
Definition minint : Z := - (2 ^ 63 - 1).

(** [BTreeIndex(idxname, leafsch, tx)].  [file_name() == 0] compares a
    [str] with 0: it is [False], and that is what [tx.size] is handed. *)
Definition init (idxname : str) (leafsch : Schema) (tx : Z) : M BTreeIndex :=
  leaf_ti <- lift (TableInfo.init (idxname ++ py "leaf") leafsch) ;;
  n <- Transaction.size_of_False tx ;;
  (if n =? 0 then ret tt
   else Transaction.append tx (TableInfo.file_name leaf_ti)
          (BTPageFormatter.format leaf_ti (-1)) ;; ret tt) ;;
  dirsch <- lift (Schema.add (py "block") leafsch Schema.new) ;;
  dirsch <- lift (Schema.add (py "dataval") leafsch dirsch) ;;
  dir_ti <- lift (TableInfo.init (idxname ++ py "dir") dirsch) ;;
  let rootblk := {| file_name := TableInfo.file_name dir_ti; number := 0 |} in
  n <- Transaction.size_of_False tx ;;
  (if n =? 0 then ret tt
   else Transaction.append tx (TableInfo.file_name dir_ti)
          (BTPageFormatter.format dir_ti 0) ;; ret tt) ;;
  page <- BTreePage.init rootblk dir_ti tx ;;
  num <- BTreePage.get_num_recs page ;;
  (if num =? 0 then
     fldtype <- lift (Schema.type dirsch (py "dataval")) ;;
     let minval := if fldtype =? INTEGER then IntConstant minint else StringConstant [] in
     BTreePage.insert_dir fuel page 0 minval 0
   else ret tt) ;;
  BTreePage.close page ;;
  ret {| bi_tx := tx; bi_leaf := None; bi_leaf_ti := leaf_ti;
         bi_dir_ti := dir_ti; bi_rootblk := rootblk |}.

End Bounded.

(** [get_data_rid] calls itself, not the leaf: [depth] is the number
    of frames left before the interpreter's recursion limit. *)
Fixpoint get_data_rid (depth : nat) (self : BTreeIndex) : M (option RID) :=
  match depth with
  | O => raise RecursionError
  | S depth' =>
      match bi_leaf self with
      | Some _ => get_data_rid depth' self
      | None => ret None
      end
  end.

End BTreeIndex.

(** ** Typed values of a page

    What the round-trip property of pages ranges over: the integer
    formats of [Page] and the strings of [MaxPage]. *)

Inductive typed :=
| TInt (f : fmt) (v : Z)
| TStr (s : str).

Definition typed_size (x : typed) : Z :=
  match x with
  | TInt f _ => Z.of_nat (fmt_size f)
  | TStr s => MaxPage.str_size (Z.of_nat (length s))
  end.

(** The value is one of its type: an integer in the range of its
    format, a string of Unicode scalar values. *)
Definition typed_ok (x : typed) : Prop :=
  match x with
  | TInt f v => fmt_min f <= v <= fmt_max f
  | TStr s => Forall (fun c => is_scalar c = true) s
  end.

Definition page_write (x : typed) (offset : Z) : ST (list Z) unit :=
  match x with
  | TInt f v => Page.set f offset v
  | TStr s => MaxPage.set_string offset s
  end.

(** Reads a value of the type of [x]. *)
Definition page_read (x : typed) (offset : Z) : ST (list Z) typed :=
  match x with
  | TInt f _ => v <- Page.get_ f offset ;; ret (TInt f v)
  | TStr _ => s <- MaxPage.get_string offset ;; ret (TStr s)
  end.

Definition stored_form (x : typed) (offset : Z) (contents : list Z) : Prop :=
  match x with
  | TInt f v =>
      getslice contents offset (offset + Z.of_nat (fmt_size f)) = le_bytes (fmt_size f) v
  | TStr s =>
      exists payload,
        utf_32_be_encode s = Ok payload /\
        getslice contents offset (offset + 4) = le_bytes 4 (Z.of_nat (length payload)) /\
        getslice contents (offset + 4) (offset + 4 + Z.of_nat (length payload)) = payload
  end.

(** ** Scenarios

    Runs of the program from an empty database directory, used to
    evaluate the embedding on concrete inputs. *)

(** What transaction [t]'s own lock table holds for [blk]. *)
Definition lock_val (w : World) (t : Z) (blk : Block) : option Z :=
  match txs w !! t with
  | Some tx => lt_locks (plm_locktbl (tx_concur_mgr tx)) !! blk
  | None => None
  end.

(** The 4-byte integer stored on disk at [offset] of block [blk]. *)
Definition disk_int (w : World) (blk : Block) (offset : Z) : res Z :=
  snd (Page.get_int offset
         (FileMgr.file_readinto (FileMgr.file_data (fm w) (file_name blk))
            (Z.to_nat (BLOCK_SIZE * number blk)) Page.new)).

(** The string stored on disk at [offset] of block [blk]. *)
Definition disk_string (w : World) (blk : Block) (offset : Z) : res str :=
  snd (MaxPage.get_string offset
         (FileMgr.file_readinto (FileMgr.file_data (fm w) (file_name blk))
            (Z.to_nat (BLOCK_SIZE * number blk)) Page.new)).

Definition blk_T0 : Block := {| file_name := py "T.tbl"; number := 0 |}.
Definition blk_T1 : Block := {| file_name := py "T.tbl"; number := 1 |}.

(** Scenario S5: transaction 1 takes an exclusive lock on block 0 of
    T by writing 7 at offset 80; transaction 2 then asks for a shared
    lock on the same block by reading that offset. *)
Definition scenario_S5 : M Z :=
  SimpleDB.init_file_log_and_buffer_mgr ;;
  tx1 <- Transaction.init ;;
  tx2 <- Transaction.init ;;
  Transaction.pin tx1 blk_T0 ;;
  Transaction.set_int tx1 blk_T0 80 7 ;;
  Transaction.pin tx2 blk_T0 ;;
  Transaction.get_int tx2 blk_T0 80.

(** A first run of the server: the startup transaction commits; a user
    transaction (number 2) pins block 0 of T, writes to it, unpins it
    and pins another block, which makes the buffer manager write the
    dirty page out.  The process dies before transaction 2 ends. *)
Definition crash_run (write : Z -> M unit) : M unit :=
  SimpleDB.init_file_log_and_buffer_mgr ;;
  tx1 <- Transaction.init ;;
  Transaction.commit tx1 ;;
  tx2 <- Transaction.init ;;
  Transaction.pin tx2 blk_T0 ;;
  write tx2 ;;
  Transaction.unpin tx2 blk_T0 ;;
  Transaction.pin tx2 blk_T1.

Definition write_int (t : Z) : M unit := Transaction.set_int t blk_T0 80 7.
Definition write_string (t : Z) : M unit :=
  Transaction.set_string t blk_T0 120 (py "zoe").

(** The restart: [SimpleDB.init] up to and including [tx.recover()]. *)
Definition recover_run : M unit :=
  SimpleDB.init_file_log_and_buffer_mgr ;;
  tx <- Transaction.init ;;
  Transaction.recover 100 tx.

Definition crashed (write : Z -> M unit) : World :=
  run (crash_run write) (SimpleDB.boot None).
Definition recovered (write : Z -> M unit) : World :=
  run recover_run (SimpleDB.restart (crashed write)).

(** Two transactions write the same pinned buffer, which their lock
    managers allow: transaction 1 writes 7 at offset 80 of block 0 of
    T, transaction 2 then writes 9 at offset 84. *)
Definition two_writers_run : M unit :=
  SimpleDB.init_file_log_and_buffer_mgr ;;
  tx1 <- Transaction.init ;;
  tx2 <- Transaction.init ;;
  Transaction.pin tx1 blk_T0 ;;
  Transaction.set_int tx1 blk_T0 80 7 ;;
  Transaction.pin tx2 blk_T0 ;;
  Transaction.set_int tx2 blk_T0 84 9.

Definition two_writers : World := run two_writers_run (SimpleDB.boot None).

(** Transaction 1 has committed. *)
Definition first_committed : World := run (Transaction.commit 1) two_writers.

(** After the restart and the recovery, a new transaction reads
    offset 80 of the block. *)
Definition read_after_restart : M Z :=
  recover_run ;;
  tx <- Transaction.init ;;
  Transaction.pin tx blk_T0 ;;
  Transaction.get_int tx blk_T0 80.

(** The leaf records of a B-tree index on an integer field, as
    [IndexInfo] lays them out: block, id, dataval. *)
Definition leaf_schema : Schema :=
  Schema.add_int_field (py "dataval")
    (Schema.add_int_field (py "id")
       (Schema.add_int_field (py "block") Schema.new)).

Definition leaf_ti : TableInfo :=
  {| ti_schema := leaf_schema; ti_tblname := py "idxleaf";
     ti_offset := [(py "block", 0); (py "id", 4); (py "dataval", 8)];
     ti_recordlen := 12 |}.

(** One insertion of key 5 into a fresh, empty leaf block.  Returns
    the directory entry of [insert], then the record count and the flag
    of the leaf block, the number of blocks of the leaf file, and what
    [is_full] answers. *)
Definition leaf_insert_run : M (option DirEntry * Z * Z * Z * bool) :=
  SimpleDB.init_file_log_and_buffer_mgr ;;
  t <- Transaction.init ;;
  blk0 <- Transaction.append t (TableInfo.file_name leaf_ti)
            (BTPageFormatter.format leaf_ti (-1)) ;;
  leaf <- BTreeLeaf.init 100 blk0 leaf_ti (IntConstant 5) t ;;
  p <- BTreeLeaf.insert 100 leaf {| rid_blknum := 3; rid_id := 4 |} ;;
  n <- BTreePage.get_num_recs (lf_contents (fst p)) ;;
  flag <- BTreePage.get_flag (lf_contents (fst p)) ;;
  full <- BTreePage.is_full (lf_contents (fst p)) ;;
  size <- Transaction.size t (TableInfo.file_name leaf_ti) ;;
  ret (snd p, n, flag, size, full).

(** A log whose current page has exactly 8 bytes left: one record of
    12 bytes and 47 records of 8 bytes after the 4-byte tail pointer. *)
Definition log_fill : M unit :=
  SimpleDB.init_file_and_log_mgr ;;
  LogMgr.append [VInt 1; VInt 1] ;;
  for_each (replicate 47 [VInt 1]) (fun rec => LogMgr.append rec ;; ret tt).

Definition log_filled : World := run log_fill (SimpleDB.boot None).

(** ** Vocabulary of the statements *)

(** Every state [m] passes through from a state in [I] is left in [I],
    whether [m] returns or raises. *)
Definition preserves {S A} (I : S -> Prop) (m : ST S A) : Prop :=
  forall s, I s -> I (fst (m s)).

(** The world after [FileMgr.write blk bb] has returned. *)
Definition written (blk : Block) (bb : list Z) (w : World) : World :=
  emit (EvWrite blk bb)
    (set_fm {| fm_files :=
                 <[file_name blk :=
                     FileMgr.file_write (FileMgr.file_data (fm w) (file_name blk))
                       (Z.to_nat (BLOCK_SIZE * number blk)) bb]> (fm_files (fm w));
               fm_isNew := fm_isNew (fm w) |} w).

(** Block [blk] of its file, as [FileMgr.read] finds it on disk. *)
Definition on_disk (w : World) (blk : Block) : list Z :=
  FileMgr.file_readinto (FileMgr.file_data (fm w) (file_name blk))
    (Z.to_nat (BLOCK_SIZE * number blk)) Page.new.

(** The world with buffer slot [i] replaced by [b]. *)
Definition with_slot (i : nat) (b : BufferSlot) (w : World) : World :=
  set_bm {| bufferpool := <[i := b]> (bufferpool (bm w));
            num_available := num_available (bm w) |} w.

(** A slot after a write of transaction [txnum] under [lsn] that left
    [c] in its page. *)
Definition stamped (b : BufferSlot) (c : list Z) (txnum lsn : Z) : BufferSlot :=
  {| bs_contents := c; bs_blk := bs_blk b; bs_pins := bs_pins b;
     bs_modified_by := txnum;
     bs_log_sequence_number := if lsn >=? 0 then lsn else bs_log_sequence_number b |}.

(** [BufferSlot.set_int] or [BufferSlot.set_string], by the value. *)
Definition slot_write (i : nat) (offset : Z) (x : value) (txnum lsn : Z) : M unit :=
  match x with
  | VInt v => BufferSlot.set_int i offset v txnum lsn
  | VStr s => BufferSlot.set_string i offset s txnum lsn
  end.

Definition page_store (offset : Z) (x : value) : ST (list Z) unit :=
  match x with
  | VInt v => MaxPage.set_int offset v
  | VStr s => MaxPage.set_string offset s
  end.

(** The calls a buffer slot can receive. *)
Inductive slot_call :=
| Call_get_int (offset : Z)
| Call_get_string (offset : Z)
| Call_write (offset : Z) (x : value) (txnum lsn : Z)
| Call_block
| Call_flush
| Call_pin
| Call_unpin
| Call_is_pinned
| Call_is_modified_by (txnum : Z)
| Call_assign_to_block (blk : Block)
| Call_assign_to_new (filename : str) (fmtr : PageFormatter).

Definition slot_do (i : nat) (c : slot_call) : M unit :=
  match c with
  | Call_get_int offset => BufferSlot.get_int i offset ;; ret tt
  | Call_get_string offset => BufferSlot.get_string i offset ;; ret tt
  | Call_write offset x txnum lsn => slot_write i offset x txnum lsn
  | Call_block => BufferSlot.block i ;; ret tt
  | Call_flush => BufferSlot.flush i
  | Call_pin => BufferSlot.pin i
  | Call_unpin => BufferSlot.unpin i
  | Call_is_pinned => BufferSlot.is_pinned i ;; ret tt
  | Call_is_modified_by txnum => BufferSlot.is_modified_by i txnum ;; ret tt
  | Call_assign_to_block blk => BufferSlot.assign_to_block i blk
  | Call_assign_to_new filename fmtr => BufferSlot.assign_to_new i filename fmtr
  end.

(** The LSN a call stamps the slot with, if it stamps one. *)
Definition call_lsn (c : slot_call) : option Z :=
  match c with
  | Call_write _ _ _ lsn => if lsn >=? 0 then Some lsn else None
  | _ => None
  end.

(** The LSN slot [i] carries. *)
Definition slot_lsn (w : World) (i : nat) : option Z :=
  bs_log_sequence_number <$> bufferpool (bm w) !! i.

(** The log is forced up to [lsn]: the records of that LSN are in a
    block the log manager has left, or the current log page is on disk
    as it is in memory. *)
Definition log_forced (w : World) (lsn : Z) : Prop :=
  lsn < number (lm_currentblk (logm w)) \/
  on_disk w (lm_currentblk (logm w)) = lm_mypage (logm w).

(** What [BufferSlot.flush] of the dirty slot [b] writes, in order. *)
Definition flush_events (w : World) (b : BufferSlot) : list event :=
  (if bs_log_sequence_number b >=? number (lm_currentblk (logm w))
   then [EvWrite (lm_currentblk (logm w)) (lm_mypage (logm w))]
   else [])
  ++ match bs_blk b with
     | Some blk => [EvWrite blk (bs_contents b)]
     | None => []
     end.

(** A property of the world that only looks at the buffer pool. *)
Definition bm_only (I : World -> Prop) : Prop :=
  forall w w', bm w' = bm w -> I w -> I w'.

(** The server after a transaction has pinned block 0 of T and written
    7 at offset 80: slot 0 of the pool is dirty. *)
Definition dirty_run : M unit :=
  SimpleDB.init_file_log_and_buffer_mgr ;;
  t <- Transaction.init ;;
  Transaction.pin t blk_T0 ;;
  Transaction.set_int t blk_T0 80 7.

Definition dirty_world : World := run dirty_run (SimpleDB.boot None).

Definition dirty_slot : BufferSlot :=
  default BufferSlot.new (bufferpool (bm dirty_world) !! 0%nat).

Definition is_write (e : event) : Prop :=
  match e with EvWrite _ _ => True | _ => False end.

(** A property of the world that survives what the file manager and
    the log manager do to it: a change of the files, a change of the
    log manager, the emission of a disk write. *)
Definition write_stable (I : World -> Prop) : Prop :=
  (forall w f, I w -> I (set_fm f w)) /\
  (forall w l, I w -> I (set_logm l w)) /\
  (forall w blk bb, I w -> I (emit (EvWrite blk bb) w)).

(** From [w0] to [w] nothing but disk writes was emitted, and neither
    the buffer pool nor the transactions changed. *)
Definition only_writes (w0 w : World) : Prop :=
  bm w = bm w0 /\ txs w = txs w0 /\ next_tx_num w = next_tx_num w0 /\
  exists evs, trace w = trace w0 ++ evs /\ Forall is_write evs.

(** [RecoveryMgr.set_int] or [RecoveryMgr.set_string], by the new
    value. *)
Definition recovery_write (txnum : Z) (buff : nat) (offset : Z) (x : value) : M Z :=
  match x with
  | VInt v => RecoveryMgr.set_int txnum buff offset v
  | VStr s => RecoveryMgr.set_string txnum buff offset s
  end.

(** The value of the type of [x] that a page holds at [offset]. *)
Definition page_load (x : value) (offset : Z) : ST (list Z) value :=
  match x with
  | VInt _ => v <- MaxPage.get_int offset ;; ret (VInt v)
  | VStr _ => s <- MaxPage.get_string offset ;; ret (VStr s)
  end.

(** The update record that saves [old]. *)
Definition undo_record (txnum : Z) (blk : Block) (offset : Z) (old : value) : LogRecord :=
  match old with
  | VInt v => SetIntRecord txnum blk offset v
  | VStr s => SetStringRecord txnum blk offset s
  end.



(** The transaction object of [dirty_world]. *)
Definition dirty_tx : Transaction :=
  default {| tx_txnum := 0; tx_concur_mgr := PageLockMgr.new; tx_my_buffers := BufferList.new |}
    (txs dirty_world !! 1).

(** ** The layout of a log page *)

(** The bytes a value is stored as. *)
Definition bytes_of (v : value) : res (list Z) :=
  match v with
  | VInt n => struct_pack Fmt_i n
  | VStr s =>
      res_bind (utf_32_be_encode s) (fun payload =>
      res_bind (struct_pack Fmt_I (Z.of_nat (length payload))) (fun prefix =>
      Ok (prefix ++ payload)))
  end.

Definition bytes_at (pg : list Z) (pos : Z) (n : nat) : list Z :=
  take n (drop (Z.to_nat pos) pg).

(** Page [pg] holds the bytes of [v] at [pos]. *)
Definition stored (pg : list Z) (pos : Z) (v : value) : Prop :=
  exists bs,
    bytes_of v = Ok bs /\ Z.of_nat (length bs) = LogMgr.__size v /\
    0 <= pos /\ pos + Z.of_nat (length bs) <= Z.of_nat (length pg) /\
    bytes_at pg pos (length bs) = bs.

(** Page [pg] holds the values [vals] one after the other from [pos]. *)
Fixpoint stored_all (pg : list Z) (pos : Z) (vals : list value) : Prop :=
  match vals with
  | [] => True
  | v :: vals' => stored pg pos v /\ stored_all pg (pos + LogMgr.__size v) vals'
  end.

(** The values are written one after the other from [pos]. *)
Fixpoint store_all (pos : Z) (vals : list value) : ST (list Z) unit :=
  match vals with
  | [] => ret tt
  | v :: vals' => page_store pos v ;; store_all (pos + LogMgr.__size v) vals'
  end.

(** Reading [vals] in turn from a basic log record with [next_int] and
    [next_string] returns them. *)
Fixpoint reads (vals : list value) (r : BasicLogRecord) : Prop :=
  match vals with
  | [] => True
  | VInt n :: vals' =>
      exists r', BasicLogRecord.next_int r = (r', Ok n) /\ reads vals' r'
  | VStr s :: vals' =>
      exists r', BasicLogRecord.next_string r = (r', Ok s) /\ reads vals' r'
  end.

(** The world with the page and the position of the log manager
    replaced. *)
Definition log_page_state (w : World) (pg : list Z) (pos : Z) : World :=
  set_logm {| lm_mypage := pg; lm_logfile := lm_logfile (logm w);
              lm_currentblk := lm_currentblk (logm w); lm_currentpos := pos |} w.

(** The log manager between two appends: its page is a block long, its
    block exists, and the tail pointer at offset 0 of the page is four
    bytes below the current position. *)
Definition log_wf (w : World) : Prop :=
  length (lm_mypage (logm w)) = Z.to_nat BLOCK_SIZE /\
  0 <= number (lm_currentblk (logm w)) /\
  4 <= lm_currentpos (logm w) /\
  unpack_from Fmt_i (lm_mypage (logm w)) LAST_POS = Ok (lm_currentpos (logm w) - 4).

(** The newest record of the log, as the recovery manager reads it. *)
Definition newest_record : M (option LogRecord) :=
  iterator <- LogRecordIterator.init ;;
  p <- LogRecordIterator.next iterator ;;
  ret (snd p).

(** The newest basic log record. *)
Definition newest_basic_record : M BasicLogRecord :=
  iterator <- LogMgr.iterator ;;
  p <- LogIterator.next iterator ;;
  ret (snd p).

(** The size of the values of a record, without its trailer. *)
Definition sizes (vals : list value) : Z :=
  fold_right (fun v acc => LogMgr.__size v + acc) 0 vals.

(** A value that [struct] and the codec accept: an integer of four
    signed bytes, a string of Unicode scalar values. *)
Definition value_ok (v : value) : Prop :=
  match v with
  | VInt n => fmt_min Fmt_i <= n <= fmt_max Fmt_i
  | VStr s => Forall (fun c => is_scalar c = true) s
  end.

(** A leaf block filled to its 32 records of key 5, the last of them by
    [BTreeLeaf.insert], followed by [extra] more insertions.  Returns
    what [leaf_insert_run] returns. *)
Definition leaf_full_run (extra : nat) : M (option DirEntry * Z * Z * Z * bool) :=
  SimpleDB.init_file_log_and_buffer_mgr ;;
  t <- Transaction.init ;;
  blk0 <- Transaction.append t (TableInfo.file_name leaf_ti)
            (BTPageFormatter.format leaf_ti (-1)) ;;
  page <- BTreePage.init blk0 leaf_ti t ;;
  for_each (replicate 31 tt)
    (fun _ => BTreePage.insert_leaf 100 page 0 (IntConstant 5)
                {| rid_blknum := 3; rid_id := 4 |}) ;;
  leaf <- BTreeLeaf.init 100 blk0 leaf_ti (IntConstant 5) t ;;
  p <- BTreeLeaf.insert 100 leaf {| rid_blknum := 3; rid_id := 4 |} ;;
  for_each (replicate extra tt)
    (fun _ => BTreeLeaf.insert 100 (fst p) {| rid_blknum := 3; rid_id := 4 |} ;; ret tt) ;;
  n <- BTreePage.get_num_recs (lf_contents (fst p)) ;;
  flag <- BTreePage.get_flag (lf_contents (fst p)) ;;
  full <- BTreePage.is_full (lf_contents (fst p)) ;;
  size <- Transaction.size t (TableInfo.file_name leaf_ti) ;;
  ret (snd p, n, flag, size, full).

(** ** Vocabulary of the further properties *)

(** Byte [j] of a file after [bb] was written at [pos]: the bytes of
    [bb], around them the bytes the file had, a gap past its end read
    as zeros. *)
Definition file_write_at (d bb : list Z) (pos j : nat) : option Z :=
  if decide (j < pos)%nat then Some (default 0 (d !! j))
  else if decide (j < pos + length bb)%nat then bb !! (j - pos)%nat
  else d !! j.

(** What a lock table holds for a lock of a lock manager: one shared
    lock, or the exclusive lock. *)
Definition table_val (ty : lock_type) : Z :=
  match ty with S_lock => 1 | X_lock => -1 end.

(** The lock table of a lock manager holds the locks of the manager and
    nothing else, and the manager lists a block once. *)
Definition own_table (m : PageLockMgr) : Prop :=
  (forall blk, lt_locks (plm_locktbl m) !! blk = table_val <$> assoc_get (plm_locks m) blk) /\
  NoDup (map fst (plm_locks m)).



(** * Theorems *)

(** ** Bytes, [struct] and the codec *)
Lemma length_le_bytes n v : length (le_bytes n v) = n.
Proof. revert v; induction n as [|n IH]; intros v; simpl; [reflexivity|]. by rewrite IH. Qed.

Lemma le_value_le_bytes n v : le_value (le_bytes n v) = v mod 2 ^ (8 * Z.of_nat n).
Proof.
  revert v; induction n as [|n IH]; intros v.
  - simpl. by rewrite Z.mod_1_r.
  - cbn [le_bytes le_value]. rewrite IH.
    replace (8 * Z.of_nat (S n)) with (8 + 8 * Z.of_nat n) by lia.
    rewrite Z.pow_add_r by lia.
    change (2 ^ 8) with 256.
    rewrite Z.rem_mul_r; [reflexivity | lia | ].
    apply Z.pow_pos_nonneg; lia.
Qed.

Lemma fmt_modulus_pos f : 0 < fmt_modulus f.
Proof. destruct f; reflexivity. Qed.

Lemma struct_unpack_pack f v bs :
  struct_pack f v = Ok bs -> struct_unpack f bs = v /\ length bs = fmt_size f.
Proof.
  unfold struct_pack, struct_unpack.
  destruct ((fmt_min f <=? v) && (v <=? fmt_max f)) eqn:E; [|discriminate].
  intros [= <-]. rewrite length_le_bytes. split; [|reflexivity].
  rewrite le_value_le_bytes. fold (fmt_modulus f).
  apply andb_prop in E as [E1 E2]. apply Z.leb_le in E1, E2.
  unfold fmt_min, fmt_max in *.
  pose proof (fmt_modulus_pos f) as Hpos.
  assert (Heven : fmt_modulus f = 2 * (fmt_modulus f / 2)) by (destruct f; reflexivity).
  destruct (fmt_signed f); simpl.
  - destruct (Z_lt_le_dec v 0) as [Hneg|Hnn].
    + assert (Hm : v mod fmt_modulus f = v + fmt_modulus f).
      { symmetry. apply Z.mod_unique with (q := -1); lia. }
      rewrite Hm. destruct (Z.leb_spec (fmt_modulus f / 2) (v + fmt_modulus f)); lia.
    + rewrite Z.mod_small by lia.
      destruct (Z.leb_spec (fmt_modulus f / 2) v); lia.
  - rewrite Z.mod_small by lia. reflexivity.
Qed.

Lemma struct_offset_bounds len size offset off :
  0 <= size -> 0 <= len ->
  struct_offset len size offset = Ok off -> 0 <= off /\ off + size <= len.
Proof.
  unfold struct_offset. intros Hs Hl.
  destruct (Z.ltb_spec offset 0).
  - destruct (Z.ltb_spec 0 (offset + size)); simpl; [discriminate|].
    destruct (Z.ltb_spec (offset + len) 0); simpl; [discriminate|].
    intros [= <-]. lia.
  - destruct (Z.ltb_spec (len - offset) size); [discriminate|].
    intros [= <-]. lia.
Qed.

Lemma struct_offset_fits len size offset :
  0 <= offset -> offset + size <= len -> struct_offset len size offset = Ok offset.
Proof.
  intros H1 H2. unfold struct_offset.
  destruct (Z.ltb_spec offset 0); [lia|].
  destruct (Z.ltb_spec (len - offset) size); [lia|reflexivity].
Qed.

Lemma splice_length (buf bs : list Z) (off : nat) :
  (off + length bs <= length buf)%nat ->
  length (take off buf ++ bs ++ drop (off + length bs) buf) = length buf.
Proof.
  intros H. rewrite !length_app, length_take, length_drop. lia.
Qed.

Lemma splice_read (buf bs : list Z) (off : nat) :
  (off + length bs <= length buf)%nat ->
  take (length bs) (drop off (take off buf ++ bs ++ drop (off + length bs) buf)) = bs.
Proof.
  intros H.
  rewrite drop_app_length' by (rewrite length_take; lia).
  apply take_app_length.
Qed.

Lemma pack_into_inv f buf offset v buf' :
  pack_into f buf offset v = Ok buf' ->
  exists bs off,
    struct_pack f v = Ok bs /\
    struct_offset (Z.of_nat (length buf)) (Z.of_nat (fmt_size f)) offset = Ok off /\
    buf' = take (Z.to_nat off) buf ++ bs ++ drop (Z.to_nat (off + Z.of_nat (fmt_size f))) buf.
Proof.
  unfold pack_into.
  destruct (struct_pack f v) as [bs|] eqn:Hp; [|discriminate]. simpl.
  destruct (struct_offset _ _ offset) as [off|] eqn:Ho; [|discriminate]. simpl.
  intros [= <-]. eauto.
Qed.

Lemma pack_into_length f buf offset v buf' :
  pack_into f buf offset v = Ok buf' -> length buf' = length buf.
Proof.
  intros (bs & off & Hp & Ho & ->)%pack_into_inv.
  apply struct_unpack_pack in Hp as [_ Hlen].
  apply struct_offset_bounds in Ho as [H0 H1]; [|lia..].
  replace (Z.to_nat (off + Z.of_nat (fmt_size f))) with (Z.to_nat off + length bs)%nat by lia.
  apply splice_length. lia.
Qed.

Lemma unpack_from_pack_into f buf offset v buf' :
  pack_into f buf offset v = Ok buf' -> unpack_from f buf' offset = Ok v.
Proof.
  intros H. pose proof (pack_into_length _ _ _ _ _ H) as Hlen.
  apply pack_into_inv in H as (bs & off & Hp & Ho & ->).
  unfold unpack_from. rewrite Hlen, Ho. simpl.
  apply struct_unpack_pack in Hp as [Hv Hbs].
  apply struct_offset_bounds in Ho as [H0 H1]; [|lia..].
  replace (Z.to_nat (off + Z.of_nat (fmt_size f))) with (Z.to_nat off + length bs)%nat by lia.
  rewrite <- Hbs, splice_read by lia. by rewrite Hv.
Qed.

Lemma pack_into_total f buf offset v :
  fmt_min f <= v <= fmt_max f ->
  0 <= offset -> offset + Z.of_nat (fmt_size f) <= Z.of_nat (length buf) ->
  exists buf', pack_into f buf offset v = Ok buf'.
Proof.
  intros Hv H0 H1. unfold pack_into, struct_pack.
  destruct (Z.leb_spec (fmt_min f) v); [|lia].
  destruct (Z.leb_spec v (fmt_max f)); [|lia]. simpl.
  rewrite struct_offset_fits by lia. simpl. eauto.
Qed.

Lemma is_scalar_range c : is_scalar c = true -> 0 <= c < 2 ^ 32.
Proof.
  unfold is_scalar, is_code_point. intros [H _]%andb_prop.
  apply andb_prop in H as [H1 H2]. apply Z.leb_le in H1. apply Z.ltb_lt in H2. lia.
Qed.

Lemma utf_32_be_decode_encode s bs :
  utf_32_be_encode s = Ok bs ->
  utf_32_be_decode bs = Ok s /\ length bs = (4 * length s)%nat.
Proof.
  revert bs; induction s as [|c s IH]; intros bs; simpl.
  - intros [= <-]. done.
  - destruct (is_scalar c) eqn:Hc; [|discriminate].
    destruct (utf_32_be_encode s) as [bs'|] eqn:He; [|discriminate]. simpl.
    intros [= <-]. destruct (IH _ eq_refl) as [IH1 IH2].
    unfold be_bytes4. cbn [le_bytes rev app utf_32_be_decode].
    match goal with |- context [le_value ?l] =>
      change l with (le_bytes 4 c) end.
    rewrite le_value_le_bytes.
    rewrite Z.mod_small by (apply is_scalar_range in Hc; simpl; lia).
    rewrite Hc, IH1. simpl. split; [reflexivity | lia].
Qed.

Lemma slice_index_in len i : 0 <= i <= len -> slice_index len i = i.
Proof. intros H. unfold slice_index. destruct (Z.ltb_spec i 0); lia. Qed.

Lemma setslice_in (l v : list Z) start stop :
  0 <= start <= stop -> stop <= Z.of_nat (length l) ->
  setslice l start stop v = take (Z.to_nat start) l ++ v ++ drop (Z.to_nat stop) l.
Proof.
  intros H1 H2. unfold setslice. rewrite !slice_index_in by lia.
  by rewrite Z.max_r by lia.
Qed.

Lemma getslice_in (l : list Z) start stop :
  0 <= start <= stop -> stop <= Z.of_nat (length l) ->
  getslice l start stop = take (Z.to_nat (stop - start)) (drop (Z.to_nat start) l).
Proof.
  intros H1 H2. unfold getslice. by rewrite !slice_index_in by lia.
Qed.

Lemma utf_32_be_encode_total s :
  Forall (fun c => is_scalar c = true) s -> exists bs, utf_32_be_encode s = Ok bs.
Proof.
  induction 1 as [|c s Hc _ [bs IH]]; simpl; [eauto|].
  rewrite Hc, IH. simpl. eauto.
Qed.

Lemma set_string_fits offset s contents :
  Forall (fun c => is_scalar c = true) s ->
  0 <= offset ->
  offset + MaxPage.str_size (Z.of_nat (length s)) <= Z.of_nat (length contents) ->
  Z.of_nat (length contents) <= BLOCK_SIZE ->
  exists bs,
    utf_32_be_encode s = Ok bs /\
    MaxPage.set_string offset s contents =
      (take (Z.to_nat offset) contents ++ (le_bytes 4 (Z.of_nat (length bs)) ++ bs)
         ++ drop (Z.to_nat (offset + 4 + Z.of_nat (length bs))) contents, Ok tt).
Proof.
  intros Hs H0 H1 H2.
  destruct (utf_32_be_encode_total s Hs) as [bs He].
  destruct (utf_32_be_decode_encode _ _ He) as [_ Hlen].
  unfold MaxPage.str_size, MaxPage.INT_SIZE, MaxPage.MAX_BYTES_PER_CHAR,
    Page.INT_SIZE, Page.MAX_BYTES_PER_CHAR, BLOCK_SIZE in *.
  exists bs. split; [done|].
  unfold MaxPage.set_string, bind, lift, modify. rewrite He.
  unfold struct_pack.
  assert (Hr : (fmt_min Fmt_I <=? Z.of_nat (length bs)) && (Z.of_nat (length bs) <=? fmt_max Fmt_I) = true).
  { apply andb_true_intro. split; [apply Z.leb_le | apply Z.leb_le].
    - change (fmt_min Fmt_I) with 0. lia.
    - change (fmt_max Fmt_I) with 4294967295. lia. }
  rewrite Hr. simpl fmt_size.
  unfold MaxPage.INT_SIZE, Page.INT_SIZE.
  rewrite setslice_in by lia. reflexivity.
Qed.

Lemma get_string_set_string offset s contents :
  Forall (fun c => is_scalar c = true) s ->
  0 <= offset ->
  offset + MaxPage.str_size (Z.of_nat (length s)) <= Z.of_nat (length contents) ->
  Z.of_nat (length contents) <= BLOCK_SIZE ->
  exists c' bs,
    MaxPage.set_string offset s contents = (c', Ok tt) /\
    MaxPage.get_string offset c' = (c', Ok s) /\
    length c' = length contents /\
    utf_32_be_encode s = Ok bs /\
    getslice c' offset (offset + 4) = le_bytes 4 (Z.of_nat (length bs)) /\
    getslice c' (offset + 4) (offset + 4 + Z.of_nat (length bs)) = bs.
Proof.
  intros Hs H0 H1 H2.
  destruct (set_string_fits offset s contents Hs H0 H1 H2) as (bs & He & Hset).
  destruct (utf_32_be_decode_encode _ _ He) as [Hdec Hlen].
  unfold MaxPage.str_size, MaxPage.INT_SIZE, MaxPage.MAX_BYTES_PER_CHAR,
    Page.INT_SIZE, Page.MAX_BYTES_PER_CHAR, BLOCK_SIZE in *.
  set (size := Z.of_nat (length bs)) in *.
  set (c' := take (Z.to_nat offset) contents ++ (le_bytes 4 size ++ bs)
         ++ drop (Z.to_nat (offset + 4 + size)) contents) in *.
  assert (Hc' : length c' = length contents).
  { subst c'. replace (Z.to_nat (offset + 4 + size))
      with (Z.to_nat offset + length (le_bytes 4 size ++ bs))%nat
      by (rewrite length_app, length_le_bytes; lia).
    apply splice_length. rewrite length_app, length_le_bytes. lia. }
  assert (Hdrop : drop (Z.to_nat offset) c' =
                  le_bytes 4 size ++ bs ++ drop (Z.to_nat (offset + 4 + size)) contents).
  { subst c'. rewrite drop_app_length' by (rewrite length_take; lia).
    by rewrite <- app_assoc. }
  assert (Hpre : getslice c' offset (offset + 4) = le_bytes 4 size).
  { rewrite getslice_in by lia. rewrite Hdrop.
    replace (Z.to_nat (offset + 4 - offset)) with 4%nat by lia.
    apply take_app_length'. by rewrite length_le_bytes. }
  assert (Hpay : getslice c' (offset + 4) (offset + 4 + size) = bs).
  { rewrite getslice_in by lia.
    replace (Z.to_nat (offset + 4)) with (Z.to_nat offset + 4)%nat by lia.
    rewrite <- drop_drop, Hdrop.
    rewrite drop_app_length' by (by rewrite length_le_bytes).
    apply take_app_length'. lia. }
  exists c', bs. repeat split; try done.
  unfold MaxPage.get_string, MaxPage.get_int, Page.get_int, Page.get_, bind.
  unfold unpack_from. rewrite Hc'.
  rewrite struct_offset_fits by (simpl; lia). simpl res_bind.
  change (fmt_size Fmt_i) with 4%nat.
  rewrite Hdrop, take_app_length' by (by rewrite length_le_bytes).
  unfold struct_unpack. rewrite le_value_le_bytes.
  change (fmt_signed Fmt_i) with true. change (fmt_modulus Fmt_i) with 4294967296.
  change (2 ^ (8 * Z.of_nat 4)) with 4294967296.
  rewrite Z.mod_small by lia.
  destruct (Z.leb_spec (4294967296 / 2) size) as [Hbig|_].
  { change (4294967296 / 2) with 2147483648 in Hbig. lia. }
  cbn [andb].
  destruct (Z.leb_spec size 0) as [Hz|Hpos]; cbn [orb].
  - assert (s = []) as -> by (destruct s; [done | simpl in Hlen; lia]).
    reflexivity.
  - destruct (Z.ltb_spec 400 size); [lia|].
    unfold get, lift. unfold MaxPage.INT_SIZE, Page.INT_SIZE.
    by rewrite Hpay, Hdec.
Qed.

(** An integer of 2, 4 or 8 bytes, or a string, written at an offset
    at which it fits within the page is read back unchanged at that
    offset; a string is stored as a 4-byte prefix holding the number of
    bytes of its UTF-32 big-endian encoding, followed by that
    encoding. *)
Lemma Page_write_read_roundtrip (contents : list Z) (offset : Z) (x : typed) :
  Z.of_nat (length contents) = BLOCK_SIZE ->
  typed_ok x ->
  0 <= offset ->
  offset + typed_size x <= BLOCK_SIZE ->
  exists c',
    page_write x offset contents = (c', Ok tt) /\
    page_read x offset c' = (c', Ok x) /\
    length c' = length contents /\
    stored_form x offset c'.
Proof.
  intros Hlen Hok H0 H1. destruct x as [f v|s]; simpl in *.
  - destruct (pack_into_total f contents offset v Hok H0) as [c' Hp]; [lia|].
    pose proof (pack_into_length _ _ _ _ _ Hp) as Hl.
    exists c'. unfold Page.set, Page.get_, bind, ret.
    rewrite Hp, (unpack_from_pack_into _ _ _ _ _ Hp).
    repeat split; try done.
    apply pack_into_inv in Hp as (bs & off & Hbs & Ho & ->).
    rewrite struct_offset_fits in Ho by lia. injection Ho as <-.
    unfold struct_pack in Hbs.
    destruct ((fmt_min f <=? v) && (v <=? fmt_max f)); [|discriminate].
    injection Hbs as <-.
    rewrite getslice_in by (rewrite ?Hl; lia).
    rewrite drop_app_length' by (rewrite length_take; lia).
    replace (Z.to_nat (offset + Z.of_nat (fmt_size f) - offset)) with (fmt_size f) by lia.
    apply take_app_length'. by rewrite length_le_bytes.
  - destruct (get_string_set_string offset s contents Hok H0) as
      (c' & bs & Hset & Hget & Hl & He & Hpre & Hpay); [lia..|].
    exists c'. unfold bind, ret. rewrite Hset, Hget. eauto 10.
Qed.

Example Page_write_read_roundtrip_joe :
  exists c',
    page_write (TStr (py "joe")) 4 Page.new = (c', Ok tt) /\
    page_read (TStr (py "joe")) 4 c' = (c', Ok (TStr (py "joe"))) /\
    length c' = length Page.new /\
    stored_form (TStr (py "joe")) 4 c'.
Proof.
  apply (Page_write_read_roundtrip Page.new 4 (TStr (py "joe"))).
  - reflexivity.
  - simpl. repeat constructor.
  - lia.
  - vm_compute. discriminate.
Qed.

(** C9: a 1-byte integer is not written to a page: [set_tinyint] raises
    on every value at every offset and leaves the page as it was, so
    there is nothing to read back; and [get_tinyint] does not read the
    byte 1 as 1.  The integers of 2, 4 and 8 bytes and the strings are
    read back as written, as the lemma above says. *)
Theorem C9_tinyint_is_not_written :
  (forall (contents : list Z) (offset val : Z),
     exists e, Page.set_tinyint offset val contents = (contents, Raise e)) /\
  Page.set_tinyint 0 1 Page.new = (Page.new, Raise StructError) /\
  Page.get_tinyint 0 (1 :: replicate 399 0) = (1 :: replicate 399 0, Raise ValueError) /\
  Page.get_tinyint 0 (49 :: replicate 399 0) = (49 :: replicate 399 0, Ok 1).
Proof.
  split; [|by vm_compute].
  intros contents offset val. unfold Page.set_tinyint, raise.
  destruct (_ && _); eauto.
Qed.

(** ** Evaluations *)

Lemma leaf_ti_is_TableInfo :
  TableInfo.init (py "idxleaf") leaf_schema = Ok leaf_ti.
Proof. reflexivity. Qed.

(** Within one lock table, a shared lock is refused while the block is
    exclusively locked. *)
Lemma PageLockTable_slock_conflict (tbl : PageLockTable) (blk : Block) (v : Z) :
  lt_locks tbl !! blk = Some v -> v < 0 ->
  PageLockTable.slock blk tbl = (tbl, Raise LockAbortException).
Proof.
  intros Hv Hneg.
  unfold PageLockTable.slock, except_raise, bind, PageLockTable.__has_xlock,
    PageLockTable.__get_lock_val, bind, get, ret.
  rewrite Hv. simpl. destruct (Z.ltb_spec v 0); [reflexivity | lia].
Qed.

(** C1: in scenario S5 the second transaction is granted its shared
    lock at once and reads the uncommitted 7, while the first holds its
    exclusive lock: each lock manager has a lock table of its own. *)
Theorem C1_slock_granted_despite_xlock :
  result scenario_S5 (SimpleDB.boot None) = Ok 7 /\
  lock_val (run scenario_S5 (SimpleDB.boot None)) 1 blk_T0 = Some (-1) /\
  lock_val (run scenario_S5 (SimpleDB.boot None)) 2 blk_T0 = Some 1.
Proof. vm_compute. auto. Qed.

(** C2: after the restart and [recover()], the integer written by the
    unfinished transaction 2 is still on disk; the old value 0 is only
    in a buffer stamped with transaction 2, which [flush_all] of the
    recovering transaction 1 passes over. *)
Theorem C2_recover_leaves_setint_on_disk :
  result (crash_run write_int) (SimpleDB.boot None) = Ok tt /\
  disk_int (crashed write_int) blk_T0 80 = Ok 7 /\
  result recover_run (SimpleDB.restart (crashed write_int)) = Ok tt /\
  disk_int (recovered write_int) blk_T0 80 = Ok 7 /\
  map (fun b => (bs_blk b, bs_modified_by b, snd (Page.get_int 80 (bs_contents b))))
      (take 1 (bufferpool (bm (recovered write_int)))) = [(Some blk_T0, 2, Ok 0)].
Proof. vm_compute. auto 10. Qed.

(** The sibling path: a string written by the unfinished transaction
    is undone on disk by the same recovery. *)
Lemma recover_undoes_setstring_on_disk :
  result (crash_run write_string) (SimpleDB.boot None) = Ok tt /\
  disk_string (crashed write_string) blk_T0 120 = Ok (py "zoe") /\
  result recover_run (SimpleDB.restart (crashed write_string)) = Ok tt /\
  disk_string (recovered write_string) blk_T0 120 = Ok [].
Proof. vm_compute. auto 10. Qed.

(** C6: on an index whose leaf is open, [get_data_rid] never returns a
    dataRID: whatever the recursion limit, it ends in RecursionError.
    The constructor of the index never returns an index either: it
    raises before any file of the index is looked at. *)
Theorem C6_get_data_rid_recursion (depth fuel : nat) (tx : Z) (leaf : BTreeLeaf)
    (leaf_ti dir_ti : TableInfo) (rootblk : Block) (idxname : str) (leafsch : Schema)
    (w : World) :
  BTreeIndex.get_data_rid depth
    {| bi_tx := tx; bi_leaf := Some leaf; bi_leaf_ti := leaf_ti;
       bi_dir_ti := dir_ti; bi_rootblk := rootblk |} w
  = (w, Raise RecursionError) /\
  exists e, BTreeIndex.init fuel idxname leafsch tx w = (w, Raise e).
Proof.
  split.
  - induction depth as [|depth IH]; [reflexivity | exact IH].
  - unfold BTreeIndex.init, bind, lift.
    destruct (TableInfo.init _ leafsch); unfold Transaction.size_of_False, raise; eauto.
Qed.

(** With the leaf records of an index on an integer field, the
    constructor stops on [TypeError]. *)
Example BTreeIndex_init_leaf_schema :
  result (SimpleDB.init_file_log_and_buffer_mgr ;;
          t <- Transaction.init ;;
          BTreeIndex.init 100 (py "idx") leaf_schema t) (SimpleDB.boot None)
  = Raise TypeError.
Proof. vm_compute. reflexivity. Qed.

(** C7: inserting into an empty leaf block leaves it with one record,
    room for thirty-one more, yet [is_full] answers true and [insert]
    splits: an overflow block is appended and the flag of the leaf is
    set to its number.  The insertion that fills a block of equal keys
    to its 32 records finds [is_full] false and makes no overflow
    block: the flag stays -1 and the file one block long; the insertion
    after it fails on a write past the end of the page. *)
Theorem C7_insert_splits_block_that_is_not_full :
  result leaf_insert_run (SimpleDB.boot None) = Ok (None, 1, 1, 2, true) /\
  result (leaf_full_run 0) (SimpleDB.boot None) = Ok (None, 32, -1, 1, false) /\
  result (leaf_full_run 1) (SimpleDB.boot None) = Raise StructError.
Proof. vm_compute. auto. Qed.

(** C8: with 8 bytes left in the current log page, a record of exactly
    8 bytes is not written there: the page is flushed and the record
    goes to a new block; a record of 4 bytes stays. *)
Theorem C8_exact_fit_starts_new_block :
  result log_fill (SimpleDB.boot None) = Ok tt /\
  lm_currentpos (logm log_filled) = 392 /\
  number (lm_currentblk (logm log_filled)) = 0 /\
  LogMgr.recsize [VInt 9] = MaxPage.BLOCK_SIZE - lm_currentpos (logm log_filled) /\
  result (LogMgr.append [VInt 9]) log_filled = Ok 1 /\
  result (LogMgr.append [VInt 9] ;; FileMgr.size SimpleDB.LOG_FILE) log_filled = Ok 2 /\
  result (LogMgr.append []) log_filled = Ok 0.
Proof. vm_compute. auto 10. Qed.


(** ** The monad *)
Lemma bind_ok {S A B} (m : ST S A) (k : A -> ST S B) s s1 a :
  m s = (s1, Ok a) -> bind m k s = k a s1.
Proof. intros H. unfold bind. by rewrite H. Qed.

Lemma bind_raise {S A B} (m : ST S A) (k : A -> ST S B) s s1 e :
  m s = (s1, Raise e) -> bind m k s = (s1, Raise e).
Proof. intros H. unfold bind. by rewrite H. Qed.

Lemma bind_ok_inv {S A B} (m : ST S A) (k : A -> ST S B) s s' b :
  bind m k s = (s', Ok b) ->
  exists a s1, m s = (s1, Ok a) /\ k a s1 = (s', Ok b).
Proof.
  unfold bind. destruct (m s) as [s1 [a|e]]; [eauto | discriminate].
Qed.

Lemma preserves_ret {S A} (I : S -> Prop) (a : A) : preserves I (ret a).
Proof. intros s H. exact H. Qed.

Lemma preserves_raise {S A} (I : S -> Prop) e : preserves I (@raise S A e).
Proof. intros s H. exact H. Qed.

Lemma preserves_get {S} (I : S -> Prop) : preserves I get.
Proof. intros s H. exact H. Qed.

Lemma preserves_lift {S A} (I : S -> Prop) (r : res A) : preserves I (lift r).
Proof. intros s H. exact H. Qed.

Lemma preserves_assert {S} (I : S -> Prop) b : preserves I (assert b).
Proof. intros s H. unfold assert. by destruct b. Qed.

Lemma preserves_modify {S} (I : S -> Prop) (f : S -> S) :
  (forall s, I s -> I (f s)) -> preserves I (modify f).
Proof. intros Hf s H. by apply Hf. Qed.

Lemma preserves_put {S} (I : S -> Prop) (s' : S) : I s' -> preserves I (put s').
Proof. intros H s _. exact H. Qed.

Lemma preserves_bind {S A B} (I : S -> Prop) (m : ST S A) (k : A -> ST S B) :
  preserves I m -> (forall a, preserves I (k a)) -> preserves I (bind m k).
Proof.
  intros Hm Hk s H. unfold bind. specialize (Hm s H).
  destruct (m s) as [s1 [a|e]]; simpl in *; [by apply Hk | done].
Qed.

Lemma preserves_except_raise {S A} (I : S -> Prop) (m : ST S A) e :
  preserves I m -> preserves I (except_raise m e).
Proof.
  intros Hm s H. unfold except_raise. specialize (Hm s H).
  by destruct (m s) as [s1 [a|e']].
Qed.

Lemma preserves_for_each {S A} (I : S -> Prop) (l : list A) (body : A -> ST S unit) :
  (forall x, preserves I (body x)) -> preserves I (for_each l body).
Proof.
  intros Hb. induction l as [|x l IH]; simpl.
  - apply preserves_ret.
  - apply preserves_bind; [apply Hb | intros _; exact IH].
Qed.

Lemma preserves_while {S L} (I : S -> Prop) fuel (cond : L -> ST S bool)
    (body : L -> ST S L) (l : L) :
  (forall l, preserves I (cond l)) -> (forall l, preserves I (body l)) ->
  preserves I (while fuel cond body l).
Proof.
  intros Hc Hb. revert l. induction fuel as [|fuel IH]; intros l; simpl.
  - apply preserves_raise.
  - apply preserves_bind; [apply Hc|]. intros [].
    + apply preserves_bind; [apply Hb | apply IH].
    + apply preserves_ret.
Qed.

Lemma preserves_zoom {S T A} (I : S -> Prop) (proj : S -> T) (upd : T -> S -> S)
    (m : ST T A) :
  (forall s t, I s -> I (upd t s)) -> preserves I (zoom proj upd m).
Proof.
  intros Hu s H. unfold zoom. destruct (m (proj s)) as [t r]. by apply Hu.
Qed.

(** ** The file manager *)

Lemma FileMgr_write_eq blk bb w :
  0 <= number blk -> FileMgr.write blk bb w = (written blk bb w, Ok tt).
Proof.
  intros Hn. unfold FileMgr.write, FileMgr.get_file, FileMgr.put_file, written,
    FileMgr.file_data, bind, get, put, modify, ret.
  destruct (Z.ltb_spec (number blk) 0) as [|_]; [lia|].
  destruct (fm_files (fm w) !! file_name blk) as [d|] eqn:Hd; simpl.
  - reflexivity.
  - unfold emit, set_fm; simpl. by rewrite insert_insert_eq.
Qed.

Lemma FileMgr_write_neg blk bb w :
  number blk < 0 -> snd (FileMgr.write blk bb w) = Raise TypeError.
Proof.
  intros Hn. unfold FileMgr.write, FileMgr.get_file, bind, get, put, ret.
  destruct (Z.ltb_spec (number blk) 0) as [_|]; [|lia].
  by destruct (fm_files (fm w) !! file_name blk).
Qed.

Lemma file_read_write (d bb : list Z) (pos : nat) :
  length bb = Z.to_nat BLOCK_SIZE ->
  FileMgr.file_readinto (FileMgr.file_write d pos bb) pos Page.new = bb.
Proof.
  intros Hbb. unfold FileMgr.file_readinto, FileMgr.file_write.
  assert (Hnew : length Page.new = Z.to_nat BLOCK_SIZE) by reflexivity.
  rewrite drop_app_length'.
  2:{ rewrite length_take, length_app, length_replicate. lia. }
  rewrite Hnew, <- Hbb, take_app_length, Hbb, <- Hnew, drop_all.
  apply app_nil_r.
Qed.

Lemma on_disk_written blk bb w :
  length bb = Z.to_nat BLOCK_SIZE -> on_disk (written blk bb w) blk = bb.
Proof.
  intros Hbb. unfold on_disk, written, FileMgr.file_data. simpl.
  rewrite lookup_insert_eq. simpl. by apply file_read_write.
Qed.

(** ** The log manager *)

Lemma LogMgr_flush_eq lsn w :
  0 <= number (lm_currentblk (logm w)) ->
  LogMgr.flush lsn w =
    (if lsn >=? number (lm_currentblk (logm w))
     then written (lm_currentblk (logm w)) (lm_mypage (logm w)) w
     else w, Ok tt).
Proof.
  intros Hn. unfold LogMgr.flush, LogMgr.__current_lsn, LogMgr.__flush, MaxPage.write,
    bind, get, ret.
  destruct (lsn >=? number (lm_currentblk (logm w))); [|reflexivity].
  by rewrite FileMgr_write_eq.
Qed.

(** ** Buffer slots *)

Lemma list_alter_insert {A} (f : A -> A) (l : list A) (i : nat) (x : A) :
  l !! i = Some x -> alter f i l = <[i := f x]> l.
Proof.
  intros H. apply list_eq. intros j.
  rewrite list_lookup_alter, list_lookup_insert.
  apply lookup_lt_Some in H as Hlt.
  destruct (decide (i = j)) as [<-|Hne].
  - rewrite H. simpl. by rewrite decide_True.
  - by rewrite decide_False by tauto.
Qed.

Lemma BufferSlot_self_eq i b w :
  bufferpool (bm w) !! i = Some b -> BufferSlot.self i w = (w, Ok b).
Proof. intros H. unfold BufferSlot.self, bind, get, ret. by rewrite H. Qed.

Lemma BufferSlot_update_eq i f b w :
  bufferpool (bm w) !! i = Some b ->
  BufferSlot.update i f w = (with_slot i (f b) w, Ok tt).
Proof.
  intros H. unfold BufferSlot.update, modify, with_slot.
  by rewrite (list_alter_insert _ _ _ _ H).
Qed.

Lemma with_slot_lookup i b w :
  (i < length (bufferpool (bm w)))%nat ->
  bufferpool (bm (with_slot i b w)) !! i = Some b.
Proof. intros H. simpl. by apply list_lookup_insert_eq. Qed.

Lemma with_slot_with_slot i b b' w :
  with_slot i b (with_slot i b' w) = with_slot i b w.
Proof. unfold with_slot, set_bm. simpl. by rewrite list_insert_insert_eq. Qed.

Lemma slot_write_eq i offset x txnum lsn b w :
  bufferpool (bm w) !! i = Some b ->
  slot_write i offset x txnum lsn w =
    (with_slot i (stamped b (fst (page_store offset x (bs_contents b))) txnum lsn) w,
     snd (page_store offset x (bs_contents b))).
Proof.
  intros H. apply lookup_lt_Some in H as Hlt.
  assert (Hgen : forall (store : ST (list Z) unit),
    (BufferSlot.update i (BufferSlot.set_modified_by txnum) ;;
     (if lsn >=? 0 then BufferSlot.update i (BufferSlot.set_log_sequence_number lsn)
      else ret tt) ;;
     BufferSlot.on_contents i store) w =
    (with_slot i (stamped b (fst (store (bs_contents b))) txnum lsn) w,
     snd (store (bs_contents b)))).
  { intros store.
    erewrite bind_ok by (by apply BufferSlot_update_eq).
    set (b1 := BufferSlot.set_modified_by txnum b).
    assert (H1 : bufferpool (bm (with_slot i b1 w)) !! i = Some b1)
      by (by apply with_slot_lookup).
    destruct (lsn >=? 0) eqn:Hl.
    - erewrite bind_ok by (by apply BufferSlot_update_eq).
      rewrite with_slot_with_slot.
      set (b2 := BufferSlot.set_log_sequence_number lsn b1).
      assert (H2 : bufferpool (bm (with_slot i b2 w)) !! i = Some b2)
        by (by apply with_slot_lookup).
      unfold BufferSlot.on_contents.
      erewrite bind_ok by (by apply BufferSlot_self_eq).
      change (bs_contents b2) with (bs_contents b).
      destruct (store (bs_contents b)) as [c r].
      erewrite bind_ok by (by apply BufferSlot_update_eq).
      rewrite with_slot_with_slot. unfold lift, stamped. simpl. by rewrite Hl.
    - erewrite bind_ok by reflexivity.
      unfold BufferSlot.on_contents.
      erewrite bind_ok by (by apply BufferSlot_self_eq).
      change (bs_contents b1) with (bs_contents b).
      destruct (store (bs_contents b)) as [c r].
      erewrite bind_ok by (by apply BufferSlot_update_eq).
      rewrite with_slot_with_slot. unfold lift, stamped. simpl. by rewrite Hl. }
  destruct x as [v|s]; apply Hgen.
Qed.

Lemma BufferSlot_flush_clean i b w :
  bufferpool (bm w) !! i = Some b -> bs_modified_by b <= 0 ->
  BufferSlot.flush i w = (w, Ok tt).
Proof.
  intros H Hc. unfold BufferSlot.flush.
  erewrite bind_ok by (by apply BufferSlot_self_eq).
  destruct (Z.gtb_spec (bs_modified_by b) 0); [lia | reflexivity].
Qed.

Lemma bm_written blk bb w : bm (written blk bb w) = bm w.
Proof. reflexivity. Qed.

Lemma logm_written blk bb w : logm (written blk bb w) = logm w.
Proof. reflexivity. Qed.

Lemma trace_written blk bb w : trace (written blk bb w) = trace w ++ [EvWrite blk bb].
Proof. reflexivity. Qed.

Lemma BufferSlot_flush_eq i b blk w :
  bufferpool (bm w) !! i = Some b ->
  0 < bs_modified_by b ->
  bs_blk b = Some blk -> 0 <= number blk ->
  0 <= number (lm_currentblk (logm w)) ->
  BufferSlot.flush i w =
    (with_slot i (BufferSlot.set_modified_by (-1) b)
       (written blk (bs_contents b) (fst (LogMgr.flush (bs_log_sequence_number b) w))),
     Ok tt).
Proof.
  intros H Hd Hb Hn Hl. unfold BufferSlot.flush.
  erewrite bind_ok by (by apply BufferSlot_self_eq).
  destruct (Z.gtb_spec (bs_modified_by b) 0); [|lia].
  rewrite (LogMgr_flush_eq _ _ Hl). cbn [fst].
  erewrite bind_ok by (by apply LogMgr_flush_eq).
  rewrite Hb. unfold MaxPage.write.
  erewrite bind_ok by (by apply FileMgr_write_eq).
  apply BufferSlot_update_eq.
  rewrite bm_written. by destruct (_ >=? _).
Qed.

(** C3: the flush of a dirty buffer slot first forces the log up to
    the LSN the slot carries, then writes the page to the block the slot
    is bound to, then clears [modified_by]; when the page is written the
    log is forced up to that LSN. *)
Theorem C3_flush_write_ahead (w : World) (i : nat) (b : BufferSlot) (blk : Block) :
  bufferpool (bm w) !! i = Some b ->
  0 < bs_modified_by b ->
  bs_blk b = Some blk -> 0 <= number blk ->
  0 <= number (lm_currentblk (logm w)) ->
  length (lm_mypage (logm w)) = Z.to_nat BLOCK_SIZE ->
  let forced := run (LogMgr.flush (bs_log_sequence_number b)) w in
  BufferSlot.flush i w =
    (with_slot i (BufferSlot.set_modified_by (-1) b) (written blk (bs_contents b) forced),
     Ok tt) /\
  log_forced forced (bs_log_sequence_number b) /\
  trace (run (BufferSlot.flush i) w) = trace w ++ flush_events w b /\
  bs_modified_by <$> bufferpool (bm (run (BufferSlot.flush i) w)) !! i = Some (-1).
Proof.
  intros H Hd Hb Hn Hl Hpg forced.
  pose proof (BufferSlot_flush_eq i b blk w H Hd Hb Hn Hl) as Heq.
  apply lookup_lt_Some in H as Hlt.
  split; [exact Heq|]. unfold run. rewrite Heq. cbn [fst].
  subst forced. unfold run. rewrite (LogMgr_flush_eq _ _ Hl). cbn [fst].
  unfold log_forced, flush_events. rewrite Hb.
  destruct (Z.geb_spec (bs_log_sequence_number b) (number (lm_currentblk (logm w))))
    as [Hge|Hlt'].
  - split; [right; rewrite logm_written; by apply on_disk_written|].
    split; [simpl; by rewrite <- app_assoc|].
    simpl. rewrite list_lookup_insert_eq by done. reflexivity.
  - split; [left; lia|].
    split; [reflexivity|].
    simpl. rewrite list_lookup_insert_eq by done. reflexivity.
Qed.

Lemma C3_flush_write_ahead_witness :
  let forced := run (LogMgr.flush (bs_log_sequence_number dirty_slot)) dirty_world in
  BufferSlot.flush 0 dirty_world =
    (with_slot 0 (BufferSlot.set_modified_by (-1) dirty_slot)
       (written blk_T0 (bs_contents dirty_slot) forced), Ok tt) /\
  log_forced forced (bs_log_sequence_number dirty_slot) /\
  trace (run (BufferSlot.flush 0) dirty_world)
    = trace dirty_world ++ flush_events dirty_world dirty_slot /\
  bs_modified_by <$> bufferpool (bm (run (BufferSlot.flush 0) dirty_world)) !! 0%nat
    = Some (-1).
Proof.
  apply (C3_flush_write_ahead dirty_world 0 dirty_slot blk_T0).
  - vm_compute. reflexivity.
  - vm_compute. reflexivity.
  - vm_compute. reflexivity.
  - vm_compute. discriminate.
  - vm_compute. discriminate.
  - vm_compute. reflexivity.
Defined.

(** The flush of a dirty slot bound to a block that cannot be written
    (its number is negative) forces the log, then fails on the write:
    nothing but the log is written and the slot stays dirty. *)
Lemma BufferSlot_flush_unwritable i b blk w :
  bufferpool (bm w) !! i = Some b ->
  0 < bs_modified_by b ->
  bs_blk b = Some blk -> number blk < 0 ->
  0 <= number (lm_currentblk (logm w)) ->
  let forced := run (LogMgr.flush (bs_log_sequence_number b)) w in
  result (BufferSlot.flush i) w = Raise TypeError /\
  trace (run (BufferSlot.flush i) w) = trace forced /\
  bm (run (BufferSlot.flush i) w) = bm w.
Proof.
  intros H Hd Hb Hn Hl forced. unfold result, run, BufferSlot.flush.
  erewrite bind_ok by (by apply BufferSlot_self_eq).
  destruct (Z.gtb_spec (bs_modified_by b) 0); [|lia].
  subst forced. unfold run. rewrite (LogMgr_flush_eq _ _ Hl). cbn [fst].
  erewrite bind_ok by (by apply LogMgr_flush_eq).
  rewrite Hb. unfold MaxPage.write.
  set (w1 := if _ >=? _ then _ else w).
  assert (Hbm : bm w1 = bm w) by (subst w1; by destruct (_ >=? _)).
  unfold bind at 1.
  unfold FileMgr.write, FileMgr.get_file, bind, get, put, ret, raise.
  destruct (Z.ltb_spec (number blk) 0) as [_|]; [|lia].
  by destruct (fm_files (fm w1) !! file_name blk).
Qed.

(** ** What the file manager and the log manager leave alone *)

Lemma bm_only_write_stable I : bm_only I -> write_stable I.
Proof. intros H. repeat split; intros; (eapply H; [|eassumption]; reflexivity). Qed.

Lemma only_writes_refl w : only_writes w w.
Proof.
  repeat split. exists []. by rewrite app_nil_r.
Qed.

Lemma only_writes_write_stable w0 : write_stable (only_writes w0).
Proof.
  repeat split; try (by destruct H as (? & ? & ? & ?)).
  destruct H as (_ & _ & _ & evs & Ht & Hf).
  exists (evs ++ [EvWrite blk bb]). simpl. rewrite Ht, <- app_assoc.
  split; [done|]. apply Forall_app. split; [done|]. by repeat constructor.
Qed.

Section WriteStable.

Variable I : World -> Prop.
Hypothesis HI : write_stable I.

Lemma pres_set_fm f : preserves I (modify (fun w => set_fm (f w) w)).
Proof. apply preserves_modify. intros s. apply HI. Qed.

Lemma pres_set_logm f : preserves I (modify (fun w => set_logm (f w) w)).
Proof. apply preserves_modify. intros s. apply HI. Qed.

Lemma pres_emit_write blk bb : preserves I (modify (emit (EvWrite blk bb))).
Proof. apply preserves_modify. intros s. apply HI. Qed.

Lemma pres_get_file filename : preserves I (FileMgr.get_file filename).
Proof.
  intros s Hs. unfold FileMgr.get_file, bind, get, put, ret.
  destruct (fm_files (fm s) !! filename); simpl; [done|].
  by apply HI.
Qed.

Lemma pres_FileMgr_write blk bb : preserves I (FileMgr.write blk bb).
Proof.
  unfold FileMgr.write. apply preserves_bind; [apply pres_get_file|]. intros d.
  destruct (number blk <? 0); [apply preserves_raise|].
  apply preserves_bind; [|intros; apply pres_emit_write].
  apply pres_set_fm.
Qed.

Lemma pres_FileMgr_read blk bb : preserves I (FileMgr.read blk bb).
Proof.
  unfold FileMgr.read. apply preserves_bind; [apply pres_get_file|]. intros d.
  destruct (number blk <? 0); [apply preserves_raise | apply preserves_ret].
Qed.

Lemma pres_FileMgr_size filename : preserves I (FileMgr.size filename).
Proof.
  unfold FileMgr.size.
  apply preserves_bind; [apply pres_get_file | intros; apply preserves_ret].
Qed.

Lemma pres_FileMgr_append filename bb : preserves I (FileMgr.append filename bb).
Proof.
  unfold FileMgr.append.
  apply preserves_bind; [apply pres_FileMgr_size|].
  intros n. apply preserves_bind; [apply pres_FileMgr_write | intros; apply preserves_ret].
Qed.

Lemma pres_MaxPage_write blk bb : preserves I (MaxPage.write blk bb).
Proof. destruct blk; [apply pres_FileMgr_write | apply preserves_raise]. Qed.

Lemma pres_MaxPage_read blk bb : preserves I (MaxPage.read blk bb).
Proof. destruct blk; [apply pres_FileMgr_read | apply preserves_raise]. Qed.

Lemma pres_LogMgr_on_mypage {A} (m : ST (list Z) A) : preserves I (LogMgr.on_mypage m).
Proof. apply preserves_zoom. intros s t. apply HI. Qed.

Lemma pres_LogMgr_set_currentblk blk : preserves I (LogMgr.set_currentblk blk).
Proof. apply pres_set_logm. Qed.

Lemma pres_LogMgr_set_currentpos pos : preserves I (LogMgr.set_currentpos pos).
Proof. apply pres_set_logm. Qed.

Lemma pres_LogMgr_current_lsn : preserves I LogMgr.__current_lsn.
Proof.
  apply preserves_bind; [apply preserves_get | intros; apply preserves_ret].
Qed.

Lemma pres_LogMgr___flush : preserves I LogMgr.__flush.
Proof.
  apply preserves_bind; [apply preserves_get | intros; apply pres_MaxPage_write].
Qed.

Lemma pres_LogMgr_flush lsn : preserves I (LogMgr.flush lsn).
Proof.
  unfold LogMgr.flush.
  apply preserves_bind; [apply pres_LogMgr_current_lsn|].
  intros cur. destruct (lsn >=? cur); [apply pres_LogMgr___flush | apply preserves_ret].
Qed.

Lemma pres_LogMgr_append_new_block : preserves I LogMgr.__append_new_block.
Proof.
  unfold LogMgr.__append_new_block, LogMgr.__set_last_record_position.
  apply preserves_bind; [apply pres_LogMgr_on_mypage|]. intros _.
  apply preserves_bind; [apply pres_LogMgr_on_mypage|]. intros _.
  apply preserves_bind; [apply preserves_get|]. intros w.
  apply preserves_bind; [apply pres_FileMgr_append|]. intros blk.
  apply preserves_bind; [apply pres_LogMgr_set_currentblk|]. intros _.
  apply pres_LogMgr_set_currentpos.
Qed.

Lemma pres_LogMgr_append_val val : preserves I (LogMgr.__append_val val).
Proof.
  unfold LogMgr.__append_val.
  apply preserves_bind; [apply preserves_get|]. intros w.
  apply preserves_bind; [destruct val; apply pres_LogMgr_on_mypage|]. intros _.
  apply pres_LogMgr_set_currentpos.
Qed.

Lemma pres_LogMgr_finalize_record : preserves I LogMgr.__finalize_record.
Proof.
  unfold LogMgr.__finalize_record, LogMgr.__get_last_record_position,
    LogMgr.__set_last_record_position.
  apply preserves_bind; [apply pres_LogMgr_on_mypage|]. intros last.
  apply preserves_bind; [apply preserves_get|]. intros w.
  apply preserves_bind; [apply pres_LogMgr_on_mypage|]. intros _.
  apply preserves_bind; [apply pres_LogMgr_on_mypage|]. intros _.
  apply pres_LogMgr_set_currentpos.
Qed.

End WriteStable.

(** ** The LSN a slot carries *)

Lemma slot_lsn_bm_only i L : bm_only (fun w => slot_lsn w i = L).
Proof. intros w w' Hbm. unfold slot_lsn. by rewrite Hbm. Qed.

Lemma pres_slot_lsn_update i L j f :
  (forall b, bs_log_sequence_number (f b) = bs_log_sequence_number b) ->
  preserves (fun w => slot_lsn w i = L) (BufferSlot.update j f).
Proof.
  intros Hf. apply preserves_modify. intros w <-. unfold slot_lsn. simpl.
  rewrite list_lookup_alter. destruct (decide (j = i)) as [->|]; [|done].
  destruct (bufferpool (bm w) !! i); simpl; [by rewrite Hf | done].
Qed.

Lemma pres_slot_lsn_self i L j : preserves (fun w => slot_lsn w i = L) (BufferSlot.self j).
Proof.
  unfold BufferSlot.self. apply preserves_bind; [apply preserves_get|]. intros w.
  destruct (bufferpool (bm w) !! j); [apply preserves_ret | apply preserves_raise].
Qed.

Lemma pres_slot_lsn_on_contents {A} i L j (m : ST (list Z) A) :
  preserves (fun w => slot_lsn w i = L) (BufferSlot.on_contents j m).
Proof.
  unfold BufferSlot.on_contents.
  apply preserves_bind; [apply pres_slot_lsn_self|]. intros b.
  destruct (m (bs_contents b)) as [c r].
  apply preserves_bind; [by apply pres_slot_lsn_update | intros; apply preserves_lift].
Qed.

Lemma pres_slot_lsn_flush i L j : preserves (fun w => slot_lsn w i = L) (BufferSlot.flush j).
Proof.
  unfold BufferSlot.flush.
  apply preserves_bind; [apply pres_slot_lsn_self|]. intros b.
  destruct (bs_modified_by b >? 0); [|apply preserves_ret].
  apply preserves_bind; [apply pres_LogMgr_flush, bm_only_write_stable, slot_lsn_bm_only|]. intros _.
  apply preserves_bind; [apply pres_MaxPage_write, bm_only_write_stable, slot_lsn_bm_only|]. intros _.
  by apply pres_slot_lsn_update.
Qed.

Lemma pres_slot_lsn_call i L c :
  call_lsn c = None -> preserves (fun w => slot_lsn w i = L) (slot_do i c).
Proof.
  intros Hc. destruct c; simpl in *.
  - apply preserves_bind; [apply pres_slot_lsn_on_contents | intros; apply preserves_ret].
  - apply preserves_bind; [apply pres_slot_lsn_on_contents | intros; apply preserves_ret].
  - destruct (lsn >=? 0) eqn:Hl; [discriminate|].
    destruct x; unfold slot_write, BufferSlot.set_int, BufferSlot.set_string; rewrite Hl;
      (apply preserves_bind; [by apply pres_slot_lsn_update|]; intros _;
       apply preserves_bind; [apply preserves_ret|]; intros _;
       apply pres_slot_lsn_on_contents).
  - apply preserves_bind; [|intros; apply preserves_ret].
    apply preserves_bind; [apply pres_slot_lsn_self | intros; apply preserves_ret].
  - apply pres_slot_lsn_flush.
  - by apply pres_slot_lsn_update.
  - by apply pres_slot_lsn_update.
  - apply preserves_bind; [|intros; apply preserves_ret].
    apply preserves_bind; [apply pres_slot_lsn_self | intros; apply preserves_ret].
  - apply preserves_bind; [|intros; apply preserves_ret].
    apply preserves_bind; [apply pres_slot_lsn_self | intros; apply preserves_ret].
  - unfold BufferSlot.assign_to_block.
    apply preserves_bind; [apply pres_slot_lsn_flush|]. intros _.
    apply preserves_bind; [by apply pres_slot_lsn_update|]. intros _.
    apply preserves_bind; [apply pres_slot_lsn_self|]. intros b.
    apply preserves_bind; [apply pres_MaxPage_read, bm_only_write_stable, slot_lsn_bm_only|]. intros c.
    apply preserves_bind; [by apply pres_slot_lsn_update|]. intros _.
    by apply pres_slot_lsn_update.
  - unfold BufferSlot.assign_to_new.
    apply preserves_bind; [apply pres_slot_lsn_flush|]. intros _.
    apply preserves_bind; [apply pres_slot_lsn_on_contents|]. intros _.
    apply preserves_bind; [apply pres_slot_lsn_self|]. intros b.
    apply preserves_bind; [apply pres_FileMgr_append, bm_only_write_stable, slot_lsn_bm_only|]. intros blk.
    apply preserves_bind; [by apply pres_slot_lsn_update|]. intros _.
    by apply pres_slot_lsn_update.
Qed.

Lemma slot_lsn_stamping_write i offset x txnum lsn w :
  0 <= lsn ->
  slot_lsn (run (slot_write i offset x txnum lsn) w) i = (fun _ => lsn) <$> slot_lsn w i.
Proof.
  intros Hl. unfold run, slot_lsn.
  destruct (bufferpool (bm w) !! i) as [b|] eqn:Hb.
  - rewrite (slot_write_eq _ _ _ _ _ _ _ Hb). cbn [fst].
    rewrite with_slot_lookup by (by eapply lookup_lt_Some). simpl.
    by destruct (Z.geb_spec lsn 0); [|lia].
  - assert (Hnone : slot_lsn w i = None) by (unfold slot_lsn; by rewrite Hb).
    assert (Hu : forall f, preserves (fun w' => slot_lsn w' i = None)
                             (BufferSlot.update i f)).
    { intros f. apply preserves_modify. intros s Hs. unfold slot_lsn in *. simpl.
      rewrite list_lookup_alter_eq. by destruct (bufferpool (bm s) !! i). }
    assert (Hpres : preserves (fun w' => slot_lsn w' i = None)
                      (slot_write i offset x txnum lsn)).
    { destruct x; unfold slot_write, BufferSlot.set_int, BufferSlot.set_string;
        (apply preserves_bind; [apply Hu|]; intros _;
         apply preserves_bind; [destruct (lsn >=? 0); [apply Hu | apply preserves_ret]|];
         intros _; apply pres_slot_lsn_on_contents). }
    specialize (Hpres w Hnone). unfold slot_lsn in Hpres. by rewrite Hpres.
Qed.

(** C10: a buffer-slot write under a negative LSN changes the page and
    [modified_by] of that slot and nothing else; the slot keeps the LSN
    it carried, which a later flush forces the log up to; and of all
    the calls a slot can receive, only a write with an LSN of at least
    0 changes the LSN it carries. *)
Theorem C10_sentinel_write_keeps_lsn (w : World) (i : nat) (b : BufferSlot)
    (offset : Z) (x : value) (txnum lsn : Z) :
  bufferpool (bm w) !! i = Some b ->
  lsn < 0 ->
  let c' := fst (page_store offset x (bs_contents b)) in
  let w' := run (slot_write i offset x txnum lsn) w in
  w' = with_slot i {| bs_contents := c'; bs_blk := bs_blk b; bs_pins := bs_pins b;
                      bs_modified_by := txnum;
                      bs_log_sequence_number := bs_log_sequence_number b |} w /\
  (0 < txnum ->
   BufferSlot.flush i w' =
     (LogMgr.flush (bs_log_sequence_number b) ;;
      MaxPage.write (bs_blk b) c' ;;
      BufferSlot.update i (BufferSlot.set_modified_by (-1))) w') /\
  (forall (c : slot_call) (w0 : World),
     slot_lsn (run (slot_do i c) w0) i =
       match call_lsn c with
       | Some l => (fun _ => l) <$> slot_lsn w0 i
       | None => slot_lsn w0 i
       end).
Proof.
  intros Hb Hl c' w'.
  assert (Hw' : w' = with_slot i {| bs_contents := c'; bs_blk := bs_blk b;
                      bs_pins := bs_pins b; bs_modified_by := txnum;
                      bs_log_sequence_number := bs_log_sequence_number b |} w).
  { subst w' c'. unfold run. rewrite (slot_write_eq _ _ _ _ _ _ _ Hb). cbn [fst].
    unfold stamped. by destruct (Z.geb_spec lsn 0); [lia|]. }
  split; [exact Hw'|]. split.
  - intros Ht. rewrite Hw'. unfold BufferSlot.flush.
    erewrite bind_ok
      by (apply BufferSlot_self_eq, with_slot_lookup; by eapply lookup_lt_Some).
    cbn [bs_modified_by bs_log_sequence_number bs_blk bs_contents].
    by destruct (Z.gtb_spec txnum 0); [|lia].
  - intros c w0. destruct (call_lsn c) as [l|] eqn:Hc.
    + destruct c; try discriminate. simpl in Hc.
      destruct (Z.geb_spec lsn0 0); [|discriminate]. injection Hc as <-.
      by apply slot_lsn_stamping_write.
    + by apply (pres_slot_lsn_call i (slot_lsn w0 i) c Hc w0).
Qed.

Lemma C10_sentinel_write_keeps_lsn_witness :
  let c' := fst (page_store 80 (VInt 0) (bs_contents dirty_slot)) in
  let w' := run (slot_write 0 80 (VInt 0) 1 (-1)) dirty_world in
  w' = with_slot 0 {| bs_contents := c'; bs_blk := bs_blk dirty_slot;
                      bs_pins := bs_pins dirty_slot; bs_modified_by := 1;
                      bs_log_sequence_number := bs_log_sequence_number dirty_slot |}
         dirty_world /\
  (0 < 1 ->
   BufferSlot.flush 0 w' =
     (LogMgr.flush (bs_log_sequence_number dirty_slot) ;;
      MaxPage.write (bs_blk dirty_slot) c' ;;
      BufferSlot.update 0 (BufferSlot.set_modified_by (-1))) w') /\
  (forall (c : slot_call) (w0 : World),
     slot_lsn (run (slot_do 0 c) w0) 0 =
       match call_lsn c with
       | Some l => (fun _ => l) <$> slot_lsn w0 0
       | None => slot_lsn w0 0
       end).
Proof.
  apply (C10_sentinel_write_keeps_lsn dirty_world 0 dirty_slot 80 (VInt 0) 1 (-1)).
  - vm_compute. reflexivity.
  - lia.
Defined.

(** ** Appending to the log *)

Lemma preserves_ok {S A} (I : S -> Prop) (m : ST S A) s s' r :
  preserves I m -> I s -> m s = (s', r) -> I s'.
Proof. intros Hm Hs Heq. specialize (Hm s Hs). by rewrite Heq in Hm. Qed.

Lemma LogMgr_append_ok rec w w' lsn :
  LogMgr.append rec w = (w', Ok lsn) ->
  exists w1,
    only_writes w w1 /\
    w' = emit (EvAppend rec lsn) w1 /\
    lsn = number (lm_currentblk (logm w1)).
Proof.
  unfold LogMgr.append. intros H.
  pose proof (only_writes_write_stable w) as HI.
  pose proof (only_writes_refl w) as H0.
  apply bind_ok_inv in H as (? & s1 & E1 & H).
  eapply preserves_ok in E1 as H1; [|apply preserves_assert|exact H0].
  apply bind_ok_inv in H as (w0 & s2 & E2 & H).
  injection E2 as <- <-.
  apply bind_ok_inv in H as (? & s3 & E3 & H).
  eapply preserves_ok in E3 as H3; [| |exact H1].
  2:{ destruct (_ >=? _); [|apply preserves_ret].
      apply preserves_bind; [by apply pres_LogMgr___flush|].
      intros _. by apply pres_LogMgr_append_new_block. }
  apply bind_ok_inv in H as (? & s4 & E4 & H).
  eapply preserves_ok in E4 as H4; [| |exact H3].
  2:{ apply preserves_for_each. intros v. by apply pres_LogMgr_append_val. }
  apply bind_ok_inv in H as (? & s5 & E5 & H).
  eapply preserves_ok in E5 as H5; [|by apply pres_LogMgr_finalize_record|exact H4].
  apply bind_ok_inv in H as (lsn' & s6 & E6 & H).
  injection E6 as <- <-.
  injection H as <- <-.
  exists s5. done.
Qed.

Lemma with_slot_id i b w : bufferpool (bm w) !! i = Some b -> with_slot i b w = w.
Proof.
  intros H. unfold with_slot, set_bm. rewrite list_insert_id by done.
  destruct w as [f l [pool n] nx t tr]. reflexivity.
Qed.

Lemma MaxPage_get_string_state offset c : fst (MaxPage.get_string offset c) = c.
Proof.
  unfold MaxPage.get_string, MaxPage.get_int, Page.get_int, Page.get_, bind, get, ret, lift.
  destruct (unpack_from Fmt_i c offset) as [size|]; [|reflexivity]. simpl.
  by destruct ((size <=? 0) || (400 <? size)).
Qed.

Lemma page_load_state x offset c : fst (page_load x offset c) = c.
Proof.
  destruct x; unfold page_load, bind, ret.
  - unfold MaxPage.get_int, Page.get_int, Page.get_.
    by destruct (unpack_from Fmt_i c offset).
  - pose proof (MaxPage_get_string_state offset c) as H.
    by destruct (MaxPage.get_string offset c) as [c' [s'|e]]; simpl in *; subst.
Qed.

Lemma BufferSlot_on_contents_read {A} i b w (m : ST (list Z) A) :
  bufferpool (bm w) !! i = Some b ->
  fst (m (bs_contents b)) = bs_contents b ->
  BufferSlot.on_contents i m w = (w, snd (m (bs_contents b))).
Proof.
  intros H Hm. unfold BufferSlot.on_contents.
  erewrite bind_ok by (by apply BufferSlot_self_eq).
  destruct (m (bs_contents b)) as [c r]. simpl in Hm. subst c.
  erewrite bind_ok by (by apply BufferSlot_update_eq).
  replace (BufferSlot.set_contents (bs_contents b) b) with b by (by destruct b).
  by rewrite with_slot_id.
Qed.

Lemma BufferSlot_get_int_eq i b w offset :
  bufferpool (bm w) !! i = Some b ->
  BufferSlot.get_int i offset w = (w, unpack_from Fmt_i (bs_contents b) offset).
Proof.
  intros H. unfold BufferSlot.get_int. by rewrite (BufferSlot_on_contents_read i b).
Qed.

Lemma BufferSlot_get_string_eq i b w offset :
  bufferpool (bm w) !! i = Some b ->
  BufferSlot.get_string i offset w = (w, snd (MaxPage.get_string offset (bs_contents b))).
Proof.
  intros H. unfold BufferSlot.get_string.
  by rewrite (BufferSlot_on_contents_read i b) by (done || apply MaxPage_get_string_state).
Qed.

Lemma recovery_write_eq txnum i b blk offset x old w :
  bufferpool (bm w) !! i = Some b ->
  bs_blk b = Some blk ->
  snd (page_load x offset (bs_contents b)) = Ok old ->
  recovery_write txnum i offset x w =
    if startswith (file_name blk) (py "temp") then (w, Ok (-1))
    else LogMgr.append (LogRecord.rec (undo_record txnum blk offset old)) w.
Proof.
  intros H Hb Hold.
  assert (Hblock : BufferSlot.block i w = (w, Ok (Some blk))).
  { unfold BufferSlot.block. erewrite bind_ok by (by apply BufferSlot_self_eq).
    by rewrite Hb. }
  destruct x as [v|s]; simpl in *;
    unfold RecoveryMgr.set_int, RecoveryMgr.set_string.
  - unfold bind at 1 in Hold. unfold MaxPage.get_int, Page.get_int, Page.get_ in Hold.
    destruct (unpack_from Fmt_i (bs_contents b) offset) as [n|] eqn:Hn; [|discriminate].
    injection Hold as <-.
    erewrite bind_ok by (rewrite (BufferSlot_get_int_eq i b) by done; by rewrite Hn).
    erewrite bind_ok by exact Hblock.
    erewrite bind_ok by reflexivity.
    by destruct (startswith _ _).
  - unfold bind at 1 in Hold.
    pose proof (MaxPage_get_string_state offset (bs_contents b)) as Hst.
    destruct (MaxPage.get_string offset (bs_contents b)) as [c [n|]] eqn:Hn;
      [|discriminate]. injection Hold as <-.
    erewrite bind_ok by (rewrite (BufferSlot_get_string_eq i b) by done; by rewrite Hn).
    erewrite bind_ok by exact Hblock.
    erewrite bind_ok by reflexivity.
    by destruct (startswith _ _).
Qed.

(** ** Bytes of a page outside a write *)

Lemma splice_lookup_outside (buf bs : list Z) (x j : nat) :
  (x + length bs <= length buf)%nat ->
  (j < x \/ x + length bs <= j)%nat ->
  (take x buf ++ bs ++ drop (x + length bs) buf) !! j = buf !! j.
Proof.
  intros Hin [Hlt|Hge].
  - rewrite lookup_app_l by (rewrite length_take; lia).
    by rewrite lookup_take_lt by lia.
  - rewrite lookup_app_r by (rewrite length_take; lia).
    rewrite length_take, Nat.min_l by lia.
    rewrite lookup_app_r by lia.
    rewrite lookup_drop. f_equal. lia.
Qed.

Lemma bytes_at_ext (pg pg' : list Z) (pos : Z) (n : nat) :
  0 <= pos ->
  (forall j, (Z.to_nat pos <= j < Z.to_nat pos + n)%nat -> pg' !! j = pg !! j) ->
  bytes_at pg' pos n = bytes_at pg pos n.
Proof.
  intros Hpos H. unfold bytes_at. apply list_eq. intros i.
  destruct (decide (i < n)%nat) as [Hi|Hi].
  - rewrite !lookup_take_lt, !lookup_drop by lia. apply H. lia.
  - by rewrite !lookup_take_ge by lia.
Qed.

Lemma bytes_at_splice (buf bs : list Z) (x : nat) (pos : Z) (n : nat) :
  (x + length bs <= length buf)%nat ->
  0 <= pos ->
  (Z.to_nat pos + n <= x \/ x + length bs <= Z.to_nat pos)%nat ->
  bytes_at (take x buf ++ bs ++ drop (x + length bs) buf) pos n = bytes_at buf pos n.
Proof.
  intros Hin Hpos Hout. apply bytes_at_ext; [done|].
  intros j Hj. apply splice_lookup_outside; [done | lia].
Qed.

Lemma bytes_at_splice_inside (buf bs : list Z) (x : nat) :
  (x + length bs <= length buf)%nat ->
  bytes_at (take x buf ++ bs ++ drop (x + length bs) buf) (Z.of_nat x) (length bs) = bs.
Proof.
  intros Hin. unfold bytes_at. rewrite Nat2Z.id. by apply splice_read.
Qed.

(** ** Values stored in a page *)

Lemma bytes_of_length v bs : bytes_of v = Ok bs -> Z.of_nat (length bs) = LogMgr.__size v.
Proof.
  destruct v as [n|s]; simpl.
  - intros [_ H]%struct_unpack_pack. rewrite H. reflexivity.
  - destruct (utf_32_be_encode s) as [payload|] eqn:He; [|discriminate]. simpl.
    destruct (struct_pack Fmt_I _) as [prefix|] eqn:Hp; [|discriminate]. simpl.
    intros [= <-]. apply struct_unpack_pack in Hp as [_ Hp].
    apply utf_32_be_decode_encode in He as [_ He].
    rewrite length_app, Hp, He.
    unfold MaxPage.str_size, MaxPage.INT_SIZE, MaxPage.MAX_BYTES_PER_CHAR,
      Page.INT_SIZE, Page.MAX_BYTES_PER_CHAR. simpl fmt_size. lia.
Qed.

Lemma size_nonneg v : 4 <= LogMgr.__size v.
Proof.
  destruct v; simpl; unfold MaxPage.str_size, MaxPage.INT_SIZE, MaxPage.MAX_BYTES_PER_CHAR,
    Page.INT_SIZE, Page.MAX_BYTES_PER_CHAR; lia.
Qed.

Lemma sizes_nonneg vals : 0 <= sizes vals.
Proof.
  induction vals as [|v vals IH]; simpl; [lia|]. pose proof (size_nonneg v). lia.
Qed.

Lemma sizes_cons v vals : sizes (v :: vals) = LogMgr.__size v + sizes vals.
Proof. reflexivity. Qed.

Lemma page_store_inv pos v pg pg1 :
  0 <= pos -> pos + LogMgr.__size v <= Z.of_nat (length pg) ->
  page_store pos v pg = (pg1, Ok tt) ->
  exists bs, bytes_of v = Ok bs /\
    pg1 = take (Z.to_nat pos) pg ++ bs ++ drop (Z.to_nat pos + length bs) pg.
Proof.
  intros H0 H1. destruct v as [n|s]; simpl.
  - unfold MaxPage.set_int, Page.set_int, Page.set.
    destruct (pack_into Fmt_i pg pos n) as [c'|] eqn:Hp; [|discriminate].
    intros [= <-]. apply pack_into_inv in Hp as (bs & off & Hbs & Hoff & ->).
    rewrite struct_offset_fits in Hoff by (simpl in *; unfold MaxPage.INT_SIZE, Page.INT_SIZE in *; lia).
    injection Hoff as <-. exists bs. split; [done|].
    apply struct_unpack_pack in Hbs as [_ Hbs]. rewrite Hbs.
    do 3 f_equal. lia.
  - unfold MaxPage.set_string, bind, lift, modify.
    destruct (utf_32_be_encode s) as [payload|] eqn:He; [|discriminate].
    destruct (struct_pack Fmt_I _) as [prefix|] eqn:Hp; [|discriminate].
    intros [= <-]. exists (prefix ++ payload).
    split; [by cbn [res_bind]; rewrite Hp|].
    pose proof (utf_32_be_decode_encode _ _ He) as [_ Hlen].
    pose proof (struct_unpack_pack _ _ _ Hp) as [_ Hpl]. simpl in Hpl.
    simpl in H1. unfold MaxPage.str_size, MaxPage.INT_SIZE, MaxPage.MAX_BYTES_PER_CHAR,
      Page.INT_SIZE, Page.MAX_BYTES_PER_CHAR in *.
    rewrite setslice_in by lia.
    do 3 f_equal. rewrite length_app. lia.
Qed.

Lemma page_store_stored pos v pg pg1 :
  0 <= pos -> pos + LogMgr.__size v <= Z.of_nat (length pg) ->
  page_store pos v pg = (pg1, Ok tt) ->
  length pg1 = length pg /\ stored pg1 pos v /\
  forall q n, 0 <= q ->
    q + Z.of_nat n <= pos \/ pos + LogMgr.__size v <= q ->
    bytes_at pg1 q n = bytes_at pg q n.
Proof.
  intros H0 H1 Hs.
  destruct (page_store_inv _ _ _ _ H0 H1 Hs) as (bs & Hbs & ->).
  pose proof (bytes_of_length _ _ Hbs) as Hlen.
  assert (Hin : (Z.to_nat pos + length bs <= length pg)%nat) by lia.
  split; [by apply splice_length|]. split.
  - exists bs. rewrite splice_length by done. repeat split; try done; try lia.
    unfold bytes_at. by apply splice_read.
  - intros q n Hq Hout. apply bytes_at_splice; [done..|lia].
Qed.

Lemma stored_frame pg pg' pos v :
  stored pg pos v -> length pg' = length pg ->
  bytes_at pg' pos (Z.to_nat (LogMgr.__size v)) = bytes_at pg pos (Z.to_nat (LogMgr.__size v)) ->
  stored pg' pos v.
Proof.
  intros (bs & Hbs & Hlen & H0 & H1 & Hat) Hl Heq.
  exists bs. rewrite Hl. repeat split; try done.
  rewrite <- Hlen, Nat2Z.id in Heq. by rewrite Heq.
Qed.

Lemma stored_read_int pg pos n :
  stored pg pos (VInt n) -> MaxPage.get_int pos pg = (pg, Ok n).
Proof.
  intros (bs & Hbs & Hlen & H0 & H1 & Hat). simpl in Hbs.
  apply struct_unpack_pack in Hbs as [Hv Hl]. simpl in Hl.
  unfold MaxPage.get_int, Page.get_int, Page.get_, unpack_from.
  rewrite struct_offset_fits by (simpl; lia). simpl res_bind.
  unfold bytes_at in Hat. rewrite Hl in Hat. simpl fmt_size. by rewrite Hat, Hv.
Qed.

Lemma stored_read_string pg pos s :
  Z.of_nat (length pg) <= BLOCK_SIZE ->
  stored pg pos (VStr s) -> MaxPage.get_string pos pg = (pg, Ok s).
Proof.
  intros Hpg (bs & Hbs & Hlen & H0 & H1 & Hat). simpl in Hbs.
  destruct (utf_32_be_encode s) as [payload|] eqn:He; [|discriminate]. simpl in Hbs.
  destruct (struct_pack Fmt_I _) as [prefix|] eqn:Hp; [|discriminate]. simpl in Hbs.
  injection Hbs as <-.
  pose proof (utf_32_be_decode_encode _ _ He) as [Hdec Hpay].
  pose proof (struct_unpack_pack _ _ _ Hp) as [Hv Hpl]. simpl in Hpl.
  rewrite length_app in *. unfold BLOCK_SIZE in Hpg.
  assert (Hpre : prefix = le_bytes 4 (Z.of_nat (length payload))).
  { unfold struct_pack in Hp. destruct (_ && _); [|discriminate]. by injection Hp as <-. }
  unfold bytes_at in Hat.
  assert (Hdrop : exists rest, drop (Z.to_nat pos) pg = prefix ++ payload ++ rest).
  { exists (drop (length prefix + length payload) (drop (Z.to_nat pos) pg)).
    rewrite <- (take_drop (length prefix + length payload) (drop (Z.to_nat pos) pg)) at 1.
    by rewrite Hat, <- app_assoc. }
  destruct Hdrop as [rest Hdrop].
  unfold MaxPage.get_string, MaxPage.get_int, Page.get_int, Page.get_, bind, unpack_from.
  rewrite struct_offset_fits by (simpl; lia). simpl res_bind.
  change (fmt_size Fmt_i) with 4%nat.
  rewrite Hdrop, take_app_length' by done.
  rewrite Hpre. unfold struct_unpack. rewrite le_value_le_bytes.
  change (fmt_signed Fmt_i) with true. change (fmt_modulus Fmt_i) with 4294967296.
  change (2 ^ (8 * Z.of_nat 4)) with 4294967296.
  set (size := Z.of_nat (length payload)) in *.
  rewrite Z.mod_small by lia.
  destruct (Z.leb_spec (4294967296 / 2) size) as [Hbig|_].
  { change (4294967296 / 2) with 2147483648 in Hbig. lia. }
  cbn [andb].
  destruct (Z.leb_spec size 0) as [Hz|Hpos]; cbn [orb].
  - assert (s = []) as -> by (destruct s; [done | simpl in Hpay; lia]).
    reflexivity.
  - destruct (Z.ltb_spec 400 size); [lia|].
    unfold get, lift. unfold MaxPage.INT_SIZE, Page.INT_SIZE.
    rewrite getslice_in by lia.
    replace (Z.to_nat (pos + 4)) with (Z.to_nat pos + 4)%nat by lia.
    rewrite <- drop_drop, Hdrop.
    rewrite drop_app_length' by done.
    replace (Z.to_nat (pos + 4 + size - (pos + 4))) with (length payload) by lia.
    rewrite take_app_length' by done. by rewrite Hdec.
Qed.

Lemma stored_all_frame pg pg' pos vals :
  stored_all pg pos vals -> length pg' = length pg ->
  (forall q n, pos <= q ->
     q + Z.of_nat n <= pos + sizes vals ->
     bytes_at pg' q n = bytes_at pg q n) ->
  stored_all pg' pos vals.
Proof.
  revert pos. induction vals as [|v vals IH]; intros pos; simpl; [done|].
  intros [Hv Hrest] Hl Heq.
  pose proof (sizes_nonneg vals) as Hsum.
  pose proof (size_nonneg v) as Hsz.
  split.
  - eapply stored_frame; [done..|]. apply Heq; lia.
  - apply IH; [done..|]. intros q n Hq Hqn. apply Heq; lia.
Qed.

Lemma store_all_stored vals : forall pos pg pg',
  0 <= pos ->
  pos + sizes vals <= Z.of_nat (length pg) ->
  store_all pos vals pg = (pg', Ok tt) ->
  length pg' = length pg /\ stored_all pg' pos vals /\
  forall q n, 0 <= q ->
    q + Z.of_nat n <= pos \/
    pos + sizes vals <= q ->
    bytes_at pg' q n = bytes_at pg q n.
Proof.
  induction vals as [|v vals IH]; intros pos pg pg' H0 H1; simpl.
  - intros [= <-]. done.
  - simpl in H1.
    pose proof (sizes_nonneg vals) as Hsum.
    pose proof (size_nonneg v) as Hsz.
    intros (u & pg1 & Hst & Hrest)%bind_ok_inv. destruct u.
    apply page_store_stored in Hst as (Hl1 & Hv & Hf1); [|lia..].
    apply IH in Hrest as (Hl & Hvals & Hf); [|lia | rewrite Hl1; lia].
    split; [congruence|]. split; [split; [|done]|].
    + eapply stored_frame; [done..|]. apply Hf; lia.
    + intros q n Hq Hout. rewrite Hf by lia. apply Hf1; lia.
Qed.

Lemma stored_all_reads vals : forall pg pos,
  Z.of_nat (length pg) <= BLOCK_SIZE ->
  stored_all pg pos vals -> reads vals {| blr_pg := pg; blr_pos := pos |}.
Proof.
  induction vals as [|v vals IH]; intros pg pos Hpg; simpl; [done|].
  intros [Hv Hrest]. destruct v as [n|s].
  - exists {| blr_pg := pg; blr_pos := pos + 4 |}. split; [|by apply IH].
    unfold BasicLogRecord.next_int, BasicLogRecord.on_pg, BasicLogRecord.advance,
      bind, get, zoom, modify, ret. cbn [blr_pg blr_pos].
    by rewrite (stored_read_int _ _ _ Hv).
  - exists {| blr_pg := pg; blr_pos := pos + MaxPage.str_size (Z.of_nat (length s)) |}.
    split; [|by apply IH].
    unfold BasicLogRecord.next_string, BasicLogRecord.on_pg, BasicLogRecord.advance,
      bind, get, zoom, modify, ret. cbn [blr_pg blr_pos].
    by rewrite (stored_read_string _ _ _ Hpg Hv).
Qed.

(** ** The record that [LogMgr.append] lays out *)


Lemma recsize_sizes rec : LogMgr.recsize rec = 4 + sizes rec.
Proof.
  unfold LogMgr.recsize. change MaxPage.INT_SIZE with 4. generalize 4.
  induction rec as [|v rec IH]; intros a; simpl; [lia|]. rewrite IH. lia.
Qed.

Lemma log_page_state_id w : log_page_state w (lm_mypage (logm w)) (lm_currentpos (logm w)) = w.
Proof. by destruct w as [f [pg lf cb cp] b n t tr]. Qed.

Lemma LogMgr_append_val_ok val w w' :
  LogMgr.__append_val val w = (w', Ok tt) ->
  exists pg',
    page_store (lm_currentpos (logm w)) val (lm_mypage (logm w)) = (pg', Ok tt) /\
    w' = log_page_state w pg' (lm_currentpos (logm w) + LogMgr.__size val).
Proof.
  unfold LogMgr.__append_val, LogMgr.on_mypage, LogMgr.set_currentpos,
    bind, get, zoom, modify. 
  destruct val as [n|s]; cbn [page_store].
  - destruct (MaxPage.set_int _ n _) as [pg' [[]|e]]; [|discriminate].
    intros [= <-]. by exists pg'.
  - destruct (MaxPage.set_string _ s _) as [pg' [[]|e]]; [|discriminate].
    intros [= <-]. by exists pg'.
Qed.

Lemma LogMgr_append_vals_ok vals : forall w w',
  for_each vals LogMgr.__append_val w = (w', Ok tt) ->
  exists pg',
    store_all (lm_currentpos (logm w)) vals (lm_mypage (logm w)) = (pg', Ok tt) /\
    w' = log_page_state w pg' (lm_currentpos (logm w) + sizes vals).
Proof.
  induction vals as [|v vals IH]; intros w w'; simpl.
  - intros [= <-]. exists (lm_mypage (logm w)). split; [done|].
    by rewrite Z.add_0_r, log_page_state_id.
  - intros ([] & w1 & Hv & Hrest)%bind_ok_inv.
    apply LogMgr_append_val_ok in Hv as (pg1 & Hst & ->).
    apply IH in Hrest as (pg' & Hst' & ->). cbn in Hst'.
    exists pg'. split.
    + by erewrite bind_ok by exact Hst.
    + unfold log_page_state. cbn. fold (sizes vals). by rewrite Z.add_assoc.
Qed.

Lemma LogMgr_finalize_record_ok w w' :
  LogMgr.__finalize_record w = (w', Ok tt) ->
  exists last pg1 pg2,
    unpack_from Fmt_i (lm_mypage (logm w)) LAST_POS = Ok last /\
    page_store (lm_currentpos (logm w)) (VInt last) (lm_mypage (logm w)) = (pg1, Ok tt) /\
    page_store LAST_POS (VInt (lm_currentpos (logm w))) pg1 = (pg2, Ok tt) /\
    w' = log_page_state w pg2 (lm_currentpos (logm w) + 4).
Proof.
  unfold LogMgr.__finalize_record, LogMgr.__get_last_record_position,
    LogMgr.__set_last_record_position, LogMgr.on_mypage, LogMgr.set_currentpos,
    bind, get, zoom, modify.
  unfold MaxPage.get_int, Page.get_int, Page.get_ at 1.
  destruct (unpack_from Fmt_i _ LAST_POS) as [last|] eqn:Hl; [|discriminate]. cbn.
  destruct (MaxPage.set_int _ last _) as [pg1 [[]|e]] eqn:H1; [|discriminate]. cbn.
  destruct (MaxPage.set_int LAST_POS _ pg1) as [pg2 [[]|e]] eqn:H2; [|discriminate].
  intros [= <-]. by exists last, pg1, pg2.
Qed.

Lemma LogMgr_append_body w w2 rec :
  log_wf w ->
  lm_currentpos (logm w) + LogMgr.recsize rec <= BLOCK_SIZE ->
  (for_each rec LogMgr.__append_val ;; LogMgr.__finalize_record) w = (w2, Ok tt) ->
  log_wf w2 /\
  stored_all (lm_mypage (logm w2)) (lm_currentpos (logm w)) rec /\
  unpack_from Fmt_i (lm_mypage (logm w2)) (lm_currentpos (logm w2) - 4)
    = Ok (lm_currentpos (logm w) - 4) /\
  lm_currentpos (logm w2) = lm_currentpos (logm w) + sizes rec + 4 /\
  w2 = log_page_state w (lm_mypage (logm w2)) (lm_currentpos (logm w2)).
Proof.
  intros (Hlen & Hnum & Hpos & Htail) Hfit.
  rewrite recsize_sizes in Hfit. unfold BLOCK_SIZE in *.
  pose proof (sizes_nonneg rec) as Hsz.
  intros ([] & w1 & Hvals & Hfin)%bind_ok_inv.
  apply LogMgr_append_vals_ok in Hvals as (pg1 & Hst & ->).
  apply store_all_stored in Hst as (Hl1 & Hvals & Hf1); [|lia..].
  apply LogMgr_finalize_record_ok in Hfin as (last & pg2 & pg3 & Hlast & Hs2 & Hs3 & ->).
  cbn [log_page_state logm set_logm lm_mypage lm_currentpos] in Hlast, Hs2, Hs3.
  set (p := lm_currentpos (logm w)) in *.
  set (e := p + sizes rec) in *.
  assert (Hlast' : last = p - 4).
  { unfold unpack_from in Hlast, Htail. rewrite Hl1 in Hlast.
    destruct (struct_offset _ _ LAST_POS) as [off|] eqn:Ho; [|discriminate].
    cbn in Hlast, Htail.
    apply struct_offset_bounds in Ho as Hb; [|simpl; lia..].
    unfold LAST_POS in Ho. rewrite struct_offset_fits in Ho by (simpl in *; lia).
    injection Ho as <-.
    pose proof (Hf1 0 4%nat ltac:(lia) ltac:(lia)) as Hb0. unfold bytes_at in Hb0.
    change (fmt_size Fmt_i) with 4%nat in *. rewrite Hb0 in Hlast. congruence. }
  subst last.
  apply page_store_stored in Hs2 as (Hl2 & Hv2 & Hf2); [|cbn; unfold MaxPage.INT_SIZE, Page.INT_SIZE; lia..].
  apply page_store_stored in Hs3 as (Hl3 & Hv3 & Hf3);
    [|unfold LAST_POS; cbn; unfold MaxPage.INT_SIZE, Page.INT_SIZE; lia..].
  cbn [LogMgr.__size] in Hf2, Hf3. change MaxPage.INT_SIZE with 4 in Hf2, Hf3.
  unfold LAST_POS in *.
  cbn [log_page_state logm set_logm lm_mypage lm_currentpos lm_currentblk lm_logfile].
  replace (e + 4 - 4) with e by lia.
  assert (Hv2' : stored pg3 e (VInt (p - 4))).
  { eapply stored_frame; [exact Hv2 | done |]. apply Hf3; [lia|]. cbn.
    change MaxPage.INT_SIZE with 4. lia. }
  split; [|split; [|split; [|split]]].
  - unfold log_wf, LAST_POS.
    cbn [log_page_state logm set_logm lm_mypage lm_currentpos lm_currentblk].
    split; [unfold BLOCK_SIZE; congruence|]. split; [done|]. split; [lia|].
    apply stored_read_int in Hv3. unfold MaxPage.get_int, Page.get_int, Page.get_ in Hv3.
    injection Hv3 as ->. f_equal. lia.
  - eapply stored_all_frame; [exact Hvals | lia |].
    intros q n Hq Hqn. fold (sizes rec) in Hqn.
    rewrite Hf3 by lia. apply Hf2; lia.
  - apply stored_read_int in Hv2'. unfold MaxPage.get_int, Page.get_int, Page.get_ in Hv2'.
    by injection Hv2'.
  - reflexivity.
  - reflexivity.
Qed.

Lemma FileMgr_size_ok filename w w' n :
  FileMgr.size filename w = (w', Ok n) -> 0 <= n.
Proof.
  unfold FileMgr.size. intros (d & w1 & _ & H)%bind_ok_inv.
  injection H as <- <-. unfold BLOCK_SIZE. apply Z.div_pos; lia.
Qed.

Lemma FileMgr_write_logm blk bb w w' r :
  FileMgr.write blk bb w = (w', r) -> logm w' = logm w.
Proof.
  unfold FileMgr.write, FileMgr.get_file, FileMgr.put_file, bind, get, put, modify, ret, raise.
  destruct (fm_files (fm w) !! file_name blk); destruct (number blk <? 0);
    intros [= <- <-]; reflexivity.
Qed.

Lemma FileMgr_size_logm filename w w' r :
  FileMgr.size filename w = (w', r) -> logm w' = logm w.
Proof.
  unfold FileMgr.size, FileMgr.get_file, bind, get, put, ret.
  destruct (fm_files (fm w) !! filename); intros [= <- <-]; reflexivity.
Qed.

Lemma LogMgr_append_new_block_ok w w1 :
  LogMgr.__append_new_block w = (w1, Ok tt) ->
  log_wf w1 /\ lm_currentpos (logm w1) = 4.
Proof.
  unfold LogMgr.__append_new_block.
  intros ([] & s1 & E1 & H)%bind_ok_inv.
  unfold LogMgr.on_mypage, zoom, MaxPage.clear_contents, Page.clear, put in E1.
  injection E1 as <-.
  apply bind_ok_inv in H as ([] & s2 & E2 & H).
  unfold LogMgr.__set_last_record_position, LogMgr.on_mypage, zoom in E2.
  cbn [logm set_logm lm_mypage] in E2.
  change (MaxPage.set_int LAST_POS 0 Page.new) with (Page.new, @Ok unit tt) in E2.
  injection E2 as <-.
  apply bind_ok_inv in H as (w0 & s3 & E3 & H). injection E3 as <- <-.
  apply bind_ok_inv in H as (blk & s4 & E4 & H).
  unfold MaxPage.append, FileMgr.append in E4.
  apply bind_ok_inv in E4 as (n & s5 & E5 & E4).
  pose proof (FileMgr_size_ok _ _ _ _ E5) as Hn.
  apply FileMgr_size_logm in E5 as Hl5.
  apply bind_ok_inv in E4 as ([] & s6 & E6 & E4).
  apply FileMgr_write_logm in E6 as Hl6.
  injection E4 as <- <-.
  unfold LogMgr.set_currentblk, LogMgr.set_currentpos, bind, modify in H.
  injection H as <-.
  unfold log_wf. cbn [logm set_logm lm_mypage lm_currentpos lm_currentblk number].
  rewrite Hl6, Hl5. cbn [logm set_logm lm_mypage lm_currentpos lm_currentblk number].
  repeat split; try done.
Qed.

Lemma LogMgr_flush_wf w w1 :
  log_wf w -> LogMgr.__flush w = (w1, Ok tt) ->
  log_wf w1 /\ logm w1 = logm w.
Proof.
  intros Hwf H. unfold LogMgr.__flush, MaxPage.write, bind, get in H.
  apply FileMgr_write_logm in H. unfold log_wf. by rewrite H.
Qed.

(** An append that returns leaves the values of the record on the page
    of the log manager, one after the other, followed by the trailer
    that points at the record before it; the tail pointer of the page
    points at the trailer. *)
Lemma LogMgr_append_layout rec w w' lsn :
  log_wf w ->
  LogMgr.recsize rec + 4 <= BLOCK_SIZE ->
  LogMgr.append rec w = (w', Ok lsn) ->
  log_wf w' /\
  exists start,
    4 <= start /\
    stored_all (lm_mypage (logm w')) start rec /\
    lm_currentpos (logm w') = start + sizes rec + 4 /\
    unpack_from Fmt_i (lm_mypage (logm w')) (lm_currentpos (logm w') - 4) = Ok (start - 4).
Proof.
  intros Hwf Hfit. unfold LogMgr.append.
  intros ([] & s1 & E1 & H)%bind_ok_inv.
  unfold assert in E1. destruct (_ <=? _); [|discriminate]. injection E1 as <-.
  apply bind_ok_inv in H as (w0 & s2 & E2 & H). injection E2 as <- <-.
  apply bind_ok_inv in H as ([] & s3 & E3 & H).
  assert (Hs3 : log_wf s3 /\ lm_currentpos (logm s3) + LogMgr.recsize rec <= BLOCK_SIZE).
  { destruct (Z.geb_spec (lm_currentpos (logm w) + LogMgr.recsize rec) MaxPage.BLOCK_SIZE)
      as [Hge|Hlt].
    - apply bind_ok_inv in E3 as ([] & s & _ & E3).
      apply LogMgr_append_new_block_ok in E3 as [Hwf3 Hpos]. split; [done|].
      rewrite Hpos. lia.
    - injection E3 as <-. split; [done|]. unfold MaxPage.BLOCK_SIZE in Hlt. lia. }
  destruct Hs3 as [Hwf3 Hfit3].
  assert (Hbody : exists s5, (for_each rec LogMgr.__append_val ;; LogMgr.__finalize_record) s3
                               = (s5, Ok tt) /\
                             w' = emit (EvAppend rec lsn) s5).
  { apply bind_ok_inv in H as ([] & s4 & E4 & H).
    apply bind_ok_inv in H as ([] & s5 & E5 & H).
    apply bind_ok_inv in H as (lsn' & s6 & E6 & H). injection E6 as <- <-.
    apply bind_ok_inv in H as ([] & s7 & E7 & H). injection E7 as <-.
    injection H as <- <-.
    exists s5. split; [|done]. by erewrite bind_ok by exact E4. }
  destruct Hbody as (s5 & Hbody & ->).
  destruct (LogMgr_append_body _ _ _ Hwf3 Hfit3 Hbody) as (Hwf5 & Hst & Htr & Hpos & _).
  split; [exact Hwf5|].
  exists (lm_currentpos (logm s3)). split; [apply Hwf3|]. by repeat split.
Qed.

(** ** Reading the newest record back *)

Lemma FileMgr_read_eq blk bb w d :
  0 <= number blk -> fm_files (fm w) !! file_name blk = Some d ->
  FileMgr.read blk bb w =
    (w, Ok (FileMgr.file_readinto d (Z.to_nat (BLOCK_SIZE * number blk)) bb)).
Proof.
  intros Hn Hd. unfold FileMgr.read, FileMgr.get_file, bind, get, ret. rewrite Hd.
  by destruct (Z.ltb_spec (number blk) 0); [lia|].
Qed.

Lemma LogMgr_iterator_eq w :
  log_wf w ->
  LogMgr.iterator w =
    (written (lm_currentblk (logm w)) (lm_mypage (logm w)) w,
     Ok {| li_blk := lm_currentblk (logm w); li_pg := lm_mypage (logm w);
           li_currentrec := lm_currentpos (logm w) - 4 |}).
Proof.
  intros (Hlen & Hnum & Hpos & Htail).
  unfold LogMgr.iterator, LogMgr.__flush, MaxPage.write.
  erewrite bind_ok; [|unfold bind, get; by apply FileMgr_write_eq].
  unfold bind at 1, get at 1. rewrite logm_written.
  unfold LogIterator.init, MaxPage.read.
  erewrite bind_ok.
  2:{ apply FileMgr_read_eq; [done|]. unfold written. cbn. apply lookup_insert_eq. }
  rewrite file_read_write by done.
  unfold MaxPage.get_int, Page.get_int, Page.get_. cbn [snd]. rewrite Htail.
  reflexivity.
Qed.

Lemma newest_basic_record_reads w rec start :
  log_wf w -> 4 <= start ->
  stored_all (lm_mypage (logm w)) start rec ->
  lm_currentpos (logm w) = start + sizes rec + 4 ->
  unpack_from Fmt_i (lm_mypage (logm w)) (lm_currentpos (logm w) - 4) = Ok (start - 4) ->
  exists r,
    newest_basic_record w = (written (lm_currentblk (logm w)) (lm_mypage (logm w)) w, Ok r) /\
    reads rec r.
Proof.
  intros Hwf Hstart Hst Hpos Htr.
  pose proof (sizes_nonneg rec) as Hsz.
  exists {| blr_pg := lm_mypage (logm w); blr_pos := start |}. split.
  - unfold newest_basic_record. erewrite bind_ok by (by apply LogMgr_iterator_eq).
    unfold LogIterator.next. cbn [li_currentrec li_pg li_blk].
    destruct (Z.eqb_spec (lm_currentpos (logm w) - 4) 0) as [|_]; [lia|].
    unfold bind at 2, ret at 1.
    cbn [li_currentrec li_pg li_blk].
    unfold MaxPage.get_int, Page.get_int, Page.get_. cbn [snd]. rewrite Htr.
    unfold bind, lift, ret. cbn [snd]. do 3 f_equal. change MaxPage.INT_SIZE with 4. lia.
  - apply stored_all_reads; [|done]. destruct Hwf as [-> _]. done.
Qed.

Lemma LogRecordIterator_parse_reads record r :
  reads (LogRecord.rec record) r ->
  snd (LogRecordIterator.parse r) = Ok (Some record).
Proof.
  unfold LogRecordIterator.parse.
  destruct record as [|t|t|t|t [f n] o v|t [f n] o v]; cbn [LogRecord.rec reads];
    intros (r1 & E1 & H); erewrite bind_ok by exact E1; cbn [Z.eqb LogRecord.CHECKPOINT
      LogRecord.START LogRecord.COMMIT LogRecord.ROLLBACK LogRecord.SETINT
      LogRecord.SETSTRING Pos.eqb]; try reflexivity.
  1-3: destruct H as (r2 & E2 & _); unfold LogRecordIterator.read_tx;
       erewrite bind_ok by exact E2; reflexivity.
  - destruct H as (r2 & E2 & r3 & E3 & r4 & E4 & r5 & E5 & r6 & E6 & _).
    unfold LogRecordIterator.read_set_int.
    erewrite bind_ok by exact E2. erewrite bind_ok by exact E3.
    erewrite bind_ok by exact E4. erewrite bind_ok by exact E5.
    erewrite bind_ok by exact E6. reflexivity.
  - destruct H as (r2 & E2 & r3 & E3 & r4 & E4 & r5 & E5 & r6 & E6 & _).
    unfold LogRecordIterator.read_set_string.
    erewrite bind_ok by exact E2. erewrite bind_ok by exact E3.
    erewrite bind_ok by exact E4. erewrite bind_ok by exact E5.
    erewrite bind_ok by exact E6. reflexivity.
Qed.

Lemma newest_record_eq w w1 r :
  newest_basic_record w = (w1, Ok r) ->
  newest_record w = (w1, snd (LogRecordIterator.parse r)).
Proof.
  unfold newest_basic_record, newest_record, LogRecordIterator.init, LogRecordIterator.next.
  unfold bind, ret, lift.
  destruct (LogMgr.iterator w) as [wa [it|e]]; [|discriminate].
  destruct (LogIterator.next it wa) as [wb [[it' r0]|e]]; [|discriminate].
  intros [= <- <-]. cbn [snd fst].
  by destruct (snd (LogRecordIterator.parse r0)).
Qed.

(** The record that an append has returned from is the newest record of
    the log, as the recovery manager reads it. *)
Lemma LogMgr_append_read_back record w w' lsn :
  log_wf w ->
  LogMgr.recsize (LogRecord.rec record) + 4 <= BLOCK_SIZE ->
  LogRecord.write_to_log record w = (w', Ok lsn) ->
  log_wf w' /\ result newest_record w' = Ok (Some record).
Proof.
  intros Hwf Hfit Happ.
  destruct (LogMgr_append_layout _ _ _ _ Hwf Hfit Happ)
    as (Hwf' & start & Hstart & Hst & Hpos & Htr).
  split; [done|].
  destruct (newest_basic_record_reads _ _ _ Hwf' Hstart Hst Hpos Htr) as (r & Hr & Hreads).
  unfold result. rewrite (newest_record_eq _ _ _ Hr). cbn [snd].
  by apply LogRecordIterator_parse_reads.
Qed.

(** ** Appends that return *)

Lemma page_store_total pos v pg :
  value_ok v -> 0 <= pos -> pos + LogMgr.__size v <= Z.of_nat (length pg) ->
  Z.of_nat (length pg) <= BLOCK_SIZE ->
  exists pg', page_store pos v pg = (pg', Ok tt).
Proof.
  intros Hv H0 H1 H2. destruct v as [n|s]; cbn [page_store value_ok LogMgr.__size] in *.
  - destruct (pack_into_total Fmt_i pg pos n Hv H0) as [pg' Hp];
      [by change (Z.of_nat (fmt_size Fmt_i)) with 4|].
    exists pg'. unfold MaxPage.set_int, Page.set_int, Page.set. by rewrite Hp.
  - destruct (set_string_fits pos s pg Hv H0 H1 H2) as (bs & _ & Hs). eauto.
Qed.

Lemma store_all_total vals : forall pos pg,
  Forall value_ok vals -> 0 <= pos -> pos + sizes vals <= Z.of_nat (length pg) ->
  Z.of_nat (length pg) <= BLOCK_SIZE ->
  exists pg', store_all pos vals pg = (pg', Ok tt).
Proof.
  induction vals as [|v vals IH]; intros pos pg Hok H0 H1 H2; cbn [store_all].
  - by exists pg.
  - rewrite sizes_cons in H1. pose proof (sizes_nonneg vals). pose proof (size_nonneg v).
    apply Forall_cons in Hok as [Hv Hok].
    destruct (page_store_total pos v pg Hv H0) as [pg1 H1']; [lia..|].
    pose proof (page_store_stored pos v pg pg1 H0 ltac:(lia) H1') as (Hl & _).
    destruct (IH (pos + LogMgr.__size v) pg1 Hok) as [pg' H']; [rewrite ?Hl; lia..|].
    exists pg'. by erewrite bind_ok by exact H1'.
Qed.

Lemma LogMgr_append_val_eq val w pg' :
  page_store (lm_currentpos (logm w)) val (lm_mypage (logm w)) = (pg', Ok tt) ->
  LogMgr.__append_val val w =
    (log_page_state w pg' (lm_currentpos (logm w) + LogMgr.__size val), Ok tt).
Proof.
  unfold LogMgr.__append_val, LogMgr.on_mypage, LogMgr.set_currentpos,
    bind, get, zoom, modify.
  destruct val as [n|s]; cbn [page_store]; intros ->; reflexivity.
Qed.

Lemma LogMgr_append_vals_eq vals : forall w pg',
  store_all (lm_currentpos (logm w)) vals (lm_mypage (logm w)) = (pg', Ok tt) ->
  for_each vals LogMgr.__append_val w =
    (log_page_state w pg' (lm_currentpos (logm w) + sizes vals), Ok tt).
Proof.
  induction vals as [|v vals IH]; intros w pg'; cbn [store_all for_each].
  - intros [= <-]. cbn. by rewrite Z.add_0_r, log_page_state_id.
  - intros ([] & pg1 & H1 & H)%bind_ok_inv.
    erewrite bind_ok by (by apply LogMgr_append_val_eq).
    rewrite (IH _ pg') by exact H.
    unfold log_page_state. cbn. fold (sizes vals). by rewrite Z.add_assoc.
Qed.

Lemma LogMgr_finalize_record_eq w last pg1 pg2 :
  unpack_from Fmt_i (lm_mypage (logm w)) LAST_POS = Ok last ->
  page_store (lm_currentpos (logm w)) (VInt last) (lm_mypage (logm w)) = (pg1, Ok tt) ->
  page_store LAST_POS (VInt (lm_currentpos (logm w))) pg1 = (pg2, Ok tt) ->
  LogMgr.__finalize_record w = (log_page_state w pg2 (lm_currentpos (logm w) + 4), Ok tt).
Proof.
  cbn [page_store]. intros Hl H1 H2.
  unfold LogMgr.__finalize_record, LogMgr.__get_last_record_position,
    LogMgr.__set_last_record_position, LogMgr.on_mypage, LogMgr.set_currentpos,
    bind, get, zoom, modify.
  unfold MaxPage.get_int, Page.get_int, Page.get_ at 1.
  rewrite Hl. cbn [logm set_logm lm_mypage lm_currentpos]. rewrite H1.
  cbn [logm set_logm lm_mypage lm_currentpos]. rewrite H2. reflexivity.
Qed.

Lemma LogMgr_append_body_total w rec :
  log_wf w ->
  lm_currentpos (logm w) + LogMgr.recsize rec <= BLOCK_SIZE ->
  Forall value_ok rec ->
  exists w2, (for_each rec LogMgr.__append_val ;; LogMgr.__finalize_record) w = (w2, Ok tt).
Proof.
  intros (Hlen & Hnum & Hpos & Htail) Hfit Hok.
  rewrite recsize_sizes in Hfit. unfold BLOCK_SIZE in *.
  pose proof (sizes_nonneg rec) as Hsz.
  destruct (store_all_total rec (lm_currentpos (logm w)) (lm_mypage (logm w)) Hok)
    as [pg1 Hst]; [unfold BLOCK_SIZE; lia..|].
  pose proof (store_all_stored rec (lm_currentpos (logm w)) (lm_mypage (logm w)) pg1
                ltac:(lia) ltac:(lia) Hst) as (Hl1 & _ & Hf1).
  erewrite bind_ok by (by apply LogMgr_append_vals_eq).
  set (p := lm_currentpos (logm w)) in *.
  assert (Hlast : unpack_from Fmt_i pg1 LAST_POS = Ok (p - 4)).
  { unfold unpack_from in *. rewrite Hl1.
    destruct (struct_offset _ _ LAST_POS) as [off|] eqn:Ho; [|discriminate].
    unfold LAST_POS in Ho. rewrite struct_offset_fits in Ho by (simpl in *; lia).
    injection Ho as <-. cbn [res_bind] in *.
    pose proof (Hf1 0 4%nat ltac:(lia) ltac:(lia)) as Hb0. unfold bytes_at in Hb0.
    change (fmt_size Fmt_i) with 4%nat in *. by rewrite Hb0. }
  destruct (page_store_total (p + sizes rec) (VInt (p - 4)) pg1) as [pg2 H2];
    [unfold value_ok; change (fmt_min Fmt_i) with (-2147483648);
     change (fmt_max Fmt_i) with 2147483647; lia
    | lia
    | cbn; change MaxPage.INT_SIZE with 4; lia
    | unfold BLOCK_SIZE; lia |].
  pose proof (page_store_stored (p + sizes rec) (VInt (p - 4)) pg1 pg2 ltac:(lia)
    ltac:(cbn; change MaxPage.INT_SIZE with 4; lia) H2) as (Hl2 & _).
  destruct (page_store_total LAST_POS (VInt (p + sizes rec)) pg2) as [pg3 H3];
    [unfold value_ok; change (fmt_min Fmt_i) with (-2147483648);
     change (fmt_max Fmt_i) with 2147483647; lia
    | unfold LAST_POS; lia
    | unfold LAST_POS; cbn; change MaxPage.INT_SIZE with 4; lia
    | unfold BLOCK_SIZE; lia |].
  eexists. eapply LogMgr_finalize_record_eq; cbn [log_page_state logm set_logm lm_mypage
    lm_currentpos]; eassumption.
Qed.

Lemma FileMgr_size_total filename w :
  exists w' n, FileMgr.size filename w = (w', Ok n) /\ 0 <= n /\ logm w' = logm w.
Proof.
  destruct (FileMgr.size filename w) as [w' [n|e]] eqn:H.
  - exists w', n. split; [done|]. split; [by eapply FileMgr_size_ok|by eapply FileMgr_size_logm].
  - exfalso. unfold FileMgr.size, FileMgr.get_file, bind, get, put, ret in H.
    by destruct (fm_files (fm w) !! filename).
Qed.

Lemma LogMgr_append_new_block_total w :
  exists w1, LogMgr.__append_new_block w = (w1, Ok tt).
Proof.
  unfold LogMgr.__append_new_block.
  erewrite bind_ok by reflexivity.
  erewrite bind_ok.
  2:{ unfold LogMgr.__set_last_record_position, LogMgr.on_mypage, zoom.
      cbn [logm set_logm lm_mypage].
      change (MaxPage.set_int LAST_POS 0 Page.new) with (Page.new, @Ok unit tt).
      reflexivity. }
  erewrite bind_ok by reflexivity.
  match goal with |- context [bind (MaxPage.append ?f ?pg) ?k ?w] =>
    destruct (FileMgr_size_total f w) as (ws & n & Hs & Hn & _) end.
  unfold MaxPage.append, FileMgr.append.
  erewrite bind_ok.
  2:{ erewrite bind_ok by exact Hs. erewrite bind_ok by (by apply FileMgr_write_eq).
      reflexivity. }
  unfold LogMgr.set_currentblk, LogMgr.set_currentpos, bind, modify. eauto.
Qed.

(** [LogMgr.append] returns when the record and its trailer fit in a
    block after the tail pointer and its values can be packed. *)
Lemma LogMgr_append_total rec w :
  log_wf w ->
  LogMgr.recsize rec + 4 <= BLOCK_SIZE ->
  Forall value_ok rec ->
  exists w' lsn, LogMgr.append rec w = (w', Ok lsn).
Proof.
  intros Hwf Hfit Hok. unfold LogMgr.append.
  unfold assert at 1. unfold MaxPage.BLOCK_SIZE at 1.
  destruct (Z.leb_spec (LogMgr.recsize rec) BLOCK_SIZE) as [_|]; [|lia].
  erewrite bind_ok by reflexivity. erewrite bind_ok by reflexivity.
  assert (Hsw : exists s3,
    (if lm_currentpos (logm w) + LogMgr.recsize rec >=? MaxPage.BLOCK_SIZE
     then LogMgr.__flush ;; LogMgr.__append_new_block else ret tt) w = (s3, Ok tt) /\
    log_wf s3 /\ lm_currentpos (logm s3) + LogMgr.recsize rec <= BLOCK_SIZE).
  { destruct (Z.geb_spec (lm_currentpos (logm w) + LogMgr.recsize rec) MaxPage.BLOCK_SIZE)
      as [Hge|Hlt].
    - assert (Hfl : LogMgr.__flush w =
                    (written (lm_currentblk (logm w)) (lm_mypage (logm w)) w, Ok tt)).
      { unfold LogMgr.__flush, MaxPage.write, bind, get.
        apply FileMgr_write_eq, Hwf. }
      destruct (LogMgr_append_new_block_total
                  (written (lm_currentblk (logm w)) (lm_mypage (logm w)) w)) as [s3 H3].
      exists s3. split; [by erewrite bind_ok by exact Hfl|].
      apply LogMgr_append_new_block_ok in H3 as [Hwf3 Hpos]. split; [done|].
      rewrite Hpos. lia.
    - exists w. split; [done|]. split; [done|]. unfold MaxPage.BLOCK_SIZE in Hlt. lia. }
  destruct Hsw as (s3 & Hsw & Hwf3 & Hfit3).
  erewrite bind_ok by exact Hsw.
  destruct (LogMgr_append_body_total s3 rec Hwf3 Hfit3 Hok) as [s5 Hbody].
  apply bind_ok_inv in Hbody as ([] & s4 & E4 & E5).
  erewrite bind_ok by exact E4. erewrite bind_ok by exact E5.
  unfold LogMgr.__current_lsn, bind, get, ret, modify. eauto.
Qed.

(** ** When an append starts a new block *)

Lemma FileMgr_write_trace blk bb w w' :
  FileMgr.write blk bb w = (w', Ok tt) -> trace w' = trace w ++ [EvWrite blk bb].
Proof.
  unfold FileMgr.write, FileMgr.get_file, FileMgr.put_file, bind, get, put, modify, ret, raise.
  destruct (fm_files (fm w) !! file_name blk); destruct (number blk <? 0);
    intros [= <-]; reflexivity.
Qed.

Lemma FileMgr_size_trace filename w w' r :
  FileMgr.size filename w = (w', r) -> trace w' = trace w.
Proof.
  unfold FileMgr.size, FileMgr.get_file, bind, get, put, ret.
  destruct (fm_files (fm w) !! filename); intros [= <- <-]; reflexivity.
Qed.

Lemma LogMgr_append_new_block_trace w w1 :
  LogMgr.__append_new_block w = (w1, Ok tt) ->
  trace w1 = trace w ++ [EvWrite (lm_currentblk (logm w1)) Page.new] /\
  file_name (lm_currentblk (logm w1)) = lm_logfile (logm w) /\
  lm_mypage (logm w1) = Page.new.
Proof.
  unfold LogMgr.__append_new_block.
  intros ([] & s1 & E1 & H)%bind_ok_inv.
  unfold LogMgr.on_mypage, zoom, MaxPage.clear_contents, Page.clear, put in E1.
  injection E1 as <-.
  apply bind_ok_inv in H as ([] & s2 & E2 & H).
  unfold LogMgr.__set_last_record_position, LogMgr.on_mypage, zoom in E2.
  cbn [logm set_logm lm_mypage] in E2.
  change (MaxPage.set_int LAST_POS 0 Page.new) with (Page.new, @Ok unit tt) in E2.
  injection E2 as <-.
  apply bind_ok_inv in H as (w0 & s3 & E3 & H). injection E3 as <- <-.
  apply bind_ok_inv in H as (blk & s4 & E4 & H).
  unfold MaxPage.append, FileMgr.append in E4.
  apply bind_ok_inv in E4 as (n & s5 & E5 & E4).
  apply FileMgr_size_trace in E5 as Ht5.
  apply bind_ok_inv in E4 as ([] & s6 & E6 & E4).
  apply FileMgr_write_trace in E6 as Ht6.
  apply FileMgr_write_logm in E6 as Hl6.
  apply FileMgr_size_logm in E5 as Hl5.
  injection E4 as <- <-.
  unfold LogMgr.set_currentblk, LogMgr.set_currentpos, bind, modify in H.
  injection H as <-.
  cbn [logm set_logm lm_mypage lm_currentblk trace file_name] in *.
  rewrite Ht6, Ht5, Hl6, Hl5. cbn [logm set_logm lm_mypage lm_currentblk trace file_name].
  done.
Qed.

(** An append that returns has started a new block exactly when the
    current position plus the size of the record reached the block
    size; it then wrote the block it leaves to disk first. *)
Lemma LogMgr_append_new_block_iff rec w w' lsn :
  log_wf w ->
  LogMgr.recsize rec + 4 <= BLOCK_SIZE ->
  LogMgr.append rec w = (w', Ok lsn) ->
  lsn = number (lm_currentblk (logm w')) /\
  if lm_currentpos (logm w) + LogMgr.recsize rec >=? BLOCK_SIZE then
    trace w' = trace w ++ [EvWrite (lm_currentblk (logm w)) (lm_mypage (logm w));
                           EvWrite (lm_currentblk (logm w')) Page.new;
                           EvAppend rec lsn]
  else
    lm_currentblk (logm w') = lm_currentblk (logm w) /\
    trace w' = trace w ++ [EvAppend rec lsn].
Proof.
  intros Hwf Hfit. unfold LogMgr.append.
  intros ([] & s1 & E1 & H)%bind_ok_inv.
  unfold assert in E1. destruct (_ <=? _); [|discriminate]. injection E1 as <-.
  apply bind_ok_inv in H as (w0 & s2 & E2 & H). injection E2 as <- <-.
  apply bind_ok_inv in H as ([] & s3 & E3 & H).
  assert (Hbody : exists s5, (for_each rec LogMgr.__append_val ;; LogMgr.__finalize_record) s3
                               = (s5, Ok tt) /\
                             w' = emit (EvAppend rec lsn) s5 /\
                             lsn = number (lm_currentblk (logm s5))).
  { apply bind_ok_inv in H as ([] & s4 & E4 & H).
    apply bind_ok_inv in H as ([] & s5 & E5 & H).
    apply bind_ok_inv in H as (lsn' & s6 & E6 & H). injection E6 as <- <-.
    apply bind_ok_inv in H as ([] & s7 & E7 & H). injection E7 as <-.
    injection H as <- <-.
    exists s5. split; [|done]. by erewrite bind_ok by exact E4. }
  destruct Hbody as (s5 & Hbody & -> & ->). clear H.
  change MaxPage.BLOCK_SIZE with BLOCK_SIZE in E3.
  split; [reflexivity|].
  destruct (Z.geb_spec (lm_currentpos (logm w) + LogMgr.recsize rec) BLOCK_SIZE)
    as [Hge|Hlt].
  - apply bind_ok_inv in E3 as ([] & s & Efl & E3).
    assert (s = written (lm_currentblk (logm w)) (lm_mypage (logm w)) w) as ->.
    { unfold LogMgr.__flush, MaxPage.write, bind, get in Efl.
      rewrite FileMgr_write_eq in Efl by apply Hwf. by injection Efl. }
    pose proof (LogMgr_append_new_block_ok _ _ E3) as [Hwf3 Hpos].
    apply LogMgr_append_new_block_trace in E3 as (Htr & _ & _).
    assert (Hfit3 : lm_currentpos (logm s3) + LogMgr.recsize rec <= BLOCK_SIZE)
      by (rewrite Hpos; lia).
    destruct (LogMgr_append_body _ _ _ Hwf3 Hfit3 Hbody) as (_ & _ & _ & _ & Hs5).
    rewrite Hs5. cbn [emit log_page_state set_logm trace logm lm_currentblk].
    rewrite Htr, trace_written. by rewrite <- !app_assoc.
  - injection E3 as <-.
    assert (Hfit3 : lm_currentpos (logm w) + LogMgr.recsize rec <= BLOCK_SIZE) by lia.
    destruct (LogMgr_append_body _ _ _ Hwf Hfit3 Hbody) as (_ & _ & _ & _ & Hs5).
    rewrite Hs5. by cbn [emit log_page_state set_logm trace logm lm_currentblk].
Qed.

(** ** The log manager when the server starts *)

Lemma length_file_readinto d pos bb : length (FileMgr.file_readinto d pos bb) = length bb.
Proof.
  unfold FileMgr.file_readinto. rewrite length_app, length_drop, length_take. lia.
Qed.

Lemma FileMgr_read_ok blk bb w w' pg :
  FileMgr.read blk bb w = (w', Ok pg) -> length pg = length bb /\ logm w' = logm w.
Proof.
  unfold FileMgr.read, FileMgr.get_file, bind, get, put, ret, raise.
  destruct (fm_files (fm w) !! file_name blk); destruct (number blk <? 0);
    intros [= <- <-]; by rewrite length_file_readinto.
Qed.

(** A log manager that has been created on a log whose last block has
    a tail pointer that is not negative is between two appends. *)
Lemma LogMgr_init_wf logfile w w' :
  LogMgr.init logfile w = (w', Ok tt) ->
  4 <= lm_currentpos (logm w') -> log_wf w'.
Proof.
  unfold LogMgr.init.
  intros ([] & s1 & E1 & H)%bind_ok_inv. injection E1 as <-.
  apply bind_ok_inv in H as (logsize & s2 & E2 & H).
  pose proof (FileMgr_size_ok _ _ _ _ E2) as Hsize.
  apply FileMgr_size_logm in E2 as Hl2. cbn [logm set_logm] in Hl2.
  destruct (Z.eqb_spec logsize 0) as [_|Hne].
  { intros _. by apply LogMgr_append_new_block_ok in H as [H _]. }
  apply bind_ok_inv in H as ([] & s3 & E3 & H).
  unfold LogMgr.set_currentblk, modify in E3. injection E3 as <-.
  apply bind_ok_inv in H as (w0 & s4 & E4 & H). injection E4 as <- <-.
  apply bind_ok_inv in H as (pg & s5 & E5 & H).
  unfold MaxPage.read in E5. apply FileMgr_read_ok in E5 as [Hpg Hl5].
  cbn [logm set_logm lm_mypage] in Hpg, Hl5. rewrite Hl2 in Hpg, Hl5.
  cbn [lm_mypage lm_logfile lm_currentpos] in Hpg, Hl5.
  apply bind_ok_inv in H as ([] & s6 & E6 & H).
  unfold LogMgr.on_mypage, zoom, put in E6. injection E6 as <-.
  apply bind_ok_inv in H as (last & s7 & E7 & H).
  unfold LogMgr.__get_last_record_position, LogMgr.on_mypage, zoom in E7.
  unfold MaxPage.get_int, Page.get_int, Page.get_ in E7.
  cbn [logm set_logm lm_mypage] in E7.
  destruct (unpack_from Fmt_i pg LAST_POS) as [last'|] eqn:Hlast; [|discriminate].
  injection E7 as <- <-.
  unfold LogMgr.set_currentpos, modify in H. injection H as <-.
  unfold log_wf. cbn [logm set_logm lm_mypage lm_currentpos lm_currentblk].
  rewrite Hl5. cbn [lm_mypage lm_currentpos lm_currentblk number].
  intros Hpos. change MaxPage.INT_SIZE with 4 in *.
  split; [by rewrite Hpg|]. split; [lia|]. split; [done|].
  rewrite Hlast. f_equal. lia.
Qed.

(** ** Flushing on success *)

Lemma FileMgr_write_ok_inv blk bb w w' :
  FileMgr.write blk bb w = (w', Ok tt) -> 0 <= number blk /\ w' = written blk bb w.
Proof.
  intros H. destruct (Z_lt_le_dec (number blk) 0) as [Hneg|Hnn].
  - pose proof (FileMgr_write_neg blk bb w Hneg) as Hr. rewrite H in Hr. discriminate.
  - rewrite FileMgr_write_eq in H by done. by injection H as <-.
Qed.

Lemma MaxPage_write_ok_inv blk bb w w' :
  MaxPage.write blk bb w = (w', Ok tt) ->
  exists b, blk = Some b /\ 0 <= number b /\ w' = written b bb w.
Proof.
  destruct blk as [b|]; [|discriminate]. simpl.
  intros [? ?]%FileMgr_write_ok_inv. eauto.
Qed.

Lemma LogMgr_flush_ok_inv lsn w w' :
  LogMgr.flush lsn w = (w', Ok tt) ->
  w' = if lsn >=? number (lm_currentblk (logm w))
       then written (lm_currentblk (logm w)) (lm_mypage (logm w)) w else w.
Proof.
  unfold LogMgr.flush, LogMgr.__current_lsn, LogMgr.__flush, bind, get, ret.
  destruct (lsn >=? number (lm_currentblk (logm w))).
  - by intros (b & [= <-] & _ & ->)%MaxPage_write_ok_inv.
  - by intros [= <-].
Qed.

Lemma BufferSlot_flush_ok_inv i b w w' :
  bufferpool (bm w) !! i = Some b ->
  0 < bs_modified_by b ->
  BufferSlot.flush i w = (w', Ok tt) ->
  exists blk w1,
    bs_blk b = Some blk /\
    w1 = written blk (bs_contents b) (run (LogMgr.flush (bs_log_sequence_number b)) w) /\
    w' = with_slot i (BufferSlot.set_modified_by (-1) b) w1 /\
    trace w1 = trace w ++ flush_events w b /\
    logm w1 = logm w /\ bm w1 = bm w /\ txs w1 = txs w /\ next_tx_num w1 = next_tx_num w.
Proof.
  intros H Hd. unfold BufferSlot.flush.
  erewrite bind_ok by (by apply BufferSlot_self_eq).
  destruct (Z.gtb_spec (bs_modified_by b) 0); [|lia].
  intros Hf.
  apply bind_ok_inv in Hf as ([] & s1 & E1 & Hf).
  apply bind_ok_inv in Hf as ([] & s2 & E2 & Hf).
  pose proof (LogMgr_flush_ok_inv _ _ _ E1) as Hs1.
  apply MaxPage_write_ok_inv in E2 as (blk & Hblk & Hn & ->).
  assert (Hbm : bm s1 = bm w) by (subst s1; by destruct (_ >=? _)).
  rewrite (BufferSlot_update_eq i _ b) in Hf by (by rewrite bm_written, Hbm).
  injection Hf as <-.
  exists blk, (written blk (bs_contents b) s1).
  unfold run. rewrite E1. cbn [fst].
  repeat split; try done.
  - unfold flush_events. rewrite Hblk, trace_written. subst s1.
    destruct (_ >=? _); [|done]. by rewrite trace_written, <- app_assoc.
  - subst s1. by destruct (_ >=? _).
  - subst s1. by destruct (_ >=? _).
  - subst s1. by destruct (_ >=? _).
Qed.





(** ** Committing *)


Lemma on_concur_mgr_ok {A} t tx (m : ST PageLockMgr A) w w' a :
  txs w !! t = Some tx ->
  TxObj.on_concur_mgr t m w = (w', Ok a) ->
  exists c,
    m (tx_concur_mgr tx) = (c, Ok a) /\
    w' = set_txs (<[t := {| tx_txnum := tx_txnum tx; tx_concur_mgr := c;
                            tx_my_buffers := tx_my_buffers tx |}]> (txs w)) w.
Proof.
  intros Htx. unfold TxObj.on_concur_mgr, TxObj.self, bind, get, ret, modify, lift.
  rewrite Htx. destruct (m (tx_concur_mgr tx)) as [c [a'|e]]; [|discriminate].
  intros [= <- <-]. eauto.
Qed.







(** C4: a commit does not flush every buffer its transaction has
    modified.  Transaction 1 writes 7 at offset 80 of block 0 of T and
    transaction 2 then writes 9 at offset 84 of the same buffer, which
    is left stamped with 2, its last writer.  The commit of
    transaction 1 returns having written nothing but the log: its
    events are the COMMIT record, the write of the log block, the
    unlock and the unpin.  The file of T has no byte, and what the
    block holds at offset 80 on disk reads as 0; after a restart and
    the recovery, a new transaction reads 0 there, not the 7 that was
    committed. *)
Theorem C4_commit_leaves_modified_buffer_unflushed :
  result two_writers_run (SimpleDB.boot None) = Ok tt /\
  map (fun b => (bs_blk b, bs_modified_by b, snd (Page.get_int 80 (bs_contents b))))
      (take 1 (bufferpool (bm two_writers))) = [(Some blk_T0, 2, Ok 7)] /\
  result (Transaction.commit 1) two_writers = Ok tt /\
  drop (length (trace two_writers)) (trace first_committed) =
    [EvAppend [VInt LogRecord.COMMIT; VInt 1] 0;
     EvWrite (lm_currentblk (logm first_committed)) (lm_mypage (logm first_committed));
     EvUnlock blk_T0; EvUnpin 0] /\
  FileMgr.file_data (fm first_committed) (file_name blk_T0) = [] /\
  disk_int first_committed blk_T0 80 = Ok 0 /\
  result read_after_restart (SimpleDB.restart first_committed) = Ok 0.
Proof. vm_compute. auto 10. Qed.

(** C5: when the recovery manager is told of a write to a buffer bound
    to a block, with [old] the value the buffer holds at the offset:
    for a block of a file whose name begins with "temp" nothing is
    appended to the log and -1 is returned; otherwise the call returns
    when the values of the update record that saves [old] can be packed,
    and when it has returned, the record appended is that update record,
    whatever the new value, the LSN returned is the number of the log
    block the record is in, and the recovery manager reads the record
    back as the newest record of the log. The log manager is taken
    between two appends and the record, with its trailer, to fit in a
    block after the tail pointer. *)
Theorem C5_undo_image_logged (w : World) (txnum : Z) (i : nat) (b : BufferSlot)
    (blk : Block) (offset : Z) (x old : value) :
  bufferpool (bm w) !! i = Some b ->
  bs_blk b = Some blk ->
  snd (page_load x offset (bs_contents b)) = Ok old ->
  let record := undo_record txnum blk offset old in
  if startswith (file_name blk) (py "temp") then
    recovery_write txnum i offset x w = (w, Ok (-1))
  else
    log_wf w ->
    LogMgr.recsize (LogRecord.rec record) + 4 <= BLOCK_SIZE ->
    (Forall value_ok (LogRecord.rec record) ->
     exists w' lsn, recovery_write txnum i offset x w = (w', Ok lsn)) /\
    forall w' lsn,
      recovery_write txnum i offset x w = (w', Ok lsn) ->
      (exists w1, only_writes w w1 /\ w' = emit (EvAppend (LogRecord.rec record) lsn) w1) /\
      lsn = number (lm_currentblk (logm w')) /\
      log_wf w' /\
      result newest_record w' = Ok (Some record).
Proof.
  intros H Hb Hold record.
  rewrite (recovery_write_eq txnum i b blk offset x old w H Hb Hold).
  destruct (startswith _ _); [reflexivity|].
  intros Hwf Hfit. split.
  - intros Hok. by apply LogMgr_append_total.
  - intros w' lsn Happ.
    destruct (LogMgr_append_read_back record w w' lsn Hwf Hfit Happ) as [Hwf' Hback].
    apply LogMgr_append_ok in Happ as (w1 & H1 & -> & ->).
    split; [by exists w1|]. done.
Qed.

Lemma C5_undo_image_logged_witness :
  let w' := run (recovery_write 1 0 80 (VInt 9)) dirty_world in
  (exists w1, only_writes dirty_world w1 /\
     w' = emit (EvAppend (LogRecord.rec (SetIntRecord 1 blk_T0 80 7)) 0) w1) /\
  0 = number (lm_currentblk (logm w')) /\
  log_wf w' /\
  result newest_record w' = Ok (Some (SetIntRecord 1 blk_T0 80 7)).
Proof.
  assert (Hwf : log_wf dirty_world).
  { repeat split; vm_compute; (reflexivity || discriminate). }
  assert (Hfit : LogMgr.recsize (LogRecord.rec (SetIntRecord 1 blk_T0 80 7)) + 4
                 <= BLOCK_SIZE).
  { vm_compute. discriminate. }
  refine (proj2 (C5_undo_image_logged dirty_world 1 0 dirty_slot blk_T0 80 (VInt 9) (VInt 7)
            _ _ _ Hwf Hfit) (run (recovery_write 1 0 80 (VInt 9)) dirty_world) 0 _);
    vm_compute; reflexivity.
Defined.

Lemma recovery_write_temp_returns_sentinel :
  let blk := {| file_name := py "temp1"; number := 0 |} in
  let w := run (SimpleDB.init_file_log_and_buffer_mgr ;;
                t <- Transaction.init ;; Transaction.pin t blk) (SimpleDB.boot None) in
  result (recovery_write 1 0 80 (VInt 9)) w = Ok (-1) /\
  trace (run (recovery_write 1 0 80 (VInt 9)) w) = trace w.
Proof. vm_compute. done. Qed.

(** * Further properties of the code *)

(** ** The file manager: blocks of a file *)

Lemma file_write_lookup (d bb : list Z) (pos j : nat) :
  file_write_at d bb pos j = FileMgr.file_write d pos bb !! j.
Proof.
  unfold file_write_at, FileMgr.file_write.
  destruct (decide (j < pos)%nat) as [Hlt|Hge].
  - rewrite lookup_app_l by (rewrite length_take, length_app, length_replicate; lia).
    rewrite lookup_take_lt by done.
    destruct (decide (j < length d)%nat) as [Hd|Hd].
    + rewrite lookup_app_l by done.
      destruct (d !! j) eqn:E; [done|]. apply lookup_ge_None in E. lia.
    + rewrite lookup_app_r by lia. rewrite lookup_replicate_2 by lia.
      by rewrite (lookup_ge_None_2 d j) by lia.
  - rewrite lookup_app_r by (rewrite length_take, length_app, length_replicate; lia).
    rewrite length_take, length_app, length_replicate.
    replace (pos `min` (length d + (pos - length d)))%nat with pos by lia.
    destruct (decide (j < pos + length bb)%nat) as [Hb|Hb].
    + by rewrite lookup_app_l by lia.
    + rewrite lookup_app_r by lia. rewrite lookup_drop. f_equal. lia.
Qed.

Lemma file_readinto_lookup (d bb : list Z) (pos i : nat) :
  FileMgr.file_readinto d pos bb !! i =
    if decide (i < length bb)%nat
    then match d !! (pos + i)%nat with Some b => Some b | None => bb !! i end
    else None.
Proof.
  unfold FileMgr.file_readinto.
  set (got := take (length bb) (drop pos d)).
  assert (Hgot : length got = (length bb `min` (length d - pos))%nat).
  { subst got. by rewrite length_take, length_drop. }
  destruct (decide (i < length bb)%nat) as [Hi|Hi].
  - destruct (decide (i < length got)%nat) as [Hg|Hg].
    + rewrite lookup_app_l by done. subst got.
      rewrite lookup_take_lt by done. rewrite lookup_drop.
      destruct (d !! (pos + i)%nat) eqn:E; [done|]. apply lookup_ge_None in E. lia.
    + rewrite lookup_app_r by lia. rewrite lookup_drop.
      replace (length got + (i - length got))%nat with i by lia.
      by rewrite (lookup_ge_None_2 d (pos + i)) by lia.
  - apply lookup_ge_None_2. rewrite length_app, length_drop. lia.
Qed.

Lemma file_read_back (d bb bb2 : list Z) (pos : nat) :
  length bb2 = length bb ->
  FileMgr.file_readinto (FileMgr.file_write d pos bb) pos bb2 = bb.
Proof.
  intros Hl. apply list_eq. intros i. rewrite file_readinto_lookup, <- file_write_lookup.
  unfold file_write_at. rewrite Hl.
  destruct (decide (i < length bb)%nat) as [Hi|Hi].
  - destruct (decide (pos + i < pos)%nat); [lia|].
    destruct (decide (pos + i < pos + length bb)%nat); [|lia].
    replace (pos + i - pos)%nat with i by lia.
    destruct (bb !! i) eqn:E; [done|]. apply lookup_ge_None in E. lia.
  - symmetry. apply lookup_ge_None_2. lia.
Qed.

Lemma file_read_other (d bb : list Z) (k k' : nat) :
  length bb = Z.to_nat BLOCK_SIZE -> k' <> k ->
  FileMgr.file_readinto (FileMgr.file_write d (Z.to_nat BLOCK_SIZE * k) bb)
    (Z.to_nat BLOCK_SIZE * k') Page.new
  = FileMgr.file_readinto d (Z.to_nat BLOCK_SIZE * k') Page.new.
Proof.
  intros Hl Hk. apply list_eq. intros i. rewrite !file_readinto_lookup, <- file_write_lookup.
  unfold file_write_at. rewrite Hl.
  assert (Hnew : length Page.new = Z.to_nat BLOCK_SIZE) by reflexivity. rewrite Hnew.
  destruct (decide (i < Z.to_nat BLOCK_SIZE)%nat) as [Hi|Hi]; [|done].
  assert (Hz : Page.new !! i = Some 0).
  { unfold Page.new. by rewrite lookup_replicate_2. }
  set (B := Z.to_nat BLOCK_SIZE) in *.
  destruct (decide (k' < k)%nat) as [Hlt|Hgt].
  - destruct (decide (B * k' + i < B * k)%nat); [|nia].
    rewrite Hz. by destruct (d !! (B * k' + i)%nat).
  - destruct (decide (B * k' + i < B * k)%nat); [nia|].
    destruct (decide (B * k' + i < B * k + B)%nat); [nia|]. done.
Qed.

Lemma FileMgr_read_result blk bb w :
  0 <= number blk ->
  result (FileMgr.read blk bb) w =
    Ok (FileMgr.file_readinto (FileMgr.file_data (fm w) (file_name blk))
          (Z.to_nat (BLOCK_SIZE * number blk)) bb).
Proof.
  intros Hn. unfold result, FileMgr.read, FileMgr.get_file, FileMgr.file_data,
    bind, get, put, ret.
  destruct (fm_files (fm w) !! file_name blk); cbn;
    by destruct (Z.ltb_spec (number blk) 0); [lia|].
Qed.

Lemma on_disk_written_other blk blk' bb w :
  length bb = Z.to_nat BLOCK_SIZE -> 0 <= number blk -> 0 <= number blk' ->
  blk' <> blk -> on_disk (written blk bb w) blk' = on_disk w blk'.
Proof.
  intros Hl Hn Hn' Hne. unfold on_disk, written, FileMgr.file_data. cbn.
  destruct (decide (file_name blk' = file_name blk)) as [Hf|Hf].
  - rewrite Hf, lookup_insert_eq. cbn.
    rewrite !Z2Nat.inj_mul by (unfold BLOCK_SIZE; lia).
    apply file_read_other; [done|].
    intros E. apply Hne. destruct blk, blk'; cbn in *. f_equal; [done|lia].
  - by rewrite lookup_insert_ne by done.
Qed.

(** X1: a block written by the file manager is what a read of that
    block returns, whatever the buffer read into held; and the write of
    a whole page leaves every other block, of this file or another, as
    a read into a fresh page finds it. *)
Theorem X1_write_then_read (w : World) (blk : Block) (bb : list Z) :
  0 <= number blk ->
  let w1 := run (FileMgr.write blk bb) w in
  result (FileMgr.write blk bb) w = Ok tt /\
  (forall bb2, length bb2 = length bb -> FileMgr.read blk bb2 w1 = (w1, Ok bb)) /\
  (length bb = Z.to_nat BLOCK_SIZE ->
   forall blk', blk' <> blk -> 0 <= number blk' -> on_disk w1 blk' = on_disk w blk').
Proof.
  intros Hn w1. subst w1. unfold run, result. rewrite (FileMgr_write_eq _ _ _ Hn). cbn [fst snd].
  split; [done|]. split.
  - intros bb2 Hl. erewrite FileMgr_read_eq; [|done|unfold written; cbn; apply lookup_insert_eq].
    by rewrite file_read_back.
  - intros Hl blk' Hne Hn'. by apply on_disk_written_other.
Qed.

Lemma X1_write_then_read_witness :
  let page := 7 :: replicate 399 0 in
  let w1 := run (FileMgr.write blk_T1 page) (SimpleDB.boot None) in
  result (FileMgr.write blk_T1 page) (SimpleDB.boot None) = Ok tt /\
  (forall bb2, length bb2 = length page -> FileMgr.read blk_T1 bb2 w1 = (w1, Ok page)) /\
  (length page = Z.to_nat BLOCK_SIZE ->
   forall blk', blk' <> blk_T1 -> 0 <= number blk' ->
     on_disk w1 blk' = on_disk (SimpleDB.boot None) blk').
Proof.
  apply (X1_write_then_read (SimpleDB.boot None) blk_T1 (7 :: replicate 399 0)).
  vm_compute. discriminate.
Defined.

(** X2: [FileMgr.append] puts the page after the last block of the
    file: the block it returns has the number of blocks the file had,
    the file then has one block more, the new block holds the page and
    the blocks the file had are as they were.  A file that does not
    exist counts as empty. *)
Theorem X2_append_extends_file (w : World) (filename : str) (bb : list Z) :
  length bb = Z.to_nat BLOCK_SIZE ->
  exists n w',
    result (FileMgr.size filename) w = Ok n /\ 0 <= n /\
    FileMgr.append filename bb w = (w', Ok {| file_name := filename; number := n |}) /\
    result (FileMgr.size filename) w' = Ok (n + 1) /\
    on_disk w' {| file_name := filename; number := n |} = bb /\
    forall k, 0 <= k < n ->
      on_disk w' {| file_name := filename; number := k |}
      = on_disk w {| file_name := filename; number := k |}.
Proof.
  intros Hl.
  destruct (FileMgr_size_total filename w) as (ws & n & Hs & Hn & _).
  set (blk := {| file_name := filename; number := n |}).
  exists n, (written blk bb ws).
  assert (Hws : fm_files (fm ws) !! filename
                = Some (FileMgr.file_data (fm w) filename) /\ bm ws = bm w /\
                (Z.of_nat (length (FileMgr.file_data (fm w) filename)) + BLOCK_SIZE - 1)
                  / BLOCK_SIZE = n).
  { unfold FileMgr.size, FileMgr.get_file, FileMgr.file_data, bind, get, put, ret in *.
    destruct (fm_files (fm w) !! filename) eqn:E; injection Hs as <- <-; cbn.
    - by rewrite E.
    - by rewrite lookup_insert_eq. }
  destruct Hws as (Hd & _ & Hsz).
  assert (Hdata : FileMgr.file_data (fm ws) filename = FileMgr.file_data (fm w) filename).
  { unfold FileMgr.file_data at 1. by rewrite Hd. }
  split; [unfold result; by rewrite Hs|]. split; [done|]. split.
  { unfold FileMgr.append. erewrite bind_ok by exact Hs.
    erewrite bind_ok by (by apply FileMgr_write_eq). done. }
  set (d := FileMgr.file_data (fm w) filename) in *.
  assert (Hpos : (length d <= Z.to_nat (BLOCK_SIZE * n))%nat).
  { unfold BLOCK_SIZE in *.
    pose proof (Z.div_mod (Z.of_nat (length d) + 400 - 1) 400 ltac:(lia)) as Hdm.
    pose proof (Z.mod_pos_bound (Z.of_nat (length d) + 400 - 1) 400 ltac:(lia)). lia. }
  split; [|split].
  - unfold result, FileMgr.size, FileMgr.get_file, bind, get, ret, written.
    cbn. rewrite lookup_insert_eq. cbn. f_equal.
    rewrite Hdata. fold d. unfold FileMgr.file_write.
    rewrite !length_app, length_take, length_app, length_replicate, length_drop, Hl.
    unfold BLOCK_SIZE in *.
    replace (Z.of_nat (Z.to_nat (400 * n) `min` (length d + (Z.to_nat (400 * n) - length d))
               + (Z.to_nat 400 + (length d - (Z.to_nat (400 * n) + Z.to_nat 400)))) + 400 - 1)
      with (399 + (n + 1) * 400) by lia.
    rewrite Z.div_add by lia. reflexivity.
  - by apply on_disk_written.
  - intros k Hk.
    rewrite on_disk_written_other; [|done|done|cbn; lia|].
    + unfold on_disk. cbn [file_name]. by rewrite Hdata.
    + intros E. injection E. lia.
Qed.

Lemma X2_append_extends_file_witness :
  exists n w',
    result (FileMgr.size (py "T.tbl")) (SimpleDB.boot None) = Ok n /\ 0 <= n /\
    FileMgr.append (py "T.tbl") Page.new (SimpleDB.boot None)
      = (w', Ok {| file_name := py "T.tbl"; number := n |}) /\
    result (FileMgr.size (py "T.tbl")) w' = Ok (n + 1) /\
    on_disk w' {| file_name := py "T.tbl"; number := n |} = Page.new /\
    forall k, 0 <= k < n ->
      on_disk w' {| file_name := py "T.tbl"; number := k |}
      = on_disk (SimpleDB.boot None) {| file_name := py "T.tbl"; number := k |}.
Proof.
  apply (X2_append_extends_file (SimpleDB.boot None) (py "T.tbl") Page.new).
  reflexivity.
Defined.

(** X3: [FileMgr.read] fills the buffer with the bytes the file has
    from the start of the block on and leaves the rest of the buffer as
    it was: a block past the end of the file returns the buffer
    unchanged, not zeros.  A negative block number is refused. *)
Theorem X3_read_keeps_bytes_past_end (w : World) (blk : Block) (bb : list Z) :
  let d := FileMgr.file_data (fm w) (file_name blk) in
  let pos := Z.to_nat (BLOCK_SIZE * number blk) in
  (number blk < 0 -> result (FileMgr.read blk bb) w = Raise TypeError) /\
  (0 <= number blk ->
   exists page,
     result (FileMgr.read blk bb) w = Ok page /\
     length page = length bb /\
     (forall i, (i < length bb)%nat ->
        page !! i = match d !! (pos + i)%nat with Some b => Some b | None => bb !! i end) /\
     ((length d <= pos)%nat -> page = bb)).
Proof.
  intros d pos. split.
  - intros Hn. unfold result, FileMgr.read, FileMgr.get_file, bind, get, put, ret, raise.
    destruct (fm_files (fm w) !! file_name blk); cbn;
      by destruct (Z.ltb_spec (number blk) 0); [|lia].
  - intros Hn. eexists. split; [by apply FileMgr_read_result|].
    fold d pos. split; [apply length_file_readinto|]. split.
    + intros i Hi. rewrite file_readinto_lookup. by destruct (decide _).
    + intros Hd. apply list_eq. intros i. rewrite file_readinto_lookup.
      destruct (decide _) as [Hi|Hi].
      * by rewrite (lookup_ge_None_2 d (pos + i)) by lia.
      * symmetry. apply lookup_ge_None_2. lia.
Qed.

(** ** Pages: values that do not fit *)

Lemma slice_index_past len i : len <= i -> 0 <= len -> slice_index len i = len.
Proof. intros H H0. unfold slice_index. destruct (Z.ltb_spec i 0); lia. Qed.

(** X4: a string that does not fit in what is left of the page is not
    refused: [MaxPage.set_string] makes the page longer and leaves the
    bytes before the offset as they were; [get_string] then reads the
    string back when it has at most 100 characters, and the empty
    string when it has more.  An integer that does not fit raises
    [struct.error] and leaves the page as it was. *)
Theorem X4_string_past_end_grows_page (contents : list Z) (offset : Z) (s : str) (v : Z) :
  Forall (fun c => is_scalar c = true) s ->
  Z.of_nat (length s) < 2 ^ 30 ->
  0 <= offset <= Z.of_nat (length contents) ->
  Z.of_nat (length contents) < offset + MaxPage.str_size (Z.of_nat (length s)) ->
  (exists c',
     MaxPage.set_string offset s contents = (c', Ok tt) /\
     Z.of_nat (length c') = offset + MaxPage.str_size (Z.of_nat (length s)) /\
     take (Z.to_nat offset) c' = take (Z.to_nat offset) contents /\
     MaxPage.get_string offset c'
       = (c', Ok (if Z.of_nat (length s) <=? 100 then s else []))) /\
  (Z.of_nat (length contents) < offset + 4 ->
   MaxPage.set_int offset v contents = (contents, Raise StructError)).
Proof.
  intros Hs Hbig H0 H1. split.
  - destruct (utf_32_be_encode_total s Hs) as [bs He].
    destruct (utf_32_be_decode_encode _ _ He) as [Hdec Hlen].
    unfold MaxPage.str_size, MaxPage.INT_SIZE, MaxPage.MAX_BYTES_PER_CHAR,
      Page.INT_SIZE, Page.MAX_BYTES_PER_CHAR in *.
    change (2 ^ 30) with 1073741824 in Hbig.
    set (size := Z.of_nat (length bs)) in *.
    set (c' := take (Z.to_nat offset) contents ++ le_bytes 4 size ++ bs).
    assert (Hset : MaxPage.set_string offset s contents = (c', Ok tt)).
    { unfold MaxPage.set_string, bind, lift, modify. rewrite He.
      unfold struct_pack.
      assert (Hr : (fmt_min Fmt_I <=? Z.of_nat (length bs))
                   && (Z.of_nat (length bs) <=? fmt_max Fmt_I) = true).
      { apply andb_true_intro. split; apply Z.leb_le.
        - change (fmt_min Fmt_I) with 0. lia.
        - change (fmt_max Fmt_I) with 4294967295. lia. }
      rewrite Hr. cbn [fmt_size]. unfold MaxPage.INT_SIZE, Page.INT_SIZE.
      unfold setslice. rewrite slice_index_in by lia.
      rewrite slice_index_past by lia.
      rewrite Z.max_r by lia. rewrite Nat2Z.id, drop_all, app_nil_r.
      done. }
    assert (Hc' : Z.of_nat (length c') = offset + (4 + size)).
    { subst c'. rewrite !length_app, length_take, length_le_bytes. lia. }
    assert (Hdrop : drop (Z.to_nat offset) c' = le_bytes 4 size ++ bs).
    { subst c'. apply drop_app_length'. rewrite length_take. lia. }
    exists c'. split; [done|]. split; [lia|]. split.
    { subst c'. rewrite take_app_length'; [done|]. rewrite length_take. lia. }
    unfold MaxPage.get_string, MaxPage.get_int, Page.get_int, Page.get_, bind, unpack_from.
    rewrite struct_offset_fits by (simpl; lia). cbn [res_bind].
    change (fmt_size Fmt_i) with 4%nat.
    rewrite Hdrop, take_app_length' by (by rewrite length_le_bytes).
    unfold struct_unpack. rewrite le_value_le_bytes.
    change (fmt_signed Fmt_i) with true. change (fmt_modulus Fmt_i) with 4294967296.
    change (2 ^ (8 * Z.of_nat 4)) with 4294967296.
    change (4294967296 / 2) with 2147483648.
    rewrite Z.mod_small by lia. cbn [andb].
    destruct (Z.leb_spec 2147483648 size) as [Hneg|Hpos].
    { destruct (Z.leb_spec (size - 4294967296) 0); [|lia]. cbn [orb].
      destruct (Z.leb_spec (Z.of_nat (length s)) 100); [lia|done]. }
    destruct (Z.leb_spec size 0) as [Hz|Hnz]; cbn [orb].
    { assert (s = []) as -> by (destruct s; [done | simpl in Hlen; lia]). done. }
    destruct (Z.ltb_spec 400 size) as [Hlong|Hshort].
    { destruct (Z.leb_spec (Z.of_nat (length s)) 100); [lia|done]. }
    destruct (Z.leb_spec (Z.of_nat (length s)) 100); [|lia].
    unfold get, lift. unfold MaxPage.INT_SIZE, Page.INT_SIZE.
    rewrite getslice_in by lia.
    replace (Z.to_nat (offset + 4)) with (Z.to_nat offset + 4)%nat by lia.
    rewrite <- drop_drop, Hdrop.
    rewrite drop_app_length' by (by rewrite length_le_bytes).
    replace (Z.to_nat (offset + 4 + size - (offset + 4))) with (length bs) by lia.
    rewrite firstn_all. by rewrite Hdec.
  - intros Hv. unfold MaxPage.set_int, Page.set_int, Page.set, pack_into, struct_pack.
    destruct (_ && _); cbn [res_bind]; [|done].
    unfold struct_offset.
    destruct (Z.ltb_spec offset 0); [lia|].
    destruct (Z.ltb_spec (Z.of_nat (length contents) - offset) (Z.of_nat (fmt_size Fmt_i)));
      [done|]. cbn in *. lia.
Qed.

Lemma X4_string_past_end_grows_page_witness :
  (exists c',
     MaxPage.set_string 398 (py "ab") Page.new = (c', Ok tt) /\
     Z.of_nat (length c') = 398 + MaxPage.str_size (Z.of_nat (length (py "ab"))) /\
     take (Z.to_nat 398) c' = take (Z.to_nat 398) Page.new /\
     MaxPage.get_string 398 c'
       = (c', Ok (if Z.of_nat (length (py "ab")) <=? 100 then py "ab" else []))) /\
  (Z.of_nat (length Page.new) < 398 + 4 ->
   MaxPage.set_int 398 5 Page.new = (Page.new, Raise StructError)).
Proof.
  apply (X4_string_past_end_grows_page Page.new 398 (py "ab") 5).
  - repeat constructor.
  - vm_compute. reflexivity.
  - vm_compute. split; discriminate.
  - vm_compute. reflexivity.
Defined.

(** ** The lock table and the lock managers *)

Lemma PageLockTable_eta (t : PageLockTable) : {| lt_locks := lt_locks t |} = t.
Proof. by destruct t. Qed.

Lemma PageLockTable_requests (t : PageLockTable) (blk : Block) :
  PageLockTable.slock blk t =
    (if default 0 (lt_locks t !! blk) <? 0 then (t, Raise LockAbortException)
     else ({| lt_locks := <[blk := default 0 (lt_locks t !! blk) + 1]> (lt_locks t) |}, Ok tt)) /\
  PageLockTable.xlock blk t =
    (if default 0 (lt_locks t !! blk) >? 1 then (t, Raise LockAbortException)
     else ({| lt_locks := <[blk := -1]> (lt_locks t) |}, Ok tt)).
Proof.
  unfold PageLockTable.slock, PageLockTable.xlock, except_raise, bind,
    PageLockTable.__has_xlock, PageLockTable.__has_other_slocks,
    PageLockTable.__get_lock_val, PageLockTable.setitem, bind, get, ret, modify, raise.
  by destruct (default 0 (lt_locks t !! blk) <? 0);
    destruct (default 0 (lt_locks t !! blk) >? 1).
Qed.

(** X5: the lock table grants a shared lock exactly when the block is
    not exclusively locked, and counts it; it grants the exclusive lock
    exactly when the block has at most one shared lock, so also on a
    block that is exclusively locked already.  A refused request
    leaves the table as it was. *)
Theorem X5_lock_table_grants (t : PageLockTable) (blk : Block) :
  let val := default 0 (lt_locks t !! blk) in
  PageLockTable.slock blk t =
    (if val <? 0 then (t, Raise LockAbortException)
     else ({| lt_locks := <[blk := val + 1]> (lt_locks t) |}, Ok tt)) /\
  PageLockTable.xlock blk t =
    (if val >? 1 then (t, Raise LockAbortException)
     else ({| lt_locks := <[blk := -1]> (lt_locks t) |}, Ok tt)) /\
  (val = -1 -> snd (PageLockTable.xlock blk t) = Ok tt).
Proof.
  intros val. subst val.
  destruct (PageLockTable_requests t blk) as [Hs Hx].
  split; [done|]. split; [done|].
  intros Hv. by rewrite Hx, Hv.
Qed.

(** X6: a shared lock taken and released leaves the lock table as it
    was, and so does the exclusive lock on a block that had no lock;
    releasing a block that holds no lock raises [KeyError]. *)
Theorem X6_lock_then_unlock (t : PageLockTable) (blk : Block) :
  (0 <= default 0 (lt_locks t !! blk) -> lt_locks t !! blk <> Some 0 ->
   (PageLockTable.slock blk ;; PageLockTable.unlock blk) t = (t, Ok tt)) /\
  (lt_locks t !! blk = None ->
   (PageLockTable.xlock blk ;; PageLockTable.unlock blk) t = (t, Ok tt) /\
   PageLockTable.unlock blk t = (t, Raise KeyError)).
Proof.
  pose proof (PageLockTable_requests t blk) as (Hs & Hx).
  split.
  - intros Hv Hz. unfold bind at 1. rewrite Hs.
    destruct (Z.ltb_spec (default 0 (lt_locks t !! blk)) 0); [lia|].
    unfold PageLockTable.unlock, PageLockTable.__get_lock_val, PageLockTable.setitem,
      bind, get, ret, modify, put. cbn. rewrite lookup_insert_eq. cbn.
    destruct (lt_locks t !! blk) as [v|] eqn:E; cbn in *.
    + destruct (Z.gtb_spec (v + 1) 1); [|assert (v = 0) by lia; congruence].
      cbn [lt_locks]. rewrite insert_insert_eq. replace (v + 1 - 1) with v by lia.
      by rewrite insert_id, PageLockTable_eta by done.
    + change (0 + 1 >? 1) with false. cbn [lt_locks].
      rewrite lookup_insert_eq. by rewrite delete_insert_id, PageLockTable_eta by done.
  - intros Hn. split.
    + unfold bind at 1. rewrite Hx, Hn. cbn.
      unfold PageLockTable.unlock, PageLockTable.__get_lock_val, PageLockTable.setitem,
        bind, get, ret, modify, put. cbn. rewrite lookup_insert_eq. cbn.
      cbn [lt_locks]. rewrite delete_insert_id, PageLockTable_eta by done.
      by rewrite lookup_insert_eq.
    + unfold PageLockTable.unlock, PageLockTable.__get_lock_val, bind, get, ret, raise.
      rewrite Hn. cbn. by rewrite Hn.
Qed.

Lemma assoc_get_set {K V} `{EqDecision K} (l : list (K * V)) (k k' : K) (v : V) :
  assoc_get (assoc_set l k v) k' = if decide (k' = k) then Some v else assoc_get l k'.
Proof.
  induction l as [|[k0 v0] l IH]; cbn.
  - destruct (decide (k' = k)); [done|]. done.
  - destruct (decide (k = k0)) as [->|Hk]; cbn.
    + destruct (decide (k' = k0)); done.
    + destruct (decide (k' = k0)) as [->|Hk'].
      * destruct (decide (k0 = k)); [congruence|done].
      * done.
Qed.

Lemma assoc_get_None {K V} `{EqDecision K} (l : list (K * V)) (k : K) :
  assoc_get l k = None <-> k ∉ map fst l.
Proof.
  induction l as [|[k0 v0] l IH]; cbn.
  - split; [intros _; apply not_elem_of_nil | done].
  - destruct (decide (k = k0)) as [->|Hk].
    + split; [done|]. intros H. exfalso. apply H. apply elem_of_cons. by left.
    + rewrite IH. rewrite not_elem_of_cons.
      split; [intros ?; by split | by intros [_ ?]].
Qed.

Lemma assoc_set_keys {K V} `{EqDecision K} (l : list (K * V)) (k : K) (v : V) :
  map fst (assoc_set l k v) =
    if decide (k ∈ map fst l) then map fst l else map fst l ++ [k].
Proof.
  induction l as [|[k0 v0] l IH]; cbn.
  - destruct (decide (k ∈ [])) as [H|_]; [by apply elem_of_nil in H|done].
  - destruct (decide (k = k0)) as [->|Hk]; cbn.
    + destruct (decide (k0 ∈ k0 :: map fst l)) as [_|H]; [done|].
      exfalso. apply H, elem_of_cons. by left.
    + rewrite IH.
      destruct (decide (k ∈ map fst l)) as [Hin|Hin];
        destruct (decide (k ∈ k0 :: map fst l)) as [Hin'|Hin']; try done.
      * exfalso. apply Hin', elem_of_cons. by right.
      * apply elem_of_cons in Hin' as [?|?]; done.
Qed.

Lemma assoc_set_NoDup {K V} `{EqDecision K} (l : list (K * V)) (k : K) (v : V) :
  NoDup (map fst l) -> NoDup (map fst (assoc_set l k v)).
Proof.
  intros Hn. rewrite assoc_set_keys. destruct (decide _) as [|Hin]; [done|].
  apply NoDup_app. split; [done|]. split; [|apply NoDup_singleton].
  intros x Hx Hx'. apply list_elem_of_singleton in Hx'. by subst.
Qed.

Lemma own_table_new : own_table PageLockMgr.new.
Proof. split; [intros blk; apply lookup_empty | apply NoDup_nil_2]. Qed.

Lemma own_table_set (m : PageLockMgr) (blk : Block) (ty : lock_type) :
  own_table m ->
  own_table {| plm_locktbl := {| lt_locks := <[blk := table_val ty]> (lt_locks (plm_locktbl m)) |};
               plm_locks := assoc_set (plm_locks m) blk ty |}.
Proof.
  intros [Ht Hn]. split; cbn.
  - intros blk'. rewrite assoc_get_set.
    destruct (decide (blk' = blk)) as [->|Hne].
    + by rewrite lookup_insert_eq.
    + by rewrite lookup_insert_ne.
  - by apply assoc_set_NoDup.
Qed.

Lemma PageLockMgr_slock_own (m : PageLockMgr) (blk : Block) :
  own_table m ->
  exists m', PageLockMgr.slock blk m = (m', Ok tt) /\ own_table m' /\
    assoc_get (plm_locks m') blk = Some (default S_lock (assoc_get (plm_locks m) blk)) /\
    (forall blk', blk' <> blk -> assoc_get (plm_locks m') blk' = assoc_get (plm_locks m) blk').
Proof.
  intros Hown. pose proof Hown as [Ht Hn].
  unfold PageLockMgr.slock, bind at 1, get.
  destruct (assoc_get (plm_locks m) blk) as [ty|] eqn:E.
  - exists m. by rewrite E.
  - unfold bind, PageLockMgr.on_locktbl, zoom, PageLockMgr.setitem, modify.
    destruct (PageLockTable_requests (plm_locktbl m) blk) as [Hs _].
    rewrite Hs, Ht, E. cbn.
    eexists. split; [done|]. split; [by apply (own_table_set m blk S_lock)|]. cbn.
    split; [rewrite assoc_get_set; by destruct (decide (blk = blk))|].
    intros blk' Hne. rewrite assoc_get_set. by destruct (decide (blk' = blk)).
Qed.

Lemma PageLockMgr_xlock_own (m : PageLockMgr) (blk : Block) :
  own_table m ->
  exists m', PageLockMgr.xlock blk m = (m', Ok tt) /\ own_table m' /\
    assoc_get (plm_locks m') blk = Some X_lock /\
    (forall blk', blk' <> blk -> assoc_get (plm_locks m') blk' = assoc_get (plm_locks m) blk').
Proof.
  intros Hown.
  unfold PageLockMgr.xlock, bind at 1, PageLockMgr.__has_xlock, bind at 1, get, ret.
  destruct (assoc_get (plm_locks m) blk) as [[]|] eqn:E.
  1,3: destruct (PageLockMgr_slock_own m blk Hown) as (m1 & Hs & Hown1 & Hg1 & Hf1);
       erewrite bind_ok by exact Hs;
       pose proof Hown1 as [Ht1 Hn1];
       unfold bind, PageLockMgr.on_locktbl, zoom, PageLockMgr.setitem, modify;
       destruct (PageLockTable_requests (plm_locktbl m1) blk) as [_ Hx];
       rewrite Hx, Ht1, Hg1, E; cbn;
       (eexists; split; [done|]; split; [by apply (own_table_set m1 blk X_lock)|]; cbn;
        split; [rewrite assoc_get_set; by destruct (decide (blk = blk))|];
        intros blk' Hne; rewrite assoc_get_set;
        destruct (decide (blk' = blk)); [done|by apply Hf1]).
  exists m. done.
Qed.

(** X7: a lock manager built by [PageLockMgr()] has a lock table of its
    own, which holds its locks and nothing else: as long as that is so,
    no request of the manager is refused.  [slock] and [xlock] return,
    keep the table in step with the list of locks (1 for a shared lock,
    -1 for the exclusive lock), and leave the locks on other blocks as
    they were; [slock] keeps a lock the manager has, [xlock] turns it
    into the exclusive lock. *)
Theorem X7_lock_manager_never_refused (m : PageLockMgr) (blk : Block) :
  own_table m ->
  (exists m', PageLockMgr.slock blk m = (m', Ok tt) /\ own_table m' /\
     assoc_get (plm_locks m') blk = Some (default S_lock (assoc_get (plm_locks m) blk)) /\
     (forall blk', blk' <> blk -> assoc_get (plm_locks m') blk' = assoc_get (plm_locks m) blk')) /\
  (exists m', PageLockMgr.xlock blk m = (m', Ok tt) /\ own_table m' /\
     assoc_get (plm_locks m') blk = Some X_lock /\
     (forall blk', blk' <> blk -> assoc_get (plm_locks m') blk' = assoc_get (plm_locks m) blk')).
Proof.
  intros Hown. split; [by apply PageLockMgr_slock_own | by apply PageLockMgr_xlock_own].
Qed.

Lemma X7_lock_manager_never_refused_witness :
  (exists m', PageLockMgr.slock blk_T0 PageLockMgr.new = (m', Ok tt) /\ own_table m' /\
     assoc_get (plm_locks m') blk_T0
       = Some (default S_lock (assoc_get (plm_locks PageLockMgr.new) blk_T0)) /\
     (forall blk', blk' <> blk_T0 ->
        assoc_get (plm_locks m') blk' = assoc_get (plm_locks PageLockMgr.new) blk')) /\
  (exists m', PageLockMgr.xlock blk_T0 PageLockMgr.new = (m', Ok tt) /\ own_table m' /\
     assoc_get (plm_locks m') blk_T0 = Some X_lock /\
     (forall blk', blk' <> blk_T0 ->
        assoc_get (plm_locks m') blk' = assoc_get (plm_locks PageLockMgr.new) blk')).
Proof.
  apply (X7_lock_manager_never_refused PageLockMgr.new blk_T0).
  split; [intros blk; apply lookup_empty | apply NoDup_nil_2].
Defined.

Lemma on_concur_mgr_eq {A} t tx (m : ST PageLockMgr A) c (r : res A) w :
  txs w !! t = Some tx ->
  m (tx_concur_mgr tx) = (c, r) ->
  TxObj.on_concur_mgr t m w =
    (set_txs (<[t := {| tx_txnum := tx_txnum tx; tx_concur_mgr := c;
                        tx_my_buffers := tx_my_buffers tx |}]> (txs w)) w, r).
Proof.
  intros Ht Hm. unfold TxObj.on_concur_mgr, TxObj.self, bind, get, ret.
  rewrite Ht, Hm. unfold modify, lift. by destruct r.
Qed.

(** The lock table with the locks on [keys] released. *)
Lemma release_loop_total t (keys : list Block) :
  forall w tx,
    txs w !! t = Some tx ->
    NoDup keys ->
    (forall blk, blk ∈ keys ->
       exists v, lt_locks (plm_locktbl (tx_concur_mgr tx)) !! blk = Some v /\ v <= 1) ->
    exists w' tx',
      for_each keys (fun blk =>
        TxObj.on_concur_mgr t (PageLockMgr.on_locktbl (PageLockTable.unlock blk)) ;;
        modify (emit (EvUnlock blk))) w = (w', Ok tt) /\
      txs w' = <[t := tx']> (txs w) /\
      tx_txnum tx' = tx_txnum tx /\ tx_my_buffers tx' = tx_my_buffers tx /\
      plm_locks (tx_concur_mgr tx') = plm_locks (tx_concur_mgr tx) /\
      (forall blk, lt_locks (plm_locktbl (tx_concur_mgr tx')) !! blk =
         if decide (blk ∈ keys) then None
         else lt_locks (plm_locktbl (tx_concur_mgr tx)) !! blk) /\
      trace w' = trace w ++ map EvUnlock keys /\
      fm w' = fm w /\ logm w' = logm w /\ bm w' = bm w /\ next_tx_num w' = next_tx_num w.
Proof.
  induction keys as [|k keys IH]; intros w tx Ht Hnd Hv; cbn [for_each map].
  - exists w, tx. rewrite app_nil_r. repeat split; try done.
    + by rewrite insert_id.
  - apply NoDup_cons in Hnd as [Hk Hnd].
    destruct (Hv k) as (v & Hkv & Hle); [apply elem_of_cons; by left|].
    set (tbl := plm_locktbl (tx_concur_mgr tx)) in *.
    assert (Hun : PageLockTable.unlock k tbl = ({| lt_locks := delete k (lt_locks tbl) |}, Ok tt)).
    { unfold PageLockTable.unlock, PageLockTable.__get_lock_val, bind, get, ret, put.
      rewrite Hkv. cbn. destruct (Z.gtb_spec v 1); [lia|]. by rewrite Hkv. }
    set (c := {| plm_locktbl := {| lt_locks := delete k (lt_locks tbl) |};
                 plm_locks := plm_locks (tx_concur_mgr tx) |}).
    set (tx1 := {| tx_txnum := tx_txnum tx; tx_concur_mgr := c;
                   tx_my_buffers := tx_my_buffers tx |}).
    set (w1 := emit (EvUnlock k) (set_txs (<[t := tx1]> (txs w)) w)).
    assert (Hstep : (TxObj.on_concur_mgr t (PageLockMgr.on_locktbl (PageLockTable.unlock k)) ;;
                     modify (emit (EvUnlock k))) w = (w1, Ok tt)).
    { erewrite bind_ok.
      2:{ apply (on_concur_mgr_eq t tx _ c (Ok tt)); [done|].
          unfold PageLockMgr.on_locktbl, zoom. fold tbl. by rewrite Hun. }
      done. }
    erewrite bind_ok by exact Hstep.
    destruct (IH w1 tx1) as (w' & tx' & Hloop & Htxs & Hnum & Hbuf & Hlocks & Htbl & Htr & Hfm & Hlg & Hbm & Hnx).
    { subst w1. cbn. apply lookup_insert_eq. }
    { done. }
    { intros blk Hin. destruct (Hv blk) as (v' & Hv' & Hle'); [apply elem_of_cons; by right|].
      exists v'. split; [|done]. subst tx1 c. cbn. rewrite lookup_delete_ne; [done|].
      intros ->. done. }
    exists w', tx'. split; [done|]. subst w1. cbn in *.
    split; [by rewrite Htxs, insert_insert_eq|].
    repeat split; try done.
    + intros blk. rewrite Htbl. subst tx1 c. cbn.
      destruct (decide (blk ∈ keys)) as [Hin|Hin].
      * destruct (decide (blk ∈ k :: keys)) as [|Hn]; [done|].
        exfalso. apply Hn, elem_of_cons. by right.
      * destruct (decide (blk = k)) as [->|Hne].
        -- rewrite lookup_delete_eq.
           destruct (decide (k ∈ k :: keys)) as [|Hn]; [done|].
           exfalso. apply Hn, elem_of_cons. by left.
        -- rewrite lookup_delete_ne by done.
           destruct (decide (blk ∈ k :: keys)) as [Hin'|]; [|done].
           apply elem_of_cons in Hin' as [?|?]; done.
    + rewrite Htr. by rewrite <- app_assoc.
Qed.

(** Releasing the locks of a transaction whose lock table is its
    own. *)
Lemma Transaction_release_own (w : World) (t : Z) (tx : Transaction) :
  txs w !! t = Some tx ->
  own_table (tx_concur_mgr tx) ->
  exists w',
    Transaction.release t w = (w', Ok tt) /\
    txs w' = <[t := {| tx_txnum := tx_txnum tx; tx_concur_mgr := PageLockMgr.new;
                       tx_my_buffers := tx_my_buffers tx |}]> (txs w) /\
    trace w' = trace w ++ map EvUnlock (map fst (plm_locks (tx_concur_mgr tx))) /\
    fm w' = fm w /\ logm w' = logm w /\ bm w' = bm w.
Proof.
  intros Ht [Htbl Hnd].
  unfold Transaction.release. erewrite bind_ok.
  2:{ unfold TxObj.self, bind, get, ret. by rewrite Ht. }
  destruct (release_loop_total t (map fst (plm_locks (tx_concur_mgr tx))) w tx Ht Hnd)
    as (w1 & tx1 & Hloop & Htxs & Hnum & Hbuf & Hlocks & Htbl1 & Htr & Hfm & Hlg & Hbm & Hnx).
  { intros blk Hin. rewrite Htbl.
    destruct (assoc_get (plm_locks (tx_concur_mgr tx)) blk) as [ty|] eqn:E.
    - exists (table_val ty). split; [done|]. destruct ty; cbn; lia.
    - apply assoc_get_None in E. done. }
  erewrite bind_ok by exact Hloop.
  assert (Ht1 : txs w1 !! t = Some tx1) by (rewrite Htxs; apply lookup_insert_eq).
  erewrite (on_concur_mgr_eq t tx1 PageLockMgr.clear _ (Ok tt)); [|done|reflexivity].
  eexists. split; [done|]. cbn. rewrite Htxs, insert_insert_eq, Hnum, Hbuf.
  repeat split; try done.
  f_equal. f_equal. unfold PageLockMgr.new, PageLockTable.new. f_equal.
  destruct (plm_locktbl (tx_concur_mgr tx1)) as [m] eqn:Em. f_equal.
  apply map_eq. intros blk. rewrite lookup_empty.
  specialize (Htbl1 blk). cbn in Htbl1. rewrite Htbl1.
  destruct (decide _) as [|Hin]; [done|].
  rewrite Htbl. apply assoc_get_None in Hin. by rewrite Hin.
Qed.

(** X8: [release] of a lock manager whose table is its own returns: it
    unlocks the blocks in the order in which their locks were first
    taken, and leaves the transaction with a lock manager as
    [PageLockMgr()] builds it, no lock in its list and none in its
    table; files, log and buffers are not touched. *)
Theorem X8_release_unlocks_all (w : World) (t : Z) (tx : Transaction) :
  txs w !! t = Some tx ->
  own_table (tx_concur_mgr tx) ->
  exists w',
    Transaction.release t w = (w', Ok tt) /\
    txs w' = <[t := {| tx_txnum := tx_txnum tx; tx_concur_mgr := PageLockMgr.new;
                       tx_my_buffers := tx_my_buffers tx |}]> (txs w) /\
    trace w' = trace w ++ map EvUnlock (map fst (plm_locks (tx_concur_mgr tx))) /\
    fm w' = fm w /\ logm w' = logm w /\ bm w' = bm w.
Proof. intros Ht Hown. by apply Transaction_release_own. Qed.

Lemma X8_release_unlocks_all_witness :
  exists w',
    Transaction.release 1 dirty_world = (w', Ok tt) /\
    txs w' = <[1 := {| tx_txnum := tx_txnum dirty_tx; tx_concur_mgr := PageLockMgr.new;
                       tx_my_buffers := tx_my_buffers dirty_tx |}]> (txs dirty_world) /\
    trace w' = trace dirty_world
                 ++ map EvUnlock (map fst (plm_locks (tx_concur_mgr dirty_tx))) /\
    fm w' = fm dirty_world /\ logm w' = logm dirty_world /\ bm w' = bm dirty_world.
Proof.
  apply (X8_release_unlocks_all dirty_world 1 dirty_tx).
  - vm_compute. reflexivity.
  - split.
    + intros blk. destruct (decide (blk = blk_T0)) as [->|Hne].
      * vm_compute. reflexivity.
      * change (lt_locks (plm_locktbl (tx_concur_mgr dirty_tx)))
          with (<[blk_T0 := -1]> (∅ : gmap Block Z)).
        rewrite lookup_insert_ne by done. rewrite lookup_empty.
        change (plm_locks (tx_concur_mgr dirty_tx)) with [(blk_T0, X_lock)].
        cbn. by destruct (decide (blk = blk_T0)).
    + vm_compute. repeat constructor. intros H. inversion H.
Defined.

(** ** The buffer manager *)

Lemma find_from_Some (p : BufferSlot -> bool) (pool : list BufferSlot) (i : nat) (b : BufferSlot) :
  forall k,
    pool !! i = Some b -> p b = true ->
    (forall j b', (j < i)%nat -> pool !! j = Some b' -> p b' = false) ->
    BasicBufferMgr.find_from p pool k = Some (k + i)%nat.
Proof.
  revert i. induction pool as [|b0 pool IH]; intros i k Hi Hp Hfirst; [done|].
  destruct i as [|i]; cbn in *.
  - injection Hi as ->. rewrite Hp. f_equal. lia.
  - rewrite (Hfirst 0%nat b0) by (done || lia).
    rewrite (IH i (S k)); [f_equal; lia|done|done|].
    intros j b' Hj Hb'. apply (Hfirst (S j) b'); [lia|done].
Qed.

Lemma find_from_None (p : BufferSlot -> bool) (pool : list BufferSlot) :
  forall k, Forall (fun b => p b = false) pool -> BasicBufferMgr.find_from p pool k = None.
Proof.
  induction pool as [|b0 pool IH]; intros k H; [done|].
  apply Forall_cons in H as [H0 H]. cbn. rewrite H0. by apply IH.
Qed.

Lemma find_from_inv (p : BufferSlot -> bool) (pool : list BufferSlot) :
  forall k i,
    BasicBufferMgr.find_from p pool k = Some i ->
    exists j b, i = (k + j)%nat /\ pool !! j = Some b /\ p b = true /\
      forall j' b', (j' < j)%nat -> pool !! j' = Some b' -> p b' = false.
Proof.
  induction pool as [|b0 pool IH]; intros k i H; [done|]. cbn in H.
  destruct (p b0) eqn:E.
  - injection H as <-. exists 0%nat, b0.
    split; [lia|]. split; [done|]. split; [done|]. intros; lia.
  - apply IH in H as (j & b & -> & Hb & Hp & Hfirst).
    exists (S j), b. split; [lia|]. split; [done|]. split; [done|].
    intros [|j'] b' Hj Hb'; cbn in Hb'; [by injection Hb' as <-|].
    apply (Hfirst j' b'); [lia|done].
Qed.

Lemma BufferSlot_is_pinned_eq i b w :
  bufferpool (bm w) !! i = Some b ->
  BufferSlot.is_pinned i w = (w, Ok (bs_pins b >? 0)).
Proof. intros H. unfold BufferSlot.is_pinned. by erewrite bind_ok by (by apply BufferSlot_self_eq). Qed.

(** X9: pinning a block that a buffer holds returns the first buffer
    holding it with one pin more; neither the disk nor the log nor the
    page of the buffer is touched, and the count of available buffers
    goes down by one exactly when the buffer was not pinned. *)
Theorem X9_pin_held_block (w : World) (blk : Block) (i : nat) (b : BufferSlot) :
  bufferpool (bm w) !! i = Some b ->
  bs_blk b = Some blk ->
  (forall j b', (j < i)%nat -> bufferpool (bm w) !! j = Some b' -> bs_blk b' <> Some blk) ->
  BasicBufferMgr.pin blk w =
    (set_bm {| bufferpool :=
                 <[i := BufferSlot.set_pins (bs_pins b + 1) b]> (bufferpool (bm w));
               num_available := if bs_pins b >? 0 then num_available (bm w)
                                else num_available (bm w) - 1 |} w,
     Ok (Some i)).
Proof.
  intros Hi Hb Hfirst. unfold BasicBufferMgr.pin.
  erewrite bind_ok.
  2:{ unfold BasicBufferMgr.__find_existing_buffer, bind, get, ret.
      rewrite (find_from_Some _ _ i b 0%nat); [done|done|by apply bool_decide_eq_true|].
      intros j b' Hj Hb'. apply bool_decide_eq_false. by eapply Hfirst. }
  cbn [Nat.add]. cbv beta iota. erewrite bind_ok by reflexivity. cbv beta iota.
  erewrite bind_ok by (by apply BufferSlot_is_pinned_eq).
  destruct (bs_pins b >? 0).
  - erewrite bind_ok by reflexivity.
    erewrite bind_ok by (by apply BufferSlot_update_eq). done.
  - erewrite bind_ok by reflexivity.
    erewrite bind_ok by (apply BufferSlot_update_eq; exact Hi).
    unfold ret, with_slot, set_bm. done.
Qed.

Lemma X9_pin_held_block_witness :
  BasicBufferMgr.pin blk_T0 dirty_world =
    (set_bm {| bufferpool :=
                 <[0%nat := BufferSlot.set_pins (bs_pins dirty_slot + 1) dirty_slot]>
                   (bufferpool (bm dirty_world));
               num_available := if bs_pins dirty_slot >? 0 then num_available (bm dirty_world)
                                else num_available (bm dirty_world) - 1 |} dirty_world,
     Ok (Some 0%nat)).
Proof.
  apply (X9_pin_held_block dirty_world blk_T0 0 dirty_slot).
  - vm_compute. reflexivity.
  - vm_compute. reflexivity.
  - intros j b' Hj. lia.
Defined.

(** X10: when every buffer is pinned and none holds the block,
    [BasicBufferMgr.pin] returns no buffer, and [pin_new] returns none
    without making the new block; nothing is changed.  The public
    [pin_new] then gives up with [BufferAbortException]. *)
Theorem X10_no_buffer_available (w : World) (blk : Block) (filename : str)
    (fmtr : PageFormatter) :
  Forall (fun b => bs_blk b <> Some blk /\ 0 < bs_pins b) (bufferpool (bm w)) ->
  BasicBufferMgr.pin blk w = (w, Ok None) /\
  BasicBufferMgr.pin_new filename fmtr w = (w, Ok None) /\
  BufferMgr.pin_new filename fmtr w = (w, Raise BufferAbortException).
Proof.
  intros H.
  assert (Hfree : BasicBufferMgr.__choose_unpinned_buffer w = (w, Ok None)).
  { unfold BasicBufferMgr.__choose_unpinned_buffer, bind, get, ret.
    rewrite find_from_None; [done|].
    eapply Forall_impl; [exact H|]. intros b [_ Hp]. cbn.
    destruct (Z.gtb_spec (bs_pins b) 0); [done|lia]. }
  assert (Hnew : BasicBufferMgr.pin_new filename fmtr w = (w, Ok None)).
  { unfold BasicBufferMgr.pin_new. by erewrite bind_ok by exact Hfree. }
  split; [|split; [done|]].
  - unfold BasicBufferMgr.pin. erewrite bind_ok.
    2:{ unfold BasicBufferMgr.__find_existing_buffer, bind, get, ret.
        rewrite find_from_None; [done|].
        eapply Forall_impl; [exact H|]. intros b [Hb _]. cbn.
        by apply bool_decide_eq_false. }
    erewrite bind_ok by (by erewrite bind_ok by exact Hfree). done.
  - unfold BufferMgr.pin_new, except_raise. by erewrite bind_ok by exact Hnew.
Qed.

Lemma X10_no_buffer_available_witness :
  let w := run (SimpleDB.init_file_and_log_mgr ;; BufferMgr.init 1 ;;
                BasicBufferMgr.pin blk_T0) (SimpleDB.boot None) in
  BasicBufferMgr.pin blk_T1 w = (w, Ok None) /\
  BasicBufferMgr.pin_new (py "T.tbl") (ret tt) w = (w, Ok None) /\
  BufferMgr.pin_new (py "T.tbl") (ret tt) w = (w, Raise BufferAbortException).
Proof.
  apply (X10_no_buffer_available
           (run (SimpleDB.init_file_and_log_mgr ;; BufferMgr.init 1 ;;
                 BasicBufferMgr.pin blk_T0) (SimpleDB.boot None))
           blk_T1 (py "T.tbl") (ret tt)).
  vm_compute. repeat constructor. discriminate.
Defined.

Lemma FileMgr_read_eq_run blk bb w :
  0 <= number blk ->
  exists w',
    FileMgr.read blk bb w =
      (w', Ok (FileMgr.file_readinto (FileMgr.file_data (fm w) (file_name blk))
                 (Z.to_nat (BLOCK_SIZE * number blk)) bb)) /\
    bm w' = bm w /\ logm w' = logm w /\ txs w' = txs w /\ trace w' = trace w /\
    next_tx_num w' = next_tx_num w.
Proof.
  intros Hn. unfold FileMgr.read, FileMgr.get_file, FileMgr.file_data, bind, get, put, ret.
  destruct (fm_files (fm w) !! file_name blk); cbn;
    destruct (Z.ltb_spec (number blk) 0); try lia; eauto 10.
Qed.

Lemma BufferSlot_flush_ok_bm i b w w1 :
  bufferpool (bm w) !! i = Some b ->
  BufferSlot.flush i w = (w1, Ok tt) ->
  bm w1 = bm (with_slot i (if 0 <? bs_modified_by b
                           then BufferSlot.set_modified_by (-1) b else b) w) /\
  logm w1 = logm w /\ txs w1 = txs w /\ next_tx_num w1 = next_tx_num w.
Proof.
  intros Hi Hfl. destruct (Z.ltb_spec 0 (bs_modified_by b)) as [Hd|Hc].
  - destruct (BufferSlot_flush_ok_inv i b w w1 Hi Hd Hfl)
      as (blk0 & w0 & _ & _ & -> & _ & Hlg & Hbm & Htx & Hnx).
    cbn. by rewrite Hbm, Hlg, Htx, Hnx.
  - rewrite (BufferSlot_flush_clean i b w Hi Hc) in Hfl. injection Hfl as <-.
    by rewrite with_slot_id.
Qed.

(** X11: pinning a block that no buffer holds takes the first unpinned
    buffer: its page is flushed if it is dirty, then the block is read
    into it, and the buffer comes back bound to the block, clean, with
    one pin, the count of available buffers one lower.  The read keeps
    the bytes of the old page where the file has none: a block past
    the end of its file shows the page the buffer held before. *)
Theorem X11_pin_reads_block (w : World) (blk : Block) (i : nat) (b : BufferSlot) :
  Forall (fun b => bs_blk b <> Some blk) (bufferpool (bm w)) ->
  bufferpool (bm w) !! i = Some b -> bs_pins b <= 0 ->
  (forall j b', (j < i)%nat -> bufferpool (bm w) !! j = Some b' -> 0 < bs_pins b') ->
  0 <= number blk ->
  result (BufferSlot.flush i) w = Ok tt ->
  let w1 := run (BufferSlot.flush i) w in
  let d := FileMgr.file_data (fm w1) (file_name blk) in
  let pos := Z.to_nat (BLOCK_SIZE * number blk) in
  exists w',
    BasicBufferMgr.pin blk w = (w', Ok (Some i)) /\
    bufferpool (bm w') =
      <[i := {| bs_contents := FileMgr.file_readinto d pos (bs_contents b);
                bs_blk := Some blk; bs_pins := 1;
                bs_modified_by := if 0 <? bs_modified_by b then -1 else bs_modified_by b;
                bs_log_sequence_number := bs_log_sequence_number b |}]>
        (bufferpool (bm w)) /\
    num_available (bm w') = num_available (bm w) - 1 /\
    trace w' = trace w1 /\ logm w' = logm w /\
    ((length d <= pos)%nat -> FileMgr.file_readinto d pos (bs_contents b) = bs_contents b).
Proof.
  intros Hnone Hi Hp Hfirst Hn Hres w1 d pos.
  assert (Hfl : BufferSlot.flush i w = (w1, Ok tt)).
  { subst w1. unfold run, result in *. destruct (BufferSlot.flush i w) as [s [[]|]]; cbn in *;
      [done|discriminate]. }
  destruct (BufferSlot_flush_ok_bm i b w w1 Hi Hfl) as (Hbm1 & Hlg1 & Htx1 & Hnx1).
  set (b1 := if 0 <? bs_modified_by b then BufferSlot.set_modified_by (-1) b else b) in *.
  apply lookup_lt_Some in Hi as Hlt.
  assert (Hi1 : bufferpool (bm w1) !! i = Some b1).
  { rewrite Hbm1. by apply with_slot_lookup. }
  set (b2 := BufferSlot.set_blk (Some blk) b1).
  set (w2 := with_slot i b2 w1).
  assert (Hi2 : bufferpool (bm w2) !! i = Some b2).
  { apply with_slot_lookup. by rewrite Hbm1; cbn; rewrite length_insert. }
  destruct (FileMgr_read_eq_run blk (bs_contents b2) w2 Hn)
    as (w3 & Hread & Hbm3 & Hlg3 & Htx3 & Htr3 & Hnx3).
  assert (Hi3 : bufferpool (bm w3) !! i = Some b2) by (by rewrite Hbm3).
  set (c := FileMgr.file_readinto d pos (bs_contents b)).
  assert (Hc : FileMgr.file_readinto (FileMgr.file_data (fm w2) (file_name blk))
                 (Z.to_nat (BLOCK_SIZE * number blk)) (bs_contents b2) = c).
  { subst c d pos. f_equal. subst b2 b1. by destruct (0 <? bs_modified_by b). }
  rewrite Hc in Hread.
  set (b4 := BufferSlot.set_pins 0 (BufferSlot.set_contents c b2)).
  assert (Hassign : BufferSlot.assign_to_block i blk w =
                    (with_slot i b4 w3, Ok tt)).
  { unfold BufferSlot.assign_to_block.
    erewrite bind_ok by exact Hfl.
    erewrite bind_ok by (apply BufferSlot_update_eq; exact Hi1).
    fold b2 w2. erewrite bind_ok by (by apply BufferSlot_self_eq).
    unfold MaxPage.read. cbn [bs_blk b2 BufferSlot.set_blk].
    erewrite bind_ok by exact Hread.
    erewrite bind_ok by (apply BufferSlot_update_eq; exact Hi3).
    erewrite BufferSlot_update_eq.
    2:{ apply with_slot_lookup. rewrite Hbm3. subst w2. cbn. rewrite length_insert.
        by rewrite Hbm1; cbn; rewrite length_insert. }
    by rewrite with_slot_with_slot. }
  set (w4 := with_slot i b4 w3) in *.
  assert (Hi4 : bufferpool (bm w4) !! i = Some b4).
  { apply with_slot_lookup. rewrite Hbm3. subst w2. cbn. rewrite length_insert.
    by rewrite Hbm1; cbn; rewrite length_insert. }
  eexists. split.
  { unfold BasicBufferMgr.pin. erewrite bind_ok.
    2:{ unfold BasicBufferMgr.__find_existing_buffer, bind, get, ret.
        rewrite find_from_None; [done|].
        eapply Forall_impl; [exact Hnone|]. intros b' Hb'. by apply bool_decide_eq_false. }
    cbv beta iota. erewrite bind_ok.
    2:{ erewrite bind_ok.
        2:{ unfold BasicBufferMgr.__choose_unpinned_buffer, bind, get, ret.
            rewrite (find_from_Some _ _ i b 0%nat); [done|done| |].
            - destruct (Z.gtb_spec (bs_pins b) 0); [lia|done].
            - intros j b' Hj Hb'. specialize (Hfirst j b' Hj Hb').
              destruct (Z.gtb_spec (bs_pins b') 0); [done|lia]. }
        cbn [Nat.add]. cbv beta iota. erewrite bind_ok by exact Hassign. reflexivity. }
    cbv beta iota.
    erewrite bind_ok by (by apply BufferSlot_is_pinned_eq).
    change (bs_pins b4 >? 0) with false. cbv beta iota.
    erewrite bind_ok by reflexivity.
    erewrite bind_ok by (apply BufferSlot_update_eq; exact Hi4).
    reflexivity. }
  cbn. rewrite Hbm3. subst w2. cbn. rewrite Hbm1. cbn.
  rewrite !list_insert_insert_eq.
  split; [|split; [lia|split; [|split]]].
  - f_equal. subst b4 b2 b1. by destruct (0 <? bs_modified_by b).
  - by rewrite Htr3.
  - by rewrite Hlg3.
  - intros Hd. unfold c. apply list_eq. intros k. rewrite file_readinto_lookup.
    destruct (decide _) as [Hk|Hk].
    + by rewrite (lookup_ge_None_2 d (pos + k)) by lia.
    + symmetry. apply lookup_ge_None_2. lia.
Qed.

Lemma X11_pin_reads_block_witness :
  let w1 := run (BufferSlot.flush 1) dirty_world in
  let d := FileMgr.file_data (fm w1) (file_name blk_T1) in
  let pos := Z.to_nat (BLOCK_SIZE * number blk_T1) in
  exists w',
    BasicBufferMgr.pin blk_T1 dirty_world = (w', Ok (Some 1%nat)) /\
    bufferpool (bm w') =
      <[1%nat := {| bs_contents := FileMgr.file_readinto d pos (bs_contents BufferSlot.new);
                    bs_blk := Some blk_T1; bs_pins := 1;
                    bs_modified_by := if 0 <? bs_modified_by BufferSlot.new then -1
                                      else bs_modified_by BufferSlot.new;
                    bs_log_sequence_number := bs_log_sequence_number BufferSlot.new |}]>
        (bufferpool (bm dirty_world)) /\
    num_available (bm w') = num_available (bm dirty_world) - 1 /\
    trace w' = trace w1 /\ logm w' = logm dirty_world /\
    ((length d <= pos)%nat ->
     FileMgr.file_readinto d pos (bs_contents BufferSlot.new) = bs_contents BufferSlot.new).
Proof.
  apply (X11_pin_reads_block dirty_world blk_T1 1 BufferSlot.new).
  - vm_compute. repeat constructor; discriminate.
  - vm_compute. reflexivity.
  - vm_compute. discriminate.
  - intros j b' Hj Hb'. assert (j = 0%nat) as -> by lia.
    vm_compute in Hb'. injection Hb' as <-. reflexivity.
  - vm_compute. discriminate.
  - vm_compute. reflexivity.
Defined.

(** ** Pages: values that fit *)

(** X12: an integer of 2, 4 or 8 bytes in the range of its format, or
    a string of Unicode scalar values, written at an offset at which it
    fits within a page of a block, is read back unchanged at that
    offset and leaves the page as long as it was; a string is stored as
    a 4-byte prefix holding the number of bytes of its UTF-32
    big-endian encoding, followed by that encoding. *)
Theorem X12_value_read_back (contents : list Z) (offset : Z) (x : typed) :
  Z.of_nat (length contents) = BLOCK_SIZE ->
  typed_ok x ->
  0 <= offset ->
  offset + typed_size x <= BLOCK_SIZE ->
  exists c',
    page_write x offset contents = (c', Ok tt) /\
    page_read x offset c' = (c', Ok x) /\
    length c' = length contents /\
    stored_form x offset c'.
Proof.
  intros Hlen Hok H0 H1.
  destruct (Page_write_read_roundtrip contents offset x Hlen Hok H0 H1) as (c' & H).
  by exists c'.
Qed.

Lemma X12_value_read_back_witness :
  exists c',
    page_write (TInt Fmt_h (-2)) 398 Page.new = (c', Ok tt) /\
    page_read (TInt Fmt_h (-2)) 398 c' = (c', Ok (TInt Fmt_h (-2))) /\
    length c' = length Page.new /\
    stored_form (TInt Fmt_h (-2)) 398 c'.
Proof.
  apply (X12_value_read_back Page.new 398 (TInt Fmt_h (-2))).
  - reflexivity.
  - vm_compute. split; discriminate.
  - lia.
  - vm_compute. discriminate.
Defined.

(** ** The log manager *)

(** X13: the values of a record that [LogMgr.append] has returned from
    are what the iterator's first record yields, in order, to
    [next_int] and [next_string]; the log manager is taken between two
    appends, and the record with its trailer to fit in a block after
    the tail pointer. *)
Theorem X13_appended_values_are_iterated (rec : list value) (w w' : World) (lsn : Z) :
  log_wf w ->
  LogMgr.recsize rec + 4 <= BLOCK_SIZE ->
  LogMgr.append rec w = (w', Ok lsn) ->
  log_wf w' /\
  exists r,
    newest_basic_record w' =
      (written (lm_currentblk (logm w')) (lm_mypage (logm w')) w', Ok r) /\
    reads rec r.
Proof.
  intros Hwf Hfit Happ.
  destruct (LogMgr_append_layout _ _ _ _ Hwf Hfit Happ)
    as (Hwf' & start & Hstart & Hst & Hpos & Htr).
  split; [done|].
  by apply (newest_basic_record_reads w' rec start).
Qed.

Lemma X13_appended_values_are_iterated_witness :
  let rec := [VInt 7; VStr (py "joe"); VInt (-1)] in
  let w' := run (LogMgr.append rec) log_filled in
  log_wf w' /\
  exists r,
    newest_basic_record w' =
      (written (lm_currentblk (logm w')) (lm_mypage (logm w')) w', Ok r) /\
    reads rec r.
Proof.
  apply (X13_appended_values_are_iterated [VInt 7; VStr (py "joe"); VInt (-1)] log_filled
           (run (LogMgr.append [VInt 7; VStr (py "joe"); VInt (-1)]) log_filled) 1).
  - repeat split; vm_compute; (reflexivity || discriminate).
  - vm_compute. discriminate.
  - vm_compute. reflexivity.
Defined.

(** X14: every log record of the recovery manager that [write_to_log]
    has returned from is the record [LogRecordIterator] builds first:
    checkpoint, start, commit, rollback and both update records come
    back with the values they were written with. *)
Theorem X14_log_record_read_back (record : LogRecord) (w w' : World) (lsn : Z) :
  log_wf w ->
  LogMgr.recsize (LogRecord.rec record) + 4 <= BLOCK_SIZE ->
  LogRecord.write_to_log record w = (w', Ok lsn) ->
  result newest_record w' = Ok (Some record) /\
  lsn = number (lm_currentblk (logm w')).
Proof.
  intros Hwf Hfit Happ.
  destruct (LogMgr_append_read_back record w w' lsn Hwf Hfit Happ) as [_ Hback].
  split; [done|].
  apply LogMgr_append_ok in Happ as (w1 & _ & -> & ->). done.
Qed.

Lemma X14_log_record_read_back_witness :
  let record := SetStringRecord 3 blk_T1 40 (py "zoe") in
  let w' := run (LogRecord.write_to_log record) dirty_world in
  result newest_record w' = Ok (Some record) /\
  0 = number (lm_currentblk (logm w')).
Proof.
  apply (X14_log_record_read_back (SetStringRecord 3 blk_T1 40 (py "zoe")) dirty_world
           (run (LogRecord.write_to_log (SetStringRecord 3 blk_T1 40 (py "zoe"))) dirty_world)
           0).
  - repeat split; vm_compute; (reflexivity || discriminate).
  - vm_compute. discriminate.
  - vm_compute. reflexivity.
Defined.

(** X15: [LogMgr.append] returns whenever the log manager is between
    two appends, the record with its trailer fits in a block after the
    tail pointer, and its integers are of four signed bytes and its
    strings of Unicode scalar values; it leaves the log manager between
    two appends again. *)
Theorem X15_append_returns (rec : list value) (w : World) :
  log_wf w ->
  LogMgr.recsize rec + 4 <= BLOCK_SIZE ->
  Forall value_ok rec ->
  exists w' lsn,
    LogMgr.append rec w = (w', Ok lsn) /\ log_wf w' /\
    lsn = number (lm_currentblk (logm w')).
Proof.
  intros Hwf Hfit Hok.
  destruct (LogMgr_append_total rec w Hwf Hfit Hok) as (w' & lsn & Happ).
  exists w', lsn. split; [done|].
  destruct (LogMgr_append_layout _ _ _ _ Hwf Hfit Happ) as [Hwf' _].
  split; [done|].
  apply LogMgr_append_ok in Happ as (w1 & _ & -> & ->). done.
Qed.

Lemma X15_append_returns_witness :
  exists w' lsn,
    LogMgr.append [VInt 7; VStr (py "joe")] log_filled = (w', Ok lsn) /\ log_wf w' /\
    lsn = number (lm_currentblk (logm w')).
Proof.
  apply (X15_append_returns [VInt 7; VStr (py "joe")] log_filled).
  - repeat split; vm_compute; (reflexivity || discriminate).
  - vm_compute. discriminate.
  - repeat constructor; vm_compute; discriminate.
Defined.

(** X16: an append that returns has started a new block exactly when
    the current position plus the size of the record reached the block
    size: it then wrote the page it leaves to its block, appended a
    zeroed page to the log file, and only then laid the record out; in
    the other case nothing is written to disk.  The LSN returned is
    the number of the block the record is in. *)
Theorem X16_append_new_block (rec : list value) (w w' : World) (lsn : Z) :
  log_wf w ->
  LogMgr.recsize rec + 4 <= BLOCK_SIZE ->
  LogMgr.append rec w = (w', Ok lsn) ->
  lsn = number (lm_currentblk (logm w')) /\
  if lm_currentpos (logm w) + LogMgr.recsize rec >=? BLOCK_SIZE then
    trace w' = trace w ++ [EvWrite (lm_currentblk (logm w)) (lm_mypage (logm w));
                           EvWrite (lm_currentblk (logm w')) Page.new;
                           EvAppend rec lsn]
  else
    lm_currentblk (logm w') = lm_currentblk (logm w) /\
    trace w' = trace w ++ [EvAppend rec lsn].
Proof. intros Hwf Hfit Happ. by apply LogMgr_append_new_block_iff. Qed.

Lemma X16_append_new_block_witness :
  let w' := run (LogMgr.append [VInt 9]) log_filled in
  1 = number (lm_currentblk (logm w')) /\
  if lm_currentpos (logm log_filled) + LogMgr.recsize [VInt 9] >=? BLOCK_SIZE then
    trace w' = trace log_filled
                 ++ [EvWrite (lm_currentblk (logm log_filled)) (lm_mypage (logm log_filled));
                     EvWrite (lm_currentblk (logm w')) Page.new;
                     EvAppend [VInt 9] 1]
  else
    lm_currentblk (logm w') = lm_currentblk (logm log_filled) /\
    trace w' = trace log_filled ++ [EvAppend [VInt 9] 1].
Proof.
  apply (X16_append_new_block [VInt 9] log_filled (run (LogMgr.append [VInt 9]) log_filled) 1).
  - repeat split; vm_compute; (reflexivity || discriminate).
  - vm_compute. discriminate.
  - vm_compute. reflexivity.
Defined.

(** X17: a log manager that [LogMgr(logfile)] has built on a log whose
    last block has a tail pointer that is not negative is between two
    appends: its page is a block long, its current block exists, and
    its position is four bytes past the tail pointer.  On a log file
    that has no block there is nothing to check. *)
Theorem X17_log_manager_created (logfile : str) (w w' : World) :
  LogMgr.init logfile w = (w', Ok tt) ->
  (4 <= lm_currentpos (logm w') -> log_wf w') /\
  (FileMgr.file_data (fm w) logfile = [] ->
   log_wf w' /\ lm_currentpos (logm w') = 4 /\ lm_mypage (logm w') = Page.new).
Proof.
  intros Hinit. split; [by apply (LogMgr_init_wf logfile w)|].
  intros Hempty. unfold LogMgr.init in Hinit.
  apply bind_ok_inv in Hinit as ([] & s1 & E1 & H). injection E1 as <-.
  apply bind_ok_inv in H as (logsize & s2 & E2 & H).
  assert (logsize = 0) as ->.
  { unfold FileMgr.size, FileMgr.get_file, FileMgr.file_data, bind, get, put, ret in *.
    cbn in E2. destruct (fm_files (fm w) !! logfile) eqn:E; cbn in *.
    - injection E2 as <- <-. by subst.
    - by injection E2 as <- <-. }
  cbn in H.
  pose proof (LogMgr_append_new_block_ok _ _ H) as [Hwf Hpos].
  apply LogMgr_append_new_block_trace in H as (_ & _ & Hpg). done.
Qed.

Lemma X17_log_manager_created_witness :
  let w' := run (LogMgr.init SimpleDB.LOG_FILE) (SimpleDB.boot None) in
  (4 <= lm_currentpos (logm w') -> log_wf w') /\
  (FileMgr.file_data (fm (SimpleDB.boot None)) SimpleDB.LOG_FILE = [] ->
   log_wf w' /\ lm_currentpos (logm w') = 4 /\ lm_mypage (logm w') = Page.new).
Proof.
  apply (X17_log_manager_created SimpleDB.LOG_FILE (SimpleDB.boot None)
           (run (LogMgr.init SimpleDB.LOG_FILE) (SimpleDB.boot None))).
  vm_compute. reflexivity.
Defined.

(** ** What leaves the log manager as it is

    Only [LogMgr.append] and the constructor change the page, the block
    or the position of the log manager: the file manager, the buffers,
    the iterators and the undo of a record do not. *)

Ltac keeps_step :=
  lazymatch goal with
  | |- preserves _ (bind _ _) => apply preserves_bind; [|intros ?]
  | |- preserves _ (ret _) => apply preserves_ret
  | |- preserves _ (raise _) => apply preserves_raise
  | |- preserves _ get => apply preserves_get
  | |- preserves _ (lift _) => apply preserves_lift
  | |- preserves _ (assert _) => apply preserves_assert
  | |- preserves _ (modify _) => apply preserves_modify; intros ? <-; reflexivity
  | |- preserves _ (except_raise _ _) => apply preserves_except_raise
  | |- preserves _ (for_each _ _) => apply preserves_for_each; intros ?
  | |- preserves _ (match ?x with _ => _ end) => destruct x
  end.

Create HintDb keeps discriminated.

Ltac keeps := repeat first [ solve [auto 2 with keeps nocore] | keeps_step ].

Section KeepsLog.

Variable L : LogMgr.

#[local] Abbreviation kept := (preserves (fun s : World => logm s = L)).

Lemma kept_get_file filename : kept (FileMgr.get_file filename).
Proof.
  intros s Hs. unfold FileMgr.get_file, bind, get, put, ret.
  by destruct (fm_files (fm s) !! filename).
Qed.
#[local] Hint Resolve kept_get_file : keeps.

Lemma kept_FileMgr_write blk bb : kept (FileMgr.write blk bb).
Proof. unfold FileMgr.write, FileMgr.put_file. keeps. Qed.

Lemma kept_FileMgr_read blk bb : kept (FileMgr.read blk bb).
Proof. unfold FileMgr.read. keeps. Qed.
#[local] Hint Resolve kept_FileMgr_write kept_FileMgr_read : keeps.

Lemma kept_MaxPage_write blk bb : kept (MaxPage.write blk bb).
Proof. unfold MaxPage.write. keeps. Qed.

Lemma kept_MaxPage_read blk bb : kept (MaxPage.read blk bb).
Proof. unfold MaxPage.read. keeps. Qed.
#[local] Hint Resolve kept_MaxPage_write kept_MaxPage_read : keeps.

Lemma kept_LogMgr_flush lsn : kept (LogMgr.flush lsn).
Proof. unfold LogMgr.flush, LogMgr.__current_lsn, LogMgr.__flush. keeps. Qed.

Lemma kept_LogMgr_iterator : kept LogMgr.iterator.
Proof. unfold LogMgr.iterator, LogMgr.__flush, LogIterator.init. keeps. Qed.

Lemma kept_LogIterator_next it : kept (LogIterator.next it).
Proof. unfold LogIterator.next, LogIterator.__move_to_next_block. keeps. Qed.
#[local] Hint Resolve kept_LogMgr_flush kept_LogMgr_iterator kept_LogIterator_next : keeps.

Lemma kept_LogRecordIterator_next it : kept (LogRecordIterator.next it).
Proof. unfold LogRecordIterator.next. keeps. Qed.
#[local] Hint Resolve kept_LogRecordIterator_next : keeps.

Lemma kept_BufferSlot_self i : kept (BufferSlot.self i).
Proof. unfold BufferSlot.self. keeps. Qed.

Lemma kept_BufferSlot_update i f : kept (BufferSlot.update i f).
Proof. unfold BufferSlot.update. keeps. Qed.
#[local] Hint Resolve kept_BufferSlot_self kept_BufferSlot_update : keeps.

Lemma kept_BufferSlot_on_contents {A} i (m : ST (list Z) A) :
  kept (BufferSlot.on_contents i m).
Proof. unfold BufferSlot.on_contents. keeps. Qed.
#[local] Hint Resolve kept_BufferSlot_on_contents : keeps.

Lemma kept_BufferSlot_flush i : kept (BufferSlot.flush i).
Proof. unfold BufferSlot.flush. keeps. Qed.
#[local] Hint Resolve kept_BufferSlot_flush : keeps.

Lemma kept_BufferSlot_is_pinned i : kept (BufferSlot.is_pinned i).
Proof. unfold BufferSlot.is_pinned. keeps. Qed.
#[local] Hint Resolve kept_BufferSlot_is_pinned : keeps.

Lemma kept_BufferSlot_assign_to_block i blk : kept (BufferSlot.assign_to_block i blk).
Proof. unfold BufferSlot.assign_to_block. keeps. Qed.
#[local] Hint Resolve kept_BufferSlot_assign_to_block : keeps.

Lemma kept_BufferMgr_flush_all t : kept (BufferMgr.flush_all t).
Proof.
  unfold BufferMgr.flush_all, BasicBufferMgr.flush_all, BasicBufferMgr.slots,
    BufferSlot.is_modified_by.
  keeps.
Qed.

Lemma kept_BufferMgr_pin blk : kept (BufferMgr.pin blk).
Proof.
  unfold BufferMgr.pin, BasicBufferMgr.pin, BasicBufferMgr.__find_existing_buffer,
    BasicBufferMgr.__choose_unpinned_buffer, BasicBufferMgr.add_available, BufferSlot.pin.
  keeps.
Qed.

Lemma kept_BufferMgr_unpin buff : kept (BufferMgr.unpin buff).
Proof.
  unfold BufferMgr.unpin, BasicBufferMgr.unpin, BasicBufferMgr.add_available,
    BufferSlot.unpin.
  keeps.
Qed.
#[local] Hint Resolve kept_BufferMgr_flush_all kept_BufferMgr_pin kept_BufferMgr_unpin : keeps.

Lemma kept_LogRecord_undo rec t : kept (LogRecord.undo rec t).
Proof.
  unfold LogRecord.undo, BufferSlot.set_int, BufferSlot.set_string. keeps.
Qed.
#[local] Hint Resolve kept_LogRecord_undo : keeps.

Lemma kept_rollback_loop fuel t : forall it, kept (RecoveryMgr.rollback_loop fuel t it).
Proof.
  induction fuel as [|fuel IH]; intros it; cbn [RecoveryMgr.rollback_loop]; [keeps|].
  destruct (LogRecordIterator.has_next it); [|keeps].
  apply preserves_bind; [keeps|]. intros p.
  destruct (snd p) as [rec|]; [|keeps].
  destruct (_ =? t); [|apply IH].
  destruct (_ =? _); [keeps|].
  apply preserves_bind; [keeps | intros _; apply IH].
Qed.

Lemma kept_do_rollback fuel t : kept (RecoveryMgr.__do_rollback fuel t).
Proof.
  unfold RecoveryMgr.__do_rollback, LogRecordIterator.init.
  apply preserves_bind; [keeps | intros it; apply kept_rollback_loop].
Qed.

Lemma kept_on_concur_mgr {A} t (m : ST PageLockMgr A) : kept (TxObj.on_concur_mgr t m).
Proof. unfold TxObj.on_concur_mgr, TxObj.self. keeps. Qed.
#[local] Hint Resolve kept_on_concur_mgr : keeps.

Lemma kept_release t : kept (Transaction.release t).
Proof. unfold Transaction.release, TxObj.self. keeps. Qed.


End KeepsLog.

(** ** Rolling back *)

Lemma log_wf_logm (w w1 : World) : logm w1 = logm w -> log_wf w -> log_wf w1.
Proof. unfold log_wf. by intros ->. Qed.

(** The record the log manager has appended last is the newest one,
    whatever was done since to the files, the buffers and the
    transactions. *)
Lemma newest_record_kept (record : LogRecord) (w w1 w2 : World) (lsn : Z) :
  log_wf w ->
  LogMgr.recsize (LogRecord.rec record) + 4 <= BLOCK_SIZE ->
  LogRecord.write_to_log record w = (w1, Ok lsn) ->
  logm w2 = logm w1 ->
  log_wf w2 /\ result newest_record w2 = Ok (Some record).
Proof.
  intros Hwf Hfit Happ Hlog.
  destruct (LogMgr_append_layout _ _ _ _ Hwf Hfit Happ)
    as (Hwf1 & start & Hstart & Hst & Hpos & Htr).
  assert (Hwf2 : log_wf w2) by (by apply (log_wf_logm w1)).
  split; [done|].
  rewrite <- Hlog in Hst, Hpos, Htr.
  destruct (newest_basic_record_reads w2 _ start Hwf2 Hstart Hst Hpos Htr) as (r & Hr & Hreads).
  unfold result. rewrite (newest_record_eq _ _ _ Hr). cbn [snd].
  by apply LogRecordIterator_parse_reads.
Qed.

(** X18: a rollback of the recovery manager that returns, on a log
    manager between two appends, leaves a COMMIT record of the
    transaction (code 2, not the code 3 of ROLLBACK) as the newest
    record of the log: it is what [LogRecordIterator] reads first.  The
    rollback ends by appending that record and by writing the log page
    to the current block of the log, whose number is the LSN of the
    record; the block on disk then holds the page. *)
Theorem X18_rollback_logs_commit (fuel : nat) (t : Z) (w w' : World) :
  log_wf w ->
  RecoveryMgr.rollback fuel t w = (w', Ok tt) ->
  log_wf w' /\
  result newest_record w' = Ok (Some (CommitRecord t)) /\
  on_disk w' (lm_currentblk (logm w')) = lm_mypage (logm w') /\
  exists (before : list event) (lsn : Z),
    trace w' = before ++ [EvAppend [VInt 2; VInt t] lsn;
                          EvWrite (lm_currentblk (logm w')) (lm_mypage (logm w'))] /\
    lsn = number (lm_currentblk (logm w')).
Proof.
  intros Hwf H. unfold RecoveryMgr.rollback in H.
  apply bind_ok_inv in H as ([] & s1 & E1 & H).
  apply bind_ok_inv in H as ([] & s2 & E2 & H).
  apply bind_ok_inv in H as (lsn & s3 & E3 & H).
  assert (Hl1 : logm s1 = logm w)
    by (by apply (preserves_ok _ _ _ _ _ (kept_do_rollback (logm w) fuel t) eq_refl E1)).
  assert (Hl2 : logm s2 = logm w)
    by (by apply (preserves_ok _ _ _ _ _ (kept_BufferMgr_flush_all (logm w) t) Hl1 E2)).
  assert (Hwf2 : log_wf s2) by (by apply (log_wf_logm w)).
  pose proof E3 as E3'.
  apply LogMgr_append_ok in E3 as (s2' & _ & -> & Hlsn).
  apply LogMgr_flush_ok_inv in H. cbn [emit logm] in H.
  rewrite <- Hlsn in H.
  destruct (Z.geb_spec lsn lsn); [|lia]. subst w'.
  set (s3 := emit _ s2') in *.
  destruct (newest_record_kept (CommitRecord t) s2 s3
              (written (lm_currentblk (logm s2')) (lm_mypage (logm s2')) s3) lsn)
    as [Hwf' Hnew]; [done|vm_compute; discriminate|done|by rewrite logm_written|].
  split; [done|]. split; [done|].
  rewrite logm_written. cbn [s3 emit logm].
  split.
  { change (logm s2') with (logm s3).
    apply on_disk_written.
    destruct Hwf' as [Hlen _]. by rewrite logm_written in Hlen. }
  exists (trace s2'), lsn. split; [|done].
  rewrite trace_written. cbn. by rewrite <- app_assoc.
Qed.

Lemma X18_rollback_logs_commit_witness :
  let w' := run (RecoveryMgr.rollback 100 1) dirty_world in
  log_wf w' /\
  result newest_record w' = Ok (Some (CommitRecord 1)) /\
  on_disk w' (lm_currentblk (logm w')) = lm_mypage (logm w') /\
  exists (before : list event) (lsn : Z),
    trace w' = before ++ [EvAppend [VInt 2; VInt 1] lsn;
                          EvWrite (lm_currentblk (logm w')) (lm_mypage (logm w'))] /\
    lsn = number (lm_currentblk (logm w')).
Proof.
  apply (X18_rollback_logs_commit 100 1 dirty_world
           (run (RecoveryMgr.rollback 100 1) dirty_world)).
  - repeat split; vm_compute; (reflexivity || discriminate).
  - vm_compute. reflexivity.
Defined.


(** ** Reading what a transaction wrote *)

Lemma set_txs_id (w : World) : set_txs (txs w) w = w.
Proof. by destruct w. Qed.

Lemma PageLockMgr_xlock_holds (m m' : PageLockMgr) (blk : Block) :
  PageLockMgr.xlock blk m = (m', Ok tt) ->
  assoc_get (plm_locks m') blk = Some X_lock.
Proof.
  unfold PageLockMgr.xlock, bind at 1, PageLockMgr.__has_xlock, bind at 1, get, ret.
  destruct (assoc_get (plm_locks m) blk) as [[]|] eqn:E.
  2:{ by intros [= <-]. }
  all: intros H;
    apply bind_ok_inv in H as ([] & m1 & _ & H);
    apply bind_ok_inv in H as ([] & m2 & _ & H);
    unfold PageLockMgr.setitem, modify in H; injection H as <-; cbn;
    rewrite assoc_get_set; by destruct (decide (blk = blk)).
Qed.

Lemma PageLockMgr_slock_held (m : PageLockMgr) (blk : Block) (ty : lock_type) :
  assoc_get (plm_locks m) blk = Some ty ->
  PageLockMgr.slock blk m = (m, Ok tt).
Proof. intros H. unfold PageLockMgr.slock, bind, get. by rewrite H. Qed.

Lemma the_buffer_inv (t : Z) (blk : Block) (i : nat) (w w' : World) :
  Transaction.the_buffer t blk w = (w', Ok i) ->
  w' = w /\ exists tx, txs w !! t = Some tx /\ bl_buffers (tx_my_buffers tx) !! blk = Some i.
Proof.
  unfold Transaction.the_buffer, BufferList.get_buffer, TxObj.my_buffers, TxObj.self,
    bind, get, ret, raise.
  destruct (txs w !! t) as [tx|]; [|discriminate].
  destruct (bl_buffers (tx_my_buffers tx) !! blk) as [j|] eqn:E; [|discriminate].
  intros [= <- <-]. eauto.
Qed.

Lemma the_buffer_eq (t : Z) (blk : Block) (i : nat) (tx : Transaction) (w : World) :
  txs w !! t = Some tx ->
  bl_buffers (tx_my_buffers tx) !! blk = Some i ->
  Transaction.the_buffer t blk w = (w, Ok i).
Proof.
  intros Htx Hb.
  unfold Transaction.the_buffer, BufferList.get_buffer, TxObj.my_buffers, TxObj.self,
    bind, get, ret.
  by rewrite Htx, Hb.
Qed.

Lemma RecoveryMgr_set_int_ok (t : Z) (i : nat) (offset val lsn : Z) (w w' : World) :
  RecoveryMgr.set_int t i offset val w = (w', Ok lsn) ->
  bm w' = bm w /\ txs w' = txs w /\
  exists b, bufferpool (bm w) !! i = Some b.
Proof.
  intros H. unfold RecoveryMgr.set_int in H.
  destruct (bufferpool (bm w) !! i) as [b|] eqn:Hb.
  2:{ unfold BufferSlot.get_int, BufferSlot.on_contents, BufferSlot.self, bind, get in H.
      rewrite Hb in H. discriminate. }
  apply bind_ok_inv in H as (old & s1 & E1 & H).
  rewrite (BufferSlot_get_int_eq i b w offset Hb) in E1. injection E1 as <- _.
  apply bind_ok_inv in H as (ob & s2 & E2 & H).
  unfold BufferSlot.block in E2.
  erewrite bind_ok in E2 by (by apply BufferSlot_self_eq).
  injection E2 as <- <-.
  apply bind_ok_inv in H as (temp & s3 & E3 & H).
  destruct (bs_blk b) as [b0|]; [|discriminate].
  injection E3 as <- <-.
  destruct (startswith _ _).
  - injection H as <- _. eauto.
  - apply LogMgr_append_ok in H as (w1 & (Hbm & Htx & _) & -> & _).
    cbn. eauto.
Qed.

(** X19: a transaction reads what it has written.  After a
    [Transaction.set_int] that returned, [get_int] of the same
    transaction at the same block and offset returns the value written
    and changes nothing: the exclusive lock the write took answers the
    request for a shared lock, and the buffer the block is pinned to
    holds the value, whether or not it has been flushed. *)
Theorem X19_transaction_reads_its_write (t : Z) (blk : Block) (offset val : Z)
    (w w' : World) :
  Transaction.set_int t blk offset val w = (w', Ok tt) ->
  Transaction.get_int t blk offset w' = (w', Ok val).
Proof.
  intros H. unfold Transaction.set_int in H.
  apply bind_ok_inv in H as ([] & s1 & E1 & H).
  assert (exists tx, txs w !! t = Some tx) as [tx Htx].
  { unfold TxObj.on_concur_mgr, TxObj.self, bind, get in E1.
    destruct (txs w !! t); [eauto|discriminate]. }
  apply (on_concur_mgr_ok t tx) in E1 as (c & Hx & ->); [|done].
  apply PageLockMgr_xlock_holds in Hx.
  set (tx1 := {| tx_txnum := tx_txnum tx; tx_concur_mgr := c;
                 tx_my_buffers := tx_my_buffers tx |}) in *.
  apply bind_ok_inv in H as (i & s2 & E2 & H).
  apply the_buffer_inv in E2 as (-> & tx' & Htx' & Hbuf).
  cbn in Htx'. rewrite lookup_insert_eq in Htx'. injection Htx' as <-.
  apply bind_ok_inv in H as (lsn & s3 & E3 & H).
  apply RecoveryMgr_set_int_ok in E3 as (Hbm & Htxs & b & Hb).
  assert (Hb3 : bufferpool (bm s3) !! i = Some b) by (by rewrite Hbm).
  change (BufferSlot.set_int i offset val t lsn) with
    (slot_write i offset (VInt val) t lsn) in H.
  rewrite (slot_write_eq i offset (VInt val) t lsn b s3 Hb3) in H.
  injection H as <- Hst.
  set (w' := with_slot i _ s3).
  assert (Htw : txs w' !! t = Some tx1).
  { subst w'. cbn. rewrite Htxs. cbn. apply lookup_insert_eq. }
  unfold Transaction.get_int.
  erewrite bind_ok.
  2:{ apply (on_concur_mgr_eq t tx1 _ c (Ok tt)); [done|].
      by apply (PageLockMgr_slock_held c blk X_lock). }
  replace {| tx_txnum := tx_txnum tx1; tx_concur_mgr := c;
             tx_my_buffers := tx_my_buffers tx1 |} with tx1 by done.
  rewrite insert_id by done. rewrite set_txs_id.
  erewrite bind_ok by (by apply (the_buffer_eq t blk i tx1)).
  rewrite (BufferSlot_get_int_eq i (stamped b (fst (page_store offset (VInt val) (bs_contents b))) t lsn)).
  2:{ subst w'. apply with_slot_lookup. by apply lookup_lt_Some in Hb3. }
  f_equal. cbn [stamped bs_contents page_store].
  unfold page_store, MaxPage.set_int, Page.set_int, Page.set in *.
  destruct (pack_into Fmt_i (bs_contents b) offset val) as [c'|] eqn:Hp; [|discriminate].
  cbn. by apply unpack_from_pack_into in Hp.
Qed.

Lemma X19_transaction_reads_its_write_witness :
  let w' := run (Transaction.set_int 1 blk_T0 40 9) dirty_world in
  Transaction.get_int 1 blk_T0 40 w' = (w', Ok 9).
Proof.
  apply (X19_transaction_reads_its_write 1 blk_T0 40 9 dirty_world
           (run (Transaction.set_int 1 blk_T0 40 9) dirty_world)).
  vm_compute. reflexivity.
Defined.

(** ** The state a commit leaves *)






